(** * Media-Arena: the tournament engine of [arena.py]

    A shallow embedding of the engine functions of [src/arena.py]
    ([calculate_elo], [create_swiss_pairings], [has_played],
    [start_tournament], [display_match], [vote]) and the properties the
    specification states about them.

    Conventions of the embedding.
    - A Python exception is a value [Raise e] of the result type; a
      function that returns normally yields [Ok v].  A raised exception
      ends the call; what the call had already written to the dict is not
      kept.  The [gr.Warning] toasts of [start_tournament] are left out.
    - The state object is the Python [dict] of the source: a record with
      one optional field per key, so that a missing key is a [KeyError]
      exactly where the source subscripts it.
    - Python dicts keep insertion order; they are association lists whose
      keys are pairwise distinct.
    - [random.shuffle] draws from the hidden generator of the [random]
      module: the generator state is threaded explicitly and the shuffle
      itself is a parameter, known only to return a permutation.
    - Floating point numbers are read as exact reals; the only float
      effect kept is the [OverflowError] of [10 ** x]. *)

From Stdlib Require Import Reals Lra ZArith Lia List String Bool Permutation Sorted.
From Stdlib Require Import DecimalString.
Import ListNotations.

Set Implicit Arguments.

(** ** Exceptions and results *)

Inductive Exn : Type :=
| KeyError
| IndexError
| OverflowError
| RecursionError.

Inductive Result (A : Type) : Type :=
| Ok (a : A)
| Raise (e : Exn).

Arguments Ok {A} a.
Arguments Raise {A} e.

Definition rbind {A B : Type} (m : Result A) (k : A -> Result B) : Result B :=
  match m with
  | Ok a => k a
  | Raise e => Raise e
  end.

Declare Scope result_scope.
Delimit Scope result_scope with result.
Notation "x <-? m ;; k" := (rbind m (fun x => k))
  (at level 61, m at next level, right associativity) : result_scope.
Notation "' pat <-? m ;; k" :=
  (rbind m (fun x => match x with pat => k end))
  (at level 61, pat pattern, m at next level, right associativity)
  : result_scope.

(** ** RatingCalculator: [calculate_elo] *)

Section Rating.

Local Open Scope R_scope.
Local Open Scope result_scope.

(** Largest finite binary64 value, [(2^53 - 1) * 2^971]. *)
Definition float_max : R := IZR ((2 ^ 53 - 1) * 2 ^ 971).

(** [10 ** x] on a float exponent: CPython raises [OverflowError] when the
    result is out of the binary64 range.  The range test is made on the
    exact power, which settles every exponent but those within rounding
    distance of the bound, about 308.25. *)
Definition py_pow10 (x : R) : Result R :=
  if Rle_dec (Rpower 10 x) float_max then Ok (Rpower 10 x)
  else Raise OverflowError.

(** [round(x)] with one argument: nearest integer, ties to the even one. *)
Definition py_round (x : R) : Z :=
  let f := Zfloor x in
  let r := x - IZR f in
  if Rlt_dec r (1 / 2) then f
  else if Rlt_dec (1 / 2) r then (f + 1)%Z
  else if Z.even f then f else (f + 1)%Z.

Definition k_factor : R := 32.

(** The arithmetic around the power is exact: the subtraction and the
    division are those of the reals, as they are for the integer ratings
    the engine passes. *)

Definition calculate_elo (player_a_rating player_b_rating result : R)
  : Result (Z * Z) :=
  p <-? py_pow10 ((player_b_rating - player_a_rating) / 400);;
  let expected_a := 1 / (1 + p) in
  let expected_b := 1 - expected_a in
  let new_rating_a := player_a_rating + k_factor * (result - expected_a) in
  let new_rating_b :=
    player_b_rating + k_factor * ((1 - result) - expected_b) in
  Ok (py_round new_rating_a, py_round new_rating_b).





End Rating.

(** ** Data model *)

Local Open Scope string_scope.
Local Open Scope list_scope.
Local Open Scope Z_scope.

(** An item is the path of a media file. *)
Abbreviation Item := string (only parsing).

(** The three values the ["status"] key takes: ["active"], ["winner"],
    ["eliminated"]. *)
Inductive Status : Type := active | winner | eliminated.

Definition Status_eqb (a b : Status) : bool :=
  match a, b with
  | active, active | winner, winner | eliminated, eliminated => true
  | _, _ => false
  end.

(** The vote buttons call [vote('A', s)], [vote('TIE', s)], [vote('B', s)]. *)
Inductive Outcome : Type := A | B | TIE.

(** The per-player dict.  Elimination mode writes ["status"] and
    ["eliminated_in_round"]; rating mode writes ["elo"], ["score"] and
    ["matches"].  The score is kept in half points: the Python value [s]
    is the integer [2 * s] here (every score is a sum of 0.0, 0.5 and 1.0,
    all exact in binary64). *)
Record PlayerData : Type := mkPlayer {
  status : option Status;
  eliminated_in_round : option Z;
  elo : option Z;
  score : option Z;
  matches : option Z
}.

Definition empty_player : PlayerData := mkPlayer None None None None None.

Definition set_status (s : Status) (d : PlayerData) : PlayerData :=
  mkPlayer (Some s) (eliminated_in_round d) (elo d) (score d) (matches d).

Definition set_eliminated_in_round (r : Z) (d : PlayerData) : PlayerData :=
  mkPlayer (status d) (Some r) (elo d) (score d) (matches d).

Definition set_rating (e s m : Z) (d : PlayerData) : PlayerData :=
  mkPlayer (status d) (eliminated_in_round d) (Some e) (Some s) (Some m).

(** Insertion-ordered dict with string keys. *)
Definition Dict (V : Type) : Type := list (Item * V).

Fixpoint dict_get {V : Type} (k : Item) (d : Dict V) : option V :=
  match d with
  | [] => None
  | (k', v) :: d' => if String.eqb k k' then Some v else dict_get k d'
  end.

(** [d[k] = v]: an existing key keeps its position, a new one goes last. *)
Fixpoint dict_set {V : Type} (k : Item) (v : V) (d : Dict V) : Dict V :=
  match d with
  | [] => [(k, v)]
  | (k', v') :: d' =>
      if String.eqb k k' then (k', v) :: d' else (k', v') :: dict_set k v d'
  end.

Definition dict_keys {V : Type} (d : Dict V) : list Item := map fst d.

(** [d.get(k, default)] *)
Definition dict_get_default {V : Type} (k : Item) (default : V) (d : Dict V) : V :=
  match dict_get k d with
  | Some v => v
  | None => default
  end.

(** [d[k]] *)
Definition subscript {V : Type} (d : Dict V) (k : Item) : Result V :=
  match dict_get k d with
  | Some v => Ok v
  | None => Raise KeyError
  end.

(** [state["key"]] on a key held in an optional field. *)
Definition field {V : Type} (f : option V) : Result V :=
  match f with
  | Some v => Ok v
  | None => Raise KeyError
  end.

(** [{k: f(k) for k in keys}] *)
Definition dict_comprehension {V : Type} (f : Item -> V) (keys : list Item)
  : Dict V :=
  fold_left (fun d k => dict_set k (f k) d) keys [].

(** [l[i]] with Python's negative indices. *)
Definition py_index {V : Type} (l : list V) (i : Z) : Result V :=
  let n := Z.of_nat (List.length l) in
  let j := if i <? 0 then i + n else i in
  if (0 <=? j) && (j <? n) then
    match nth_error l (Z.to_nat j) with
    | Some v => Ok v
    | None => Raise IndexError
    end
  else Raise IndexError.

Definition len {V : Type} (l : list V) : Z := Z.of_nat (List.length l).

(** The state dict.  [start_tournament] creates it with ["mode"],
    ["original_filenames"], ["players"], ["matchups"]; elimination mode
    adds ["current_match_index"], ["round"]; rating mode adds
    ["total_rounds"], ["current_round"], ["match_history"],
    ["matchups_this_round"], ["current_match_index"]. *)
Record StateDict : Type := mkState {
  mode : option string;
  original_filenames : option (Dict string);
  players : option (Dict PlayerData);
  matchups : option (list (Item * Item));
  current_match_index : option Z;
  round : option Z;
  total_rounds : option Z;
  current_round : option Z;
  match_history : option (list (Item * Item));
  matchups_this_round : option (list (Item * Item))
}.

Definition set_players (v : Dict PlayerData) (s : StateDict) : StateDict :=
  mkState (mode s) (original_filenames s) (Some v) (matchups s)
    (current_match_index s) (round s) (total_rounds s) (current_round s)
    (match_history s) (matchups_this_round s).

Definition set_matchups (v : list (Item * Item)) (s : StateDict) : StateDict :=
  mkState (mode s) (original_filenames s) (players s) (Some v)
    (current_match_index s) (round s) (total_rounds s) (current_round s)
    (match_history s) (matchups_this_round s).

Definition set_current_match_index (v : Z) (s : StateDict) : StateDict :=
  mkState (mode s) (original_filenames s) (players s) (matchups s)
    (Some v) (round s) (total_rounds s) (current_round s)
    (match_history s) (matchups_this_round s).

Definition set_round (v : Z) (s : StateDict) : StateDict :=
  mkState (mode s) (original_filenames s) (players s) (matchups s)
    (current_match_index s) (Some v) (total_rounds s) (current_round s)
    (match_history s) (matchups_this_round s).

Definition set_total_rounds (v : Z) (s : StateDict) : StateDict :=
  mkState (mode s) (original_filenames s) (players s) (matchups s)
    (current_match_index s) (round s) (Some v) (current_round s)
    (match_history s) (matchups_this_round s).

Definition set_current_round (v : Z) (s : StateDict) : StateDict :=
  mkState (mode s) (original_filenames s) (players s) (matchups s)
    (current_match_index s) (round s) (total_rounds s) (Some v)
    (match_history s) (matchups_this_round s).

Definition set_match_history (v : list (Item * Item)) (s : StateDict)
  : StateDict :=
  mkState (mode s) (original_filenames s) (players s) (matchups s)
    (current_match_index s) (round s) (total_rounds s) (current_round s)
    (Some v) (matchups_this_round s).

Definition set_matchups_this_round (v : list (Item * Item)) (s : StateDict)
  : StateDict :=
  mkState (mode s) (original_filenames s) (players s) (matchups s)
    (current_match_index s) (round s) (total_rounds s) (current_round s)
    (match_history s) (Some v).

(** What the shell hands to the engine as [state]: [None] before a
    tournament starts, the state dict afterwards, or anything else. *)
Inductive StateObj : Type :=
| PyNone
| PyOther (repr : string)
| PyDict (d : StateDict).

(** The two mode labels of the radio selector. *)
Definition mode_elimination : string := "單淘汰賽".
Definition mode_elo : string := "循環評分賽 (ELO)".

(** ** The view: one [gr.update] per output component *)

Record Update (V : Type) : Type := mkUpdate {
  upd_value : option V;
  upd_label : option string;
  upd_visible : option bool
}.

Arguments mkUpdate {V} _ _ _.

(** [gr.update()] *)
Definition gr_update {V : Type} : Update V := mkUpdate None None None.
(** [gr.update(visible=b)] *)
Definition gr_visible {V : Type} (b : bool) : Update V :=
  mkUpdate None None (Some b).
(** [gr.update(value=v)] *)
Definition gr_value {V : Type} (v : V) : Update V :=
  mkUpdate (Some v) None None.

(** A row of the rating-mode leaderboard: name, ELO, score (half points),
    matches played. *)
Record EloRow : Type := mkEloRow {
  row_name : string;
  row_elo : Z;
  row_score : Z;
  row_matches : Z
}.

(** A row of the elimination ranking before projection: name and sort key. *)
Record RankRow : Type := mkRankRow {
  rank_name : string;
  rank_order : Z
}.

Inductive Table : Type :=
| EloTable (rows : list EloRow)
| ElimTable (rows : list (Z * string)).

(** [updates[1..10]], in the order of [outputs_list]. *)
Record View : Type := mkView {
  info_text : Update string;
  left_media_display : Update Item;
  right_media_display : Update Item;
  left_btn : Update unit;
  tie_btn : Update unit;
  right_btn : Update unit;
  ranking_table : Update Table;
  final_winner_video : Update Item;
  final_winner_image : Update Item;
  custom_video_controls : Update unit
}.

(** [(gr.update(),) * 10] *)
Definition no_updates : View :=
  mkView gr_update gr_update gr_update gr_update gr_update gr_update
    gr_update gr_update gr_update gr_update.

(** [updates] after the loop of [display_match]: slot 1 untouched, slots
    2..10 hidden. *)
Definition hidden_updates : View :=
  mkView gr_update (gr_visible false) (gr_visible false) (gr_visible false)
    (gr_visible false) (gr_visible false) (gr_visible false)
    (gr_visible false) (gr_visible false) (gr_visible false).

Definition set_updates (info : string) (l_vis t_vis r_vis c_vis : bool)
  (u : View) : View :=
  mkView (gr_value info) (left_media_display u) (right_media_display u)
    (gr_visible l_vis) (gr_visible t_vis) (gr_visible r_vis)
    (ranking_table u) (final_winner_video u) (final_winner_image u)
    (gr_visible c_vis).

Definition set_media (p1 p2 : Item) (u : View) : View :=
  mkView (info_text u)
    (mkUpdate (Some p1) (Some "選項 A") (Some true))
    (mkUpdate (Some p2) (Some "選項 B") (Some true))
    (left_btn u) (tie_btn u) (right_btn u)
    (ranking_table u) (final_winner_video u) (final_winner_image u)
    (custom_video_controls u).

Definition set_ranking (t : Update Table) (u : View) : View :=
  mkView (info_text u) (left_media_display u) (right_media_display u)
    (left_btn u) (tie_btn u) (right_btn u)
    t (final_winner_video u) (final_winner_image u)
    (custom_video_controls u).

Definition set_final_video (w : Update Item) (u : View) : View :=
  mkView (info_text u) (left_media_display u) (right_media_display u)
    (left_btn u) (tie_btn u) (right_btn u)
    (ranking_table u) w (final_winner_image u)
    (custom_video_controls u).

Definition set_final_image (w : Update Item) (u : View) : View :=
  mkView (info_text u) (left_media_display u) (right_media_display u)
    (left_btn u) (tie_btn u) (right_btn u)
    (ranking_table u) (final_winner_video u) w
    (custom_video_controls u).

(** The message literals of the source. *)
Definition msg_internal_error : string := "發生內部錯誤，請重試。".
Definition msg_not_enough_files : string := "錯誤：有效的媒體檔案數量不足。".
Definition msg_elo_finished : string := "🎉 ELO 循環賽結束！這是最終排名。🎉".
Definition msg_no_more_pairings : string := "所有可能的配對均已完成，比賽結束！".
Definition msg_champion : string := "🎉 總冠軍出爐！ 🎉".

Definition str_of_Z (z : Z) : string := NilZero.string_of_int (Z.to_int z).

(** [f"第 {r}/{t} 輪 - 第 {i + 1}/{n} 場"] *)
Definition elo_info_text (r t i n : Z) : string :=
  ("第 " ++ str_of_Z r ++ "/" ++ str_of_Z t ++ " 輪 - 第 "
   ++ str_of_Z (i + 1) ++ "/" ++ str_of_Z n ++ " 場")%string.

(** [f"第 {r} 輪 - 第 {i + 1}/{n} 場"] *)
Definition elimination_info_text (r i n : Z) : string :=
  ("第 " ++ str_of_Z r ++ " 輪 - 第 "
   ++ str_of_Z (i + 1) ++ "/" ++ str_of_Z n ++ " 場")%string.

(** [f"總冠軍：{winner_name}"] *)
Definition champion_label (winner_name : string) : string :=
  ("總冠軍：" ++ winner_name)%string.

(** ** Effects: exceptions on top of the hidden random generator *)

Definition M (G A : Type) : Type := G -> Result (A * G).

Definition ret {G A : Type} (a : A) : M G A := fun g => Ok (a, g).

Definition bind {G A B : Type} (m : M G A) (k : A -> M G B) : M G B :=
  fun g =>
    match m g with
    | Ok (a, g') => k a g'
    | Raise e => Raise e
    end.

Definition lift {G A : Type} (r : Result A) : M G A :=
  fun g =>
    match r with
    | Ok a => Ok (a, g)
    | Raise e => Raise e
    end.

Declare Scope engine_scope.
Delimit Scope engine_scope with engine.
Notation "x <- m ;; k" := (bind m (fun x => k))
  (at level 61, m at next level, right associativity) : engine_scope.
Notation "' pat <- m ;; k" :=
  (bind m (fun x => match x with pat => k end))
  (at level 61, pat pattern, m at next level, right associativity)
  : engine_scope.

Local Open Scope result_scope.
Local Open Scope engine_scope.

(** ** Pure helpers of the engine *)

Definition pair_eqb (x y : Item * Item) : bool :=
  String.eqb (fst x) (fst y) && String.eqb (snd x) (snd y).

(** [x in h] for a set of tuples. *)
Definition pair_in (x : Item * Item) (h : list (Item * Item)) : bool :=
  existsb (pair_eqb x) h.

(** [h.add(x)] *)
Definition set_add (x : Item * Item) (h : list (Item * Item))
  : list (Item * Item) :=
  if pair_in x h then h else h ++ [x].

(** [tuple(sorted((p1, p2)))] *)
Definition sorted_pair (p1 p2 : Item) : Item * Item :=
  if String.leb p1 p2 then (p1, p2) else (p2, p1).

(** [data.get("score", 0)] *)
Definition score_or_0 (d : PlayerData) : Z :=
  match score d with
  | Some s => s
  | None => 0
  end.

(** [players_by_score[s].append(p)] on a [defaultdict(list)]. *)
Fixpoint group_add (s : Z) (p : Item) (g : list (Z * list Item))
  : list (Z * list Item) :=
  match g with
  | [] => [(s, [p])]
  | (s', l) :: g' =>
      if s =? s' then (s', l ++ [p]) :: g' else (s', l) :: group_add s p g'
  end.

(** [players_by_score[s]] *)
Fixpoint group_get (s : Z) (g : list (Z * list Item)) : list Item :=
  match g with
  | [] => []
  | (s', l) :: g' => if s =? s' then l else group_get s g'
  end.

Definition players_by_score (ps : Dict PlayerData) : list (Z * list Item) :=
  fold_left (fun g pd => group_add (score_or_0 (snd pd)) (fst pd) g) ps [].

Fixpoint insert_desc (x : Z) (l : list Z) : list Z :=
  match l with
  | [] => [x]
  | y :: l' => if y <=? x then x :: l else y :: insert_desc x l'
  end.

(** [sorted(keys, reverse=True)] *)
Definition sorted_reverse (l : list Z) : list Z := fold_right insert_desc [] l.

(** [l[::2]] and [l[1::2]] *)
Fixpoint slice_even {V : Type} (l : list V) : list V :=
  match l with
  | x :: _ :: r => x :: slice_even r
  | _ => l
  end.

Fixpoint slice_odd {V : Type} (l : list V) : list V :=
  match l with
  | _ :: y :: r => y :: slice_odd r
  | _ => []
  end.

(** [list(zip(l[::2], l[1::2]))] *)
Definition zip_pairs (l : list Item) : list (Item * Item) :=
  combine (slice_even l) (slice_odd l).

Definition is_odd {V : Type} (l : list V) : bool := Nat.odd (List.length l).

(** [s.endswith(suffix)] *)
Definition endswith (s suffix : string) : bool :=
  let n := String.length s in
  let m := String.length suffix in
  (m <=? n)%nat && String.eqb (substring (n - m) m s) suffix.

Definition SUPPORTED_EXTENSIONS : list string :=
  [".mp4"; ".mov"; ".avi"; ".mkv"; ".jpg"; ".jpeg"; ".png"; ".bmp"; ".webp"].

Definition VIDEO_EXTENSIONS : list string := [".mp4"; ".mov"; ".avi"; ".mkv"].

Fixpoint map_result {X Y : Type} (f : X -> Result Y) (l : list X)
  : Result (list Y) :=
  match l with
  | [] => Ok []
  | x :: l' =>
      y <-? f x;;
      ys <-? map_result f l';;
      Ok (y :: ys)
  end.

(** [[p for p, d in players.items() if d["status"] == "winner"]] *)
Fixpoint winners_of (ps : Dict PlayerData) : Result (list Item) :=
  match ps with
  | [] => Ok []
  | (p, d) :: ps' =>
      s <-? field (status d);;
      ws <-? winners_of ps';;
      Ok (if Status_eqb s winner then p :: ws else ws)
  end.

(** [state["players"][p] = f(state["players"][p])], in place. *)
Definition update_player (f : PlayerData -> PlayerData) (p : Item)
  (state : StateDict) : Result StateDict :=
  ps <-? field (players state);;
  d <-? subscript ps p;;
  Ok (set_players (dict_set p (f d) ps) state).

(** [for p in l: state["players"][p]["status"] = "active"] *)
Fixpoint activate_all (l : list Item) (state : StateDict) : Result StateDict :=
  match l with
  | [] => Ok state
  | p :: l' =>
      state <-? update_player (set_status active) p state;;
      activate_all l' state
  end.

(** [has_played(p1, p2, state)] *)
Definition has_played (p1 p2 : Item) (state : StateDict) : Result bool :=
  h <-? field (match_history state);;
  Ok (pair_in (p1, p2) h || pair_in (p2, p1) h).

(** The inner loop of [create_swiss_pairings]:
    [for i in range(0, len(bracket), 2)]. *)
Fixpoint pair_bracket (state : StateDict) (bracket : list Item)
  (new_matchups : list (Item * Item)) (unpaired_players : list Item)
  : Result (list (Item * Item) * list Item) :=
  match bracket with
  | [] => Ok (new_matchups, unpaired_players)
  | [_] => Raise IndexError
  | p1 :: p2 :: rest =>
      played <-? has_played p1 p2 state;;
      if negb played
      then pair_bracket state rest (new_matchups ++ [(p1, p2)]) unpaired_players
      else pair_bracket state rest new_matchups (unpaired_players ++ [p1; p2])
  end.

(** [bracket.pop(-1)] moved to the fresh carry-forward list when the
    bracket is odd. *)
Definition pop_odd (bracket : list Item) : list Item * list Item :=
  if is_odd bracket then (removelast bracket, [last bracket ""])
  else (bracket, []).

(** ** The engine *)

Section Engine.

(** State of the [random] module and [random.shuffle] on it. *)
Variable rng : Type.
Variable shuffle : rng -> list Item -> list Item * rng.

(** [DataFrame.sort_values(by=key, ascending=False)]: pandas' default sort
    is not stable, so only "sorted" and "same rows" are known of it. *)
Variable sort_values : forall Row : Type, (Row -> Z) -> list Row -> list Row.

(** [str.lower] and [Path(p).name]. *)
Variable str_lower : string -> string.
Variable path_name : string -> string.

Definition random_shuffle (l : list Item) : M rng (list Item) :=
  fun g => Ok (shuffle g l).

Definition is_media_file (filename : string) : bool :=
  existsb (endswith (str_lower filename)) SUPPORTED_EXTENSIONS.

Definition is_video_file (filename : string) : bool :=
  existsb (endswith (str_lower filename)) VIDEO_EXTENSIONS.

(** The outer loop of [create_swiss_pairings]: [for score in sorted_scores]. *)
Fixpoint swiss_loop (state : StateDict) (groups : list (Z * list Item))
  (sorted_scores : list Z) (new_matchups : list (Item * Item))
  (unpaired_players : list Item) : M rng (list (Item * Item)) :=
  match sorted_scores with
  | [] => ret new_matchups
  | score :: rest =>
      bracket <- random_shuffle (group_get score groups);;
      let bracket := unpaired_players ++ bracket in
      let '(bracket, unpaired_players) := pop_odd bracket in
      '(new_matchups, unpaired_players) <-
        lift (pair_bracket state bracket new_matchups unpaired_players);;
      swiss_loop state groups rest new_matchups unpaired_players
  end.

Definition create_swiss_pairings (state : StateDict)
  : M rng (list (Item * Item)) :=
  ps <- lift (field (players state));;
  let groups := players_by_score ps in
  let sorted_scores := sorted_reverse (map fst groups) in
  swiss_loop state groups sorted_scores [] [].

(** The leaderboard of rating mode (line 146-147). *)
Definition elo_row (state : StateDict) (pd : Item * PlayerData)
  : Result EloRow :=
  names <-? field (original_filenames state);;
  e <-? field (elo (snd pd));;
  s <-? field (score (snd pd));;
  m <-? field (matches (snd pd));;
  Ok (mkEloRow (dict_get_default (fst pd) "N/A" names) e s m).

Definition elo_ranking (state : StateDict) : Result (list EloRow) :=
  ps <-? field (players state);;
  rows <-? map_result (elo_row state) ps;;
  match rows with
  | [] => Raise KeyError
  | _ => Ok (sort_values row_elo rows)
  end.

(** Lines 139-147: expose the match at the cursor, then the leaderboard. *)
Definition display_elo_tail (state : StateDict) (updates : View)
  : Result (StateObj * View) :=
  cr <-? field (current_round state);;
  tr <-? field (total_rounds state);;
  updates <-?
    (if cr <=? tr then
       ms <-? field (matchups_this_round state);;
       match ms with
       | [] => Ok updates
       | _ =>
           idx <-? field (current_match_index state);;
           '(p1, p2) <-? py_index ms idx;;
           let info := elo_info_text cr tr idx (len ms) in
           Ok (set_media p1 p2
                 (set_updates info true true true
                    (is_video_file p1 || is_video_file p2) updates))
       end
     else Ok updates);;
  ranking_df <-? elo_ranking state;;
  Ok (PyDict state,
      set_ranking (mkUpdate (Some (EloTable ranking_df)) None (Some true))
        updates).

(** Lines 126-147.  [self] is [display_match], for the call of line 132. *)
Definition display_match_elo (self : StateObj -> M rng (StateObj * View))
  (state : StateDict) (updates : View) : M rng (StateObj * View) :=
  cr <- lift (field (current_round state));;
  tr <- lift (field (total_rounds state));;
  if cr >? tr then
    lift (display_elo_tail state
            (set_updates msg_elo_finished false false false false updates))
  else
    idx <- lift (field (current_match_index state));;
    ms <- lift (field (matchups_this_round state));;
    if idx >=? len ms then
      let state := set_current_round (cr + 1) state in
      if cr + 1 >? tr then self (PyDict state)
      else
        ms' <- create_swiss_pairings state;;
        let state := set_matchups_this_round ms' state in
        let state := set_current_match_index 0 state in
        match ms' with
        | [] =>
            lift (display_elo_tail (set_current_round (tr + 1) state)
                    (set_updates msg_no_more_pairings false false false false
                       updates))
        | _ => lift (display_elo_tail state updates)
        end
    else lift (display_elo_tail state updates).

(** Lines 158-162: the final ranking of elimination mode. *)
Definition rank_row (names : Dict string) (pd : Item * PlayerData) : RankRow :=
  mkRankRow (dict_get_default (fst pd) "N/A" names)
    (match eliminated_in_round (snd pd) with
     | Some r => r
     | None => 0
     end).

(** Lines 159-162: sort by [rank_order], number the rows from 1, keep the
    columns rank and name. *)
Definition ranked (ranking_data : list RankRow) : list (Z * string) :=
  let ranking_df := sort_values rank_order ranking_data in
  combine (map Z.of_nat (seq 1 (List.length ranking_df)))
    (map rank_name ranking_df).

Definition final_ranking (state : StateDict) : Result (list (Z * string)) :=
  ps <-? field (players state);;
  ranking_data <-?
    map_result (fun pd =>
                  names <-? field (original_filenames state);;
                  Ok (rank_row names pd)) ps;;
  match ranking_data with
  | [] => Raise KeyError
  | _ => Ok (ranked ranking_data)
  end.

(** Lines 172-178. *)
Definition display_elimination_tail (state : StateDict) (updates : View)
  : Result (StateObj * View) :=
  idx <-? field (current_match_index state);;
  ms <-? field (matchups state);;
  if idx <? len ms then
    '(p1, p2) <-? py_index ms idx;;
    r <-? field (round state);;
    let info := elimination_info_text r idx (len ms) in
    Ok (PyDict state,
        set_media p1 p2
          (set_updates info true false true
             (is_video_file p1 || is_video_file p2) updates))
  else Ok (PyDict state, updates).

(** Lines 153-165: exactly one winner is left; crown it and rank everyone. *)
Definition crown_champion (state : StateDict) (updates : View)
  (winner_file : Item) : Result (StateObj * View) :=
  names <-? field (original_filenames state);;
  let winner_name := dict_get_default winner_file "N/A" names in
  r <-? field (round state);;
  state <-? update_player (set_eliminated_in_round (r + 1)) winner_file state;;
  ranking <-? final_ranking state;;
  let updates := set_updates msg_champion false false false false updates in
  let updates :=
    set_ranking (mkUpdate (Some (ElimTable ranking)) None (Some true))
      updates in
  let crown :=
    mkUpdate (Some winner_file) (Some (champion_label winner_name))
      (Some true) in
  Ok (PyDict state,
      if is_video_file winner_file then set_final_video crown updates
      else set_final_image crown updates).

(** Lines 167-178: open the next round on the winners of this one. *)
Definition advance_round (state : StateDict) (updates : View)
  (winners : list Item) : M rng (StateObj * View) :=
  r <- lift (field (round state));;
  let state := set_round (r + 1) state in
  let state := set_current_match_index 0 state in
  winners <- random_shuffle winners;;
  state <- lift (activate_all winners state);;
  let state := set_matchups (zip_pairs winners) state in
  state <-
    (if is_odd winners
     then lift (update_player (set_status winner) (last winners "") state)
     else ret state);;
  lift (display_elimination_tail state updates).

(** Lines 149-178. *)
Definition display_match_elimination (state : StateDict) (updates : View)
  : M rng (StateObj * View) :=
  idx <- lift (field (current_match_index state));;
  ms <- lift (field (matchups state));;
  if idx >=? len ms then
    ps <- lift (field (players state));;
    winners <- lift (winners_of ps);;
    match winners with
    | [winner_file] => lift (crown_champion state updates winner_file)
    | _ => advance_round state updates winners
    end
  else lift (display_elimination_tail state updates).

(** [display_match] with its one recursive call (line 132) left open. *)
Definition display_match_body (self : StateObj -> M rng (StateObj * View))
  (state : StateObj) : M rng (StateObj * View) :=
  match state with
  | PyDict state =>
      mode <- lift (field (mode state));;
      let updates := hidden_updates in
      if String.eqb mode mode_elo then display_match_elo self state updates
      else if String.eqb mode mode_elimination
           then display_match_elimination state updates
           else ret (PyDict state, updates)
  | _ =>
      ret (PyNone,
           mkView (gr_value msg_internal_error) gr_update gr_update gr_update
             gr_update gr_update gr_update gr_update gr_update gr_update)
  end.

(** The call of line 132 happens with [current_round > total_rounds], where
    the callee takes the first branch and calls nothing: nesting the body
    twice is the whole recursion (see [display_match_unfold]). *)
Definition display_match : StateObj -> M rng (StateObj * View) :=
  display_match_body
    (display_match_body (fun _ => lift (Raise RecursionError))).

(** The rating-mode branch of [vote] (lines 185-194). *)
Definition rate_player (p : Item) (new_elo gained : Z) (state : StateDict)
  : Result StateDict :=
  ps <-? field (players state);;
  d <-? subscript ps p;;
  s <-? field (score d);;
  m <-? field (matches d);;
  Ok (set_players (dict_set p (set_rating new_elo (s + gained) (m + 1) d) ps)
        state).

Definition vote_elo (outcome : Outcome) (state : StateDict)
  : Result StateDict :=
  ms <-? field (matchups_this_round state);;
  idx <-? field (current_match_index state);;
  '(p1, p2) <-? py_index ms idx;;
  h <-? field (match_history state);;
  let state := set_match_history (set_add (sorted_pair p1 p2) h) state in
  (* result, score1, score2; the scores in half points *)
  let '(result, score1, score2) :=
    match outcome with
    | A => (1%R, 2, 0)
    | B => (0%R, 0, 2)
    | TIE => ((1 / 2)%R, 1, 1)
    end in
  ps <-? field (players state);;
  d1 <-? subscript ps p1;;
  e1 <-? field (elo d1);;
  d2 <-? subscript ps p2;;
  e2 <-? field (elo d2);;
  '(elo1, elo2) <-? calculate_elo (IZR e1) (IZR e2) result;;
  state <-? rate_player p1 elo1 score1 state;;
  state <-? rate_player p2 elo2 score2 state;;
  idx <-? field (current_match_index state);;
  Ok (set_current_match_index (idx + 1) state).

(** The elimination branch of [vote] (lines 197-201), for [A] and [B]. *)
Definition vote_elimination (outcome : Outcome) (state : StateDict)
  : Result StateDict :=
  ms <-? field (matchups state);;
  idx <-? field (current_match_index state);;
  '(p1, p2) <-? py_index ms idx;;
  let '(winner_file, loser_file) :=
    match outcome with
    | A => (p1, p2)
    | _ => (p2, p1)
    end in
  state <-? update_player (set_status winner) winner_file state;;
  ps <-? field (players state);;
  _ <-? subscript ps loser_file;;
  r <-? field (round state);;
  state <-? update_player
              (fun d => set_eliminated_in_round r (set_status eliminated d))
              loser_file state;;
  idx <-? field (current_match_index state);;
  Ok (set_current_match_index (idx + 1) state).

Definition vote (outcome : Outcome) (state : StateObj)
  : M rng (StateObj * View) :=
  match state with
  | PyDict st =>
      mode <- lift (field (mode st));;
      st <-
        (if String.eqb mode mode_elo then lift (vote_elo outcome st)
         else if String.eqb mode mode_elimination
                 && negb (match outcome with TIE => true | _ => false end)
              then lift (vote_elimination outcome st)
              else ret st);;
      display_match (PyDict st)
  | _ => ret (state, no_updates)
  end.

Definition new_elo_player : PlayerData :=
  mkPlayer None None (Some 1500) (Some 0) (Some 0).

Definition new_active_player : PlayerData :=
  mkPlayer (Some active) None None None None.

Definition start_tournament (files_list : list string)
  (tournament_type : string) (total_rounds : Z) : M rng (StateObj * View) :=
  match files_list with
  | [] => ret (PyNone, no_updates)
  | _ =>
      let files := filter is_media_file files_list in
      if len files <? 2 then
        ret (PyNone,
             mkView (gr_value msg_not_enough_files) (gr_visible false)
               (gr_visible false) (gr_visible false) (gr_visible false)
               (gr_visible false) (gr_visible false) (gr_visible false)
               (gr_visible false) (gr_visible false))
      else
        let state :=
          mkState (Some tournament_type)
            (Some (dict_comprehension path_name files)) (Some []) (Some [])
            None None None None None None in
        if String.eqb tournament_type mode_elimination then
          files <- random_shuffle files;;
          let state :=
            set_round 1
              (set_current_match_index 0
                 (set_matchups (zip_pairs files)
                    (set_players
                       (dict_comprehension (fun _ => new_active_player) files)
                       state))) in
          state <-
            (if is_odd files
             then lift (update_player (set_status winner) (last files "")
                          state)
             else ret state);;
          display_match (PyDict state)
        else if String.eqb tournament_type mode_elo then
          let state :=
            set_current_match_index 0
              (set_matchups_this_round []
                 (set_match_history []
                    (set_current_round 1
                       (set_total_rounds total_rounds
                          (set_players
                             (dict_comprehension (fun _ => new_elo_player)
                                files)
                             state))))) in
          ms <- create_swiss_pairings state;;
          display_match (PyDict (set_matchups_this_round ms state))
        else display_match (PyDict state)
  end.

End Engine.

(** ** Concrete collaborators, for running the engine on examples *)

(** The shuffle that happens to draw the identity permutation. *)
Definition shuffle_id (g : unit) (l : list Item) : list Item * unit := (l, g).

Fixpoint insert_by_desc {Row : Type} (key : Row -> Z) (x : Row) (l : list Row)
  : list Row :=
  match l with
  | [] => [x]
  | y :: l' =>
      if key y <? key x then x :: l else y :: insert_by_desc key x l'
  end.

(** A stable descending sort. *)
Definition sort_insertion (Row : Type) (key : Row -> Z) (l : list Row)
  : list Row :=
  fold_right (insert_by_desc key) [] l.

(** [str.lower] and [Path.name] on names that are already lower-case and
    have no directory part. *)
Definition lower_plain (s : string) : string := s.
Definition name_plain (s : string) : string := s.

(** ** Vocabulary of the properties *)

(** The items that appear in a list of matches, in order. *)
Definition flatten_matches (ms : list (Item * Item)) : list Item :=
  flat_map (fun m => [fst m; snd m]) ms.

(** A pair that the match history does not hold in either order. *)
Definition fresh_pair (h : list (Item * Item)) (m : Item * Item) : Prop :=
  pair_in (fst m, snd m) h = false /\ pair_in (snd m, fst m) h = false.

(** Four players with no points yet; [a.mp4] and [b.mp4] have met. *)
Definition four_players_one_played : StateDict :=
  mkState (Some mode_elo) (Some []) 
    (Some [("a.mp4", new_elo_player); ("b.mp4", new_elo_player);
           ("c.mp4", new_elo_player); ("d.mp4", new_elo_player)])
    (Some []) (Some 0) None (Some 3) (Some 1)
    (Some [("a.mp4", "b.mp4")]) (Some []).


(** A rating-mode state at the end of round 1 of 3 whose only possible pair
    has already played. *)
Definition two_players_all_played : StateDict :=
  mkState (Some mode_elo)
    (Some [("a.mp4", "a.mp4"); ("b.mp4", "b.mp4")])
    (Some [("a.mp4", mkPlayer None None (Some 1516) (Some 2) (Some 1));
           ("b.mp4", mkPlayer None None (Some 1484) (Some 0) (Some 1))])
    (Some []) (Some 1) None (Some 3) (Some 1)
    (Some [("a.mp4", "b.mp4")]) (Some [("a.mp4", "b.mp4")]).

(** An elimination-mode state with one pending match. *)
Definition two_players_pending : StateDict :=
  mkState (Some mode_elimination)
    (Some [("a.mp4", "a.mp4"); ("b.mp4", "b.mp4")])
    (Some [("a.mp4", new_active_player); ("b.mp4", new_active_player)])
    (Some [("a.mp4", "b.mp4")]) (Some 0) (Some 1) None None None None.


(** A rating-mode state whose leaderboard can be built: names present, at
    least one player, every player with ["elo"], ["score"], ["matches"]. *)
Definition ranking_ready (state : StateDict) : Prop :=
  original_filenames state <> None
  /\ exists ps,
       players state = Some ps /\ ps <> []
       /\ forall pd, In pd ps ->
            elo (snd pd) <> None /\ score (snd pd) <> None
            /\ matches (snd pd) <> None.

(** ** Vocabulary of elimination mode *)

(** The status recorded for an item, if any. *)
Definition status_in (ps : Dict PlayerData) (p : Item) : option Status :=
  match dict_get p ps with
  | Some d => status d
  | None => None
  end.

Definition status_of (st : StateDict) (p : Item) : option Status :=
  match players st with
  | Some ps => status_in ps p
  | None => None
  end.

Definition has_won (ps : Dict PlayerData) (p : Item) : bool :=
  match status_in ps p with
  | Some winner => true
  | _ => false
  end.

(** The keys whose status is ["winner"], in dict order. *)
Definition winner_keys (ps : Dict PlayerData) : list Item :=
  filter (has_won ps) (dict_keys ps).

(** The number of winners the current round ends with: those already
    decided plus one for each match still to be voted. *)
Definition round_winners (st : StateDict) : Z :=
  match players st, matchups st, current_match_index st with
  | Some ps, Some ms, Some idx => len (winner_keys ps) + (len ms - idx)
  | _, _, _ => 0
  end.

(** The sort key of the final ranking: [d.get("eliminated_in_round", 0)]. *)
Definition rank_key (d : PlayerData) : Z :=
  match eliminated_in_round d with
  | Some r => r
  | None => 0
  end.

(** The shape of every state dict elimination mode builds. *)
Definition elimination_state (names : Dict string) (ps : Dict PlayerData)
  (ms : list (Item * Item)) (idx r : Z) : StateDict :=
  mkState (Some mode_elimination) (Some names) (Some ps) (Some ms)
    (Some idx) (Some r) None None None None.

(** Well-formedness of an elimination state: distinct keys, a status for
    every player, the cursor within the round, every item in at most one
    matchup, the players of the matches still to be voted active, and no
    elimination round beyond the current round, but for a crowned
    champion. *)
Record elim_ok (ps : Dict PlayerData) (ms : list (Item * Item)) (idx r : Z)
  : Prop := mk_elim_ok {
  ok_keys : NoDup (dict_keys ps);
  ok_status : forall p d, dict_get p ps = Some d -> status d <> None;
  ok_idx : 0 <= idx <= len ms;
  ok_matchups : NoDup (flatten_matches ms);
  ok_pending :
    forall p, In p (flatten_matches (skipn (Z.to_nat idx) ms)) ->
              status_in ps p = Some active;
  ok_round : 1 <= r;
  ok_elim :
    forall p d k, dict_get p ps = Some d -> eliminated_in_round d = Some k ->
                  k <= r \/ (status d = Some winner /\ k = r + 1)
}.

(** Between two calls of the shell: a match is pending, or the bracket is
    complete with its one winner. *)
Definition settled (ps : Dict PlayerData) (ms : list (Item * Item)) (idx : Z)
  : Prop :=
  idx < len ms \/ (idx = len ms /\ exists w, winner_keys ps = [w]).

Inductive elim_inv : StateDict -> Prop :=
| elim_inv_intro names ps ms idx r :
    elim_ok ps ms idx r -> settled ps ms idx ->
    elim_inv (elimination_state names ps ms idx r).

(** How the status of one player may differ between two states;
    [advanced] tells whether the round counter moved in between. *)
Definition status_step (advanced : bool) (s s' : option Status) : Prop :=
  s' = s
  \/ (s = Some active /\ (s' = Some winner \/ s' = Some eliminated))
  \/ (advanced = true /\ s = Some winner /\ s' = Some active).

Section Reachability.

Variable rng : Type.
Variable shuffle : rng -> list Item -> list Item * rng.
Variable sort_values : forall Row : Type, (Row -> Z) -> list Row -> list Row.
Variable str_lower : string -> string.
Variable path_name : string -> string.

(** One call of the shell on an elimination state. *)
Inductive elimination_step (st st' : StateDict) : Prop :=
| step_vote (o : Outcome) (g g' : rng) (view : View) :
    vote shuffle sort_values str_lower o (PyDict st) g
    = Ok ((PyDict st', view), g') ->
    elimination_step st st'
| step_display (g g' : rng) (view : View) :
    display_match shuffle sort_values str_lower (PyDict st) g
    = Ok ((PyDict st', view), g') ->
    elimination_step st st'.

(** The states of a bracket started on distinct files. *)
Inductive elimination_reachable : StateDict -> Prop :=
| reach_start (files_list : list string) (total_rounds : Z) (g g' : rng)
    (st : StateDict) (view : View) :
    NoDup files_list ->
    start_tournament shuffle sort_values str_lower path_name files_list
      mode_elimination total_rounds g
    = Ok ((PyDict st, view), g') ->
    elimination_reachable st
| reach_step (st st' : StateDict) :
    elimination_reachable st -> elimination_step st st' ->
    elimination_reachable st'.

End Reachability.

(** ** Example brackets, run with the identity shuffle *)

(** The state a call returned, if it returned one. *)
Definition returned_state {G : Type} (r : Result ((StateObj * View) * G))
  : option StateDict :=
  match r with
  | Ok ((PyDict st, _), _) => Some st
  | _ => None
  end.

Definition player (s : Status) (e : option Z) : PlayerData :=
  mkPlayer (Some s) e None None None.


Definition four_names : Dict string :=
  [("a.mp4", "a.mp4"); ("b.mp4", "b.mp4"); ("c.mp4", "c.mp4");
   ("d.mp4", "d.mp4")].




(** Two files: after [start_tournament], and after the vote for A that
    completes the bracket. *)
Definition bracket_of_two : StateDict :=
  elimination_state [("a.mp4", "a.mp4"); ("b.mp4", "b.mp4")]
    [("a.mp4", player active None); ("b.mp4", player active None)]
    [("a.mp4", "b.mp4")] 0 1.

Definition bracket_of_two_done : StateDict :=
  elimination_state [("a.mp4", "a.mp4"); ("b.mp4", "b.mp4")]
    [("a.mp4", player winner (Some 2)); ("b.mp4", player eliminated (Some 1))]
    [("a.mp4", "b.mp4")] 1 1.

(** Five files at the end of round 1, before the round advances: two match
    winners and the bye. *)
Definition five_players_round_over : Dict PlayerData :=
  [("a.mp4", player winner None); ("b.mp4", player eliminated (Some 1));
   ("c.mp4", player winner None); ("d.mp4", player eliminated (Some 1));
   ("e.mp4", player winner None)].

(** Three rated players before any match. *)
Definition three_players_unplayed : StateDict :=
  mkState (Some mode_elo)
    (Some [("a.mp4", "a.mp4"); ("b.mp4", "b.mp4"); ("c.mp4", "c.mp4")])
    (Some [("a.mp4", new_elo_player); ("b.mp4", new_elo_player);
           ("c.mp4", new_elo_player)])
    (Some []) (Some 0) None (Some 3) (Some 1) (Some []) (Some []).

(** ** Vocabulary of rating mode *)

(** The shape of every state dict rating mode builds: [start_tournament]
    leaves ["matchups"] empty and sets no ["round"]. *)
Definition rating_state (names : Dict string) (ps : Dict PlayerData)
  (h ms : list (Item * Item)) (idx cr tr : Z) : StateDict :=
  mkState (Some mode_elo) (Some names) (Some ps) (Some [])
    (Some idx) None (Some tr) (Some cr) (Some h) (Some ms).

(** Well-formedness of a rating state: distinct keys, at least one player,
    a rating, a score and a match count for every player, the cursor
    within the round, every item in at most one match of the round, every
    matched item a player, and no match at or after the cursor in the
    match history. *)
Record rating_ok (ps : Dict PlayerData) (h ms : list (Item * Item)) (idx : Z)
  : Prop := mk_rating_ok {
  rk_keys : NoDup (dict_keys ps);
  rk_some : ps <> [];
  rk_fields :
    forall p d, dict_get p ps = Some d ->
                elo d <> None /\ score d <> None /\ matches d <> None;
  rk_idx : 0 <= idx <= len ms;
  rk_matchups : NoDup (flatten_matches ms);
  rk_known : forall p, In p (flatten_matches ms) -> In p (dict_keys ps);
  rk_fresh : Forall (fresh_pair h) (skipn (Z.to_nat idx) ms)
}.

(** Lines 187-189: the result handed to [calculate_elo] for an outcome,
    and the half points the two sides gain. *)
Definition outcome_result (o : Outcome) : R :=
  match o with
  | A => 1%R
  | B => 0%R
  | TIE => (1 / 2)%R
  end.

Definition outcome_points (o : Outcome) : Z * Z :=
  match o with
  | A => (2, 0)
  | B => (0, 2)
  | TIE => (1, 1)
  end.

(** Two rated players about to meet in round 1 of 3. *)
Definition rating_of_two_pending : StateDict :=
  rating_state [("a.mp4", "a.mp4"); ("b.mp4", "b.mp4")]
    [("a.mp4", new_elo_player); ("b.mp4", new_elo_player)]
    [] [("a.mp4", "b.mp4")] 0 1 3.

(** Between two calls of the shell in rating mode: the state is
    well-formed, and the tournament is over or a match is at the cursor. *)
Inductive rating_inv : StateDict -> Prop :=
| rating_inv_intro names ps h ms idx cr tr :
    rating_ok ps h ms idx -> tr < cr \/ idx < len ms ->
    rating_inv (rating_state names ps h ms idx cr tr).

Section RatingReachability.

Variable rng : Type.
Variable shuffle : rng -> list Item -> list Item * rng.
Variable sort_values : forall Row : Type, (Row -> Z) -> list Row -> list Row.
Variable str_lower : string -> string.
Variable path_name : string -> string.

(** One call of the shell on a rating state. *)
Inductive rating_step (st st' : StateDict) : Prop :=
| rating_step_vote (o : Outcome) (g g' : rng) (view : View) :
    vote shuffle sort_values str_lower o (PyDict st) g
    = Ok ((PyDict st', view), g') ->
    rating_step st st'
| rating_step_display (g g' : rng) (view : View) :
    display_match shuffle sort_values str_lower (PyDict st) g
    = Ok ((PyDict st', view), g') ->
    rating_step st st'.

(** The states of a rating tournament started on distinct files. *)
Inductive rating_reachable : StateDict -> Prop :=
| rating_reach_start (files_list : list string) (total_rounds : Z)
    (g g' : rng) (st : StateDict) (view : View) :
    NoDup files_list ->
    start_tournament shuffle sort_values str_lower path_name files_list
      mode_elo total_rounds g
    = Ok ((PyDict st, view), g') ->
    rating_reachable st
| rating_reach_step (st st' : StateDict) :
    rating_reachable st -> rating_step st st' -> rating_reachable st'.

End RatingReachability.

(** * Properties *)

Unset Implicit Arguments.

(** ** RatingCalculator *)

Section RatingFacts.

Local Open Scope R_scope.






















End RatingFacts.

(** ** Lists, two elements at a time *)

Lemma list_pairs_ind (V : Type) (P : list V -> Prop) :
  P [] ->
  (forall x, P [x]) ->
  (forall x y l, P l -> P (x :: y :: l)) ->
  forall l, P l.
Proof.
  intros H0 H1 H2.
  assert (H : forall l, P l /\ forall x, P (x :: l)).
  { induction l as [| y l [IHa IHb]].
    - split; [exact H0 | exact H1].
    - split; [apply IHb |]. intros x. apply H2. exact IHa. }
  intros l. apply H.
Qed.

Lemma pop_odd_spec (l : list Item) :
  fst (pop_odd l) ++ snd (pop_odd l) = l
  /\ Nat.even (List.length (fst (pop_odd l))) = true.
Proof.
  unfold pop_odd, is_odd.
  destruct (Nat.odd (List.length l)) eqn:Hodd; cbn [fst snd].
  - assert (Hne : l <> []) by (intros ->; discriminate).
    pose proof (app_removelast_last "" Hne) as Hl.
    split; [symmetry; exact Hl |].
    assert (Hlen : List.length l = S (List.length (removelast l))).
    { pose proof (f_equal (@List.length Item) Hl) as Hlen.
      rewrite length_app in Hlen. cbn [List.length] in Hlen. lia. }
    rewrite Hlen in Hodd. rewrite Nat.odd_succ in Hodd. exact Hodd.
  - split; [apply app_nil_r |].
    rewrite <- Nat.negb_odd, Hodd. reflexivity.
Qed.

(** ** PairingEngine *)

Lemma pair_eqb_eq (x y : Item * Item) : pair_eqb x y = true <-> x = y.
Proof.
  destruct x as [a b], y as [c d]. unfold pair_eqb. cbn [fst snd].
  rewrite andb_true_iff, !String.eqb_eq.
  split; [intros [-> ->]; reflexivity | intros [= -> ->]; split; reflexivity].
Qed.

Lemma pair_in_In (x : Item * Item) (h : list (Item * Item)) :
  pair_in x h = true <-> In x h.
Proof.
  unfold pair_in. rewrite existsb_exists. split.
  - intros [y [Hy E]]. apply pair_eqb_eq in E. subst. exact Hy.
  - intros H. exists x. split; [exact H | apply pair_eqb_eq; reflexivity].
Qed.

Lemma fresh_pair_not_In (h : list (Item * Item)) (p1 p2 : Item) :
  fresh_pair h (p1, p2) <-> ~ In (p1, p2) h /\ ~ In (p2, p1) h.
Proof.
  unfold fresh_pair. cbn [fst snd].
  rewrite <- !pair_in_In, !not_true_iff_false. reflexivity.
Qed.

Section PairBracket.

Variable state : StateDict.
Variable h : list (Item * Item).
Hypothesis Hhistory : match_history state = Some h.

Lemma has_played_eq (p1 p2 : Item) :
  has_played p1 p2 state = Ok (pair_in (p1, p2) h || pair_in (p2, p1) h).
Proof. unfold has_played. rewrite Hhistory. reflexivity. Qed.

Lemma pair_bracket_step (p1 p2 : Item) (rest : list Item)
  (nm : list (Item * Item)) (up : list Item) :
  pair_bracket state (p1 :: p2 :: rest) nm up
  = if pair_in (p1, p2) h || pair_in (p2, p1) h
    then pair_bracket state rest nm (up ++ [p1; p2])
    else pair_bracket state rest (nm ++ [(p1, p2)]) up.
Proof.
  cbn [pair_bracket]. rewrite has_played_eq. cbn [rbind].
  destruct (pair_in (p1, p2) h || pair_in (p2, p1) h); reflexivity.
Qed.

Lemma pair_bracket_total (bracket : list Item) :
  Nat.even (List.length bracket) = true ->
  forall nm up, exists r, pair_bracket state bracket nm up = Ok r.
Proof.
  induction bracket as [| x | p1 p2 rest IH] using list_pairs_ind;
    intros Heven nm up.
  - eexists. reflexivity.
  - discriminate.
  - rewrite pair_bracket_step.
    destruct (pair_in (p1, p2) h || pair_in (p2, p1) h); apply IH; exact Heven.
Qed.

Lemma pair_bracket_fresh (bracket : list Item) :
  forall nm up nm' up',
    pair_bracket state bracket nm up = Ok (nm', up') ->
    Forall (fresh_pair h) nm -> Forall (fresh_pair h) nm'.
Proof.
  induction bracket as [| x | p1 p2 rest IH] using list_pairs_ind;
    intros nm up nm' up' Hrun Hnm.
  - injection Hrun as <- <-. exact Hnm.
  - discriminate.
  - rewrite pair_bracket_step in Hrun.
    destruct (pair_in (p1, p2) h || pair_in (p2, p1) h) eqn:Hplayed.
    + eapply IH; eauto.
    + eapply IH; [exact Hrun |].
      apply Forall_app. split; [exact Hnm |].
      constructor; [| constructor].
      apply orb_false_iff in Hplayed. exact Hplayed.
Qed.

Lemma pair_bracket_keeps_carry (bracket : list Item) :
  forall nm up nm' up' x,
    pair_bracket state bracket nm up = Ok (nm', up') ->
    In x up -> In x up'.
Proof.
  induction bracket as [| y | p1 p2 rest IH] using list_pairs_ind;
    intros nm up nm' up' x Hrun Hx.
  - injection Hrun as <- <-. exact Hx.
  - discriminate.
  - rewrite pair_bracket_step in Hrun.
    destruct (pair_in (p1, p2) h || pair_in (p2, p1) h).
    + eapply IH; [exact Hrun |]. apply in_or_app. left. exact Hx.
    + eapply IH; eauto.
Qed.

Lemma pair_bracket_defers (bracket : list Item) :
  forall nm up nm' up' k p1 p2,
    pair_bracket state bracket nm up = Ok (nm', up') ->
    nth_error bracket (2 * k) = Some p1 ->
    nth_error bracket (2 * k + 1) = Some p2 ->
    In (p1, p2) h \/ In (p2, p1) h ->
    In p1 up' /\ In p2 up'.
Proof.
  induction bracket as [| y | q1 q2 rest IH] using list_pairs_ind;
    intros nm up nm' up' k p1 p2 Hrun H1 H2 Hplayed.
  - destruct k; discriminate.
  - discriminate.
  - rewrite pair_bracket_step in Hrun.
    destruct k as [| k].
    + cbn in H1, H2. injection H1 as ->. injection H2 as ->.
      assert (E : pair_in (p1, p2) h || pair_in (p2, p1) h = true).
      { apply orb_true_iff. rewrite !pair_in_In. exact Hplayed. }
      rewrite E in Hrun.
      split; eapply pair_bracket_keeps_carry; try exact Hrun;
        apply in_or_app; right; cbn; auto.
    + replace (2 * S k)%nat with (S (S (2 * k))) in H1 by lia.
      replace (2 * S k + 1)%nat with (S (S (2 * k + 1))) in H2 by lia.
      cbn [nth_error] in H1, H2.
      destruct (pair_in (q1, q2) h || pair_in (q2, q1) h);
        eapply IH; eauto.
Qed.

Lemma pair_bracket_perm (bracket : list Item) :
  forall nm up nm' up',
    pair_bracket state bracket nm up = Ok (nm', up') ->
    Permutation (flatten_matches nm' ++ up')
      (flatten_matches nm ++ up ++ bracket).
Proof.
  induction bracket as [| y | p1 p2 rest IH] using list_pairs_ind;
    intros nm up nm' up' Hrun.
  - injection Hrun as <- <-. rewrite app_nil_r. reflexivity.
  - discriminate.
  - rewrite pair_bracket_step in Hrun.
    destruct (pair_in (p1, p2) h || pair_in (p2, p1) h).
    + rewrite (IH _ _ _ _ Hrun). rewrite <- !app_assoc. reflexivity.
    + rewrite (IH _ _ _ _ Hrun).
      unfold flatten_matches. rewrite flat_map_app. cbn [flat_map fst snd].
      rewrite <- !app_assoc. cbn [app].
      apply Permutation_app_head.
      change (p1 :: p2 :: up ++ rest) with ([p1; p2] ++ up ++ rest).
      change (up ++ p1 :: p2 :: rest) with (up ++ [p1; p2] ++ rest).
      rewrite !app_assoc. apply Permutation_app_tail.
      apply Permutation_app_comm.
Qed.

End PairBracket.

(** ** Score groups *)

Lemma group_add_keys (s : Z) (p : Item) (g : list (Z * list Item)) (k : Z) :
  In k (map fst (group_add s p g)) <-> k = s \/ In k (map fst g).
Proof.
  induction g as [| [s' l] g IH]; cbn [group_add map fst In].
  - intuition congruence.
  - destruct (Z.eqb_spec s s') as [-> | Hne]; cbn [map fst In].
    + intuition congruence.
    + rewrite IH. intuition congruence.
Qed.

Lemma group_add_NoDup (s : Z) (p : Item) (g : list (Z * list Item)) :
  NoDup (map fst g) -> NoDup (map fst (group_add s p g)).
Proof.
  induction g as [| [s' l] g IH]; cbn [group_add map fst]; intros Hnd.
  - constructor; [intros [] | constructor].
  - inversion Hnd as [| x xs Hnotin Hnd']; subst.
    destruct (Z.eqb_spec s s') as [-> | Hne]; cbn [map fst].
    + constructor; assumption.
    + constructor; [| apply IH; exact Hnd'].
      rewrite group_add_keys. intros [E | Hin]; [congruence | contradiction].
Qed.

Lemma group_add_perm (s : Z) (p : Item) (g : list (Z * list Item)) :
  Permutation (flat_map snd (group_add s p g)) (flat_map snd g ++ [p]).
Proof.
  induction g as [| [s' l] g IH]; cbn [group_add flat_map snd].
  - reflexivity.
  - destruct (Z.eqb_spec s s') as [-> | Hne]; cbn [flat_map snd].
    + rewrite <- !app_assoc. apply Permutation_app_head.
      apply Permutation_app_comm.
    + rewrite IH. rewrite app_assoc. reflexivity.
Qed.

Lemma players_by_score_fold (ps : Dict PlayerData) :
  forall g,
    NoDup (map fst g) ->
    let g' := fold_left
                (fun g pd => group_add (score_or_0 (snd pd)) (fst pd) g) ps g in
    NoDup (map fst g')
    /\ Permutation (flat_map snd g') (flat_map snd g ++ dict_keys ps).
Proof.
  induction ps as [| [p d] ps IH]; intros g Hnd; cbn [fold_left].
  - split; [exact Hnd |]. cbn. rewrite app_nil_r. reflexivity.
  - cbn [fst snd].
    destruct (IH (group_add (score_or_0 d) p g)
                (group_add_NoDup (score_or_0 d) p g Hnd)) as [Hnd' Hperm].
    split; [exact Hnd' |].
    cbv zeta in Hperm. rewrite Hperm, group_add_perm.
    unfold dict_keys. cbn [map fst].
    rewrite <- app_assoc. reflexivity.
Qed.

Lemma flat_map_agree (X Y : Type) (f f' : X -> list Y) (l : list X) :
  (forall x, In x l -> f x = f' x) -> flat_map f l = flat_map f' l.
Proof.
  induction l as [| x l IH]; intros H; cbn [flat_map]; [reflexivity |].
  rewrite (H x (or_introl eq_refl)), IH; [reflexivity |].
  intros y Hy. apply H. right. exact Hy.
Qed.

Lemma group_get_own_keys (g : list (Z * list Item)) :
  NoDup (map fst g) ->
  flat_map (fun s => group_get s g) (map fst g) = flat_map snd g.
Proof.
  induction g as [| [s l] g IH]; cbn [map fst flat_map snd]; intros Hnd.
  - reflexivity.
  - inversion Hnd as [| x xs Hnotin Hnd']; subst.
    cbn [group_get]. rewrite Z.eqb_refl. f_equal.
    rewrite <- (IH Hnd').
    apply flat_map_agree. intros k Hk. cbn [group_get].
    destruct (Z.eqb_spec k s) as [-> | _]; [contradiction | reflexivity].
Qed.

Lemma insert_desc_perm (x : Z) (l : list Z) :
  Permutation (insert_desc x l) (x :: l).
Proof.
  induction l as [| y l IH]; cbn [insert_desc].
  - reflexivity.
  - destruct (y <=? x); [reflexivity |].
    rewrite IH. apply perm_swap.
Qed.

Lemma sorted_reverse_perm (l : list Z) : Permutation (sorted_reverse l) l.
Proof.
  induction l as [| x l IH]; cbn [sorted_reverse fold_right].
  - reflexivity.
  - rewrite insert_desc_perm. constructor. exact IH.
Qed.

Lemma swiss_brackets_perm (ps : Dict PlayerData) :
  Permutation
    (flat_map (fun s => group_get s (players_by_score ps))
       (sorted_reverse (map fst (players_by_score ps))))
    (dict_keys ps).
Proof.
  destruct (players_by_score_fold ps [] (NoDup_nil Z)) as [Hnd Hperm].
  cbv zeta in Hnd, Hperm. fold (players_by_score ps) in Hnd, Hperm.
  rewrite (Permutation_flat_map _ (sorted_reverse_perm _)).
  rewrite (group_get_own_keys _ Hnd). exact Hperm.
Qed.

Lemma flatten_matches_In (ms : list (Item * Item)) (p1 p2 : Item) :
  In (p1, p2) ms -> In p1 (flatten_matches ms) /\ In p2 (flatten_matches ms).
Proof.
  unfold flatten_matches. intros H. split; apply in_flat_map;
    exists (p1, p2); (split; [exact H | cbn; auto]).
Qed.

Lemma flatten_matches_no_self (ms : list (Item * Item)) (p1 p2 : Item) :
  NoDup (flatten_matches ms) -> In (p1, p2) ms -> p1 <> p2.
Proof.
  induction ms as [| [a b] ms IH]; intros Hnd Hin; [destruct Hin |].
  cbn in Hnd. inversion Hnd as [| x xs Ha Hnd']; subst.
  inversion Hnd' as [| x xs Hb Hnd'']; subst.
  destruct Hin as [[= -> ->] | Hin].
  - intros ->. apply Ha. left. reflexivity.
  - apply IH; assumption.
Qed.

Section PairingFacts.

Variable rng : Type.
Variable shuffle : rng -> list Item -> list Item * rng.

Lemma swiss_loop_step (state : StateDict) (groups : list (Z * list Item))
  (score : Z) (rest : list Z) (nm : list (Item * Item)) (up : list Item)
  (g : rng) :
  swiss_loop shuffle state groups (score :: rest) nm up g
  = let shuffled := shuffle g (group_get score groups) in
    let bracket := pop_odd (up ++ fst shuffled) in
    match pair_bracket state (fst bracket) nm (snd bracket) with
    | Ok (nm', up') => swiss_loop shuffle state groups rest nm' up' (snd shuffled)
    | Raise e => Raise e
    end.
Proof.
  cbn [swiss_loop]. unfold bind, random_shuffle, lift.
  destruct (shuffle g (group_get score groups)) as [shuffled g1].
  cbn [fst snd].
  destruct (pop_odd (up ++ shuffled)) as [bracket carry]. cbn [fst snd].
  destruct (pair_bracket state bracket nm carry) as [[nm' up'] | e];
    reflexivity.
Qed.

Lemma swiss_loop_total (state : StateDict) (h : list (Item * Item))
  (groups : list (Z * list Item)) (scores : list Z) :
  match_history state = Some h ->
  forall nm up g, exists r, swiss_loop shuffle state groups scores nm up g = Ok r.
Proof.
  intros Hh. induction scores as [| score rest IH]; intros nm up g.
  - eexists. reflexivity.
  - rewrite swiss_loop_step. cbv zeta.
    destruct (pop_odd_spec (up ++ fst (shuffle g (group_get score groups))))
      as [_ Heven].
    destruct (pair_bracket_total state h Hh _ Heven nm
                (snd (pop_odd (up ++ fst (shuffle g (group_get score groups))))))
      as [[nm' up'] E].
    rewrite E. apply IH.
Qed.

Lemma swiss_loop_fresh (state : StateDict) (h : list (Item * Item))
  (groups : list (Z * list Item)) (scores : list Z) :
  match_history state = Some h ->
  forall nm up g ms g',
    swiss_loop shuffle state groups scores nm up g = Ok (ms, g') ->
    Forall (fresh_pair h) nm -> Forall (fresh_pair h) ms.
Proof.
  intros Hh. induction scores as [| score rest IH]; intros nm up g ms g' Hrun Hnm.
  - injection Hrun as <- <-. exact Hnm.
  - rewrite swiss_loop_step in Hrun. cbv zeta in Hrun.
    destruct (pair_bracket state _ nm _) as [[nm' up'] | e] eqn:E;
      [| discriminate].
    eapply IH; [exact Hrun |].
    eapply pair_bracket_fresh; eauto.
Qed.

Section Disjoint.

Hypothesis shuffle_perm : forall g l, Permutation (fst (shuffle g l)) l.

Lemma swiss_loop_nodup (state : StateDict) (groups : list (Z * list Item))
  (scores : list Z) :
  forall nm up g ms g',
    swiss_loop shuffle state groups scores nm up g = Ok (ms, g') ->
    NoDup (flatten_matches nm ++ up
           ++ flat_map (fun s => group_get s groups) scores) ->
    NoDup (flatten_matches ms).
Proof.
  induction scores as [| score rest IH]; intros nm up g ms g' Hrun Hnd.
  - injection Hrun as <- <-. cbn [flat_map] in Hnd.
    eapply NoDup_app_remove_r. exact Hnd.
  - rewrite swiss_loop_step in Hrun. cbv zeta in Hrun.
    destruct (pop_odd_spec (up ++ fst (shuffle g (group_get score groups))))
      as [Hsplit _].
    destruct (pair_bracket state _ nm _) as [[nm' up'] | e] eqn:E;
      [| discriminate].
    eapply IH; [exact Hrun |].
    destruct (match_history state) as [h |] eqn:Hh.
    + pose proof (pair_bracket_perm state h Hh _ _ _ _ _ E) as Hp.
      eapply Permutation_NoDup; [| exact Hnd]. symmetry.
      rewrite (app_assoc (flatten_matches nm') up' _), Hp.
      rewrite (Permutation_app_comm (snd (pop_odd _)) (fst (pop_odd _))).
      rewrite Hsplit. cbn [flat_map].
      rewrite <- !app_assoc.
      do 2 apply Permutation_app_head.
      apply Permutation_app_tail. apply shuffle_perm.
    + (* without a history only the empty bracket gets through *)
      destruct (fst (pop_odd (up ++ fst (shuffle g (group_get score groups)))))
        as [| p1 [| p2 r]] eqn:Hb;
        [| discriminate
         | cbn [pair_bracket] in E; unfold has_played in E; rewrite Hh in E;
           discriminate].
      injection E as <- <-.
      eapply Permutation_NoDup; [| exact Hnd]. symmetry.
      cbn [flat_map]. apply Permutation_app_head.
      cbn [app] in Hsplit. rewrite Hsplit.
      rewrite <- app_assoc. apply Permutation_app_head.
      apply Permutation_app_tail. apply shuffle_perm.
Qed.

End Disjoint.

Lemma create_swiss_pairings_eq (state : StateDict) (ps : Dict PlayerData)
  (g : rng) :
  players state = Some ps ->
  create_swiss_pairings shuffle state g
  = swiss_loop shuffle state (players_by_score ps)
      (sorted_reverse (map fst (players_by_score ps))) [] [] g.
Proof.
  intros Hps. unfold create_swiss_pairings, bind, lift.
  rewrite Hps. reflexivity.
Qed.

(** C1: the matches [create_swiss_pairings] returns hold no pair of the
    match history, in either order; the call returns whenever the state
    has its players; inside a bracket a pair that has played puts both
    its items on the carry-forward list, which the next bracket of the
    loop receives and prepends. *)
Theorem no_rematch (state : StateDict) (h : list (Item * Item)) :
  match_history state = Some h ->
  (forall g ms g',
      create_swiss_pairings shuffle state g = Ok (ms, g') ->
      forall p1 p2,
        In (p1, p2) h -> ~ In (p1, p2) ms /\ ~ In (p2, p1) ms)
  /\ (forall ps g,
        players state = Some ps ->
        exists ms g', create_swiss_pairings shuffle state g = Ok (ms, g'))
  /\ (forall bracket nm up nm' up' k p1 p2,
        pair_bracket state bracket nm up = Ok (nm', up') ->
        nth_error bracket (2 * k) = Some p1 ->
        nth_error bracket (2 * k + 1) = Some p2 ->
        In (p1, p2) h \/ In (p2, p1) h ->
        In p1 up' /\ In p2 up')
  /\ (forall groups score rest nm up g,
        swiss_loop shuffle state groups (score :: rest) nm up g
        = let shuffled := shuffle g (group_get score groups) in
          let bracket := pop_odd (up ++ fst shuffled) in
          match pair_bracket state (fst bracket) nm (snd bracket) with
          | Ok (nm', up') =>
              swiss_loop shuffle state groups rest nm' up' (snd shuffled)
          | Raise e => Raise e
          end).
Proof.
  intros Hh. split; [| split; [| split]].
  - intros g ms g' Hrun p1 p2 Hin.
    assert (Hfresh : Forall (fresh_pair h) ms).
    { unfold create_swiss_pairings, bind, lift in Hrun.
      destruct (players state) as [ps |]; [| discriminate].
      cbn in Hrun.
      eapply swiss_loop_fresh; [exact Hh | exact Hrun | constructor]. }
    rewrite Forall_forall in Hfresh.
    split; intros Hms; apply Hfresh in Hms;
      apply fresh_pair_not_In in Hms; tauto.
  - intros ps g Hps. rewrite (create_swiss_pairings_eq state ps g Hps).
    destruct (swiss_loop_total state h (players_by_score ps)
                (sorted_reverse (map fst (players_by_score ps))) Hh [] [] g)
      as [[ms g'] E].
    exists ms, g'. exact E.
  - intros bracket nm up nm' up' k p1 p2.
    apply (pair_bracket_defers state h Hh).
  - intros. apply swiss_loop_step.
Qed.

(** C10: with distinct player keys and a shuffle that permutes, the matches
    [create_swiss_pairings] returns mention every item at most once; in
    particular no match pairs an item with itself. *)
Theorem pairings_disjoint (state : StateDict) (ps : Dict PlayerData) :
  (forall g l, Permutation (fst (shuffle g l)) l) ->
  players state = Some ps ->
  NoDup (dict_keys ps) ->
  forall g ms g',
    create_swiss_pairings shuffle state g = Ok (ms, g') ->
    NoDup (flatten_matches ms)
    /\ (forall p1 p2, In (p1, p2) ms -> p1 <> p2).
Proof.
  intros Hshuffle Hps Hkeys g ms g' Hrun.
  rewrite (create_swiss_pairings_eq state ps g Hps) in Hrun.
  assert (Hnd : NoDup (flatten_matches ms)).
  { eapply swiss_loop_nodup; [exact Hshuffle | exact Hrun |].
    cbn [flatten_matches flat_map app].
    eapply Permutation_NoDup; [| exact Hkeys].
    symmetry. apply swiss_brackets_perm. }
  split; [exact Hnd |].
  intros p1 p2. apply flatten_matches_no_self. exact Hnd.
Qed.

End PairingFacts.

Lemma shuffle_id_perm (g : unit) (l : list Item) :
  Permutation (fst (shuffle_id g l)) l.
Proof. reflexivity. Qed.

Lemma four_players_pairings :
  create_swiss_pairings shuffle_id four_players_one_played tt
  = Ok ([("c.mp4", "d.mp4")], tt).
Proof. vm_compute. reflexivity. Qed.

Lemma no_rematch_witness :
  match_history four_players_one_played = Some [("a.mp4", "b.mp4")]
  /\ create_swiss_pairings shuffle_id four_players_one_played tt
     = Ok ([("c.mp4", "d.mp4")], tt)
  /\ ~ In ("a.mp4", "b.mp4") [("c.mp4", "d.mp4")]
  /\ ~ In ("b.mp4", "a.mp4") [("c.mp4", "d.mp4")].
Proof.
  split; [reflexivity |]. split; [exact four_players_pairings |].
  destruct (no_rematch unit shuffle_id four_players_one_played
              [("a.mp4", "b.mp4")] eq_refl) as [H _].
  apply (H tt _ tt four_players_pairings "a.mp4" "b.mp4").
  left. reflexivity.
Defined.

Lemma pairings_disjoint_witness :
  NoDup (flatten_matches [("c.mp4", "d.mp4")])
  /\ (forall p1 p2, In (p1, p2) [("c.mp4", "d.mp4")] -> p1 <> p2).
Proof.
  refine (pairings_disjoint unit shuffle_id four_players_one_played _
            shuffle_id_perm eq_refl _ tt _ tt four_players_pairings).
  unfold dict_keys. cbn [map fst].
  repeat constructor; cbn [In]; intuition discriminate.
Defined.

(** ** TournamentStateMachine: running [display_match] and [vote] *)

Lemma mode_elimination_is_not_elo :
  String.eqb mode_elimination mode_elo = false.
Proof. reflexivity. Qed.

Lemma py_index_ok (V : Type) (l : list V) (i : Z) :
  0 <= i < len l ->
  exists v, nth_error l (Z.to_nat i) = Some v /\ py_index l i = Ok v.
Proof.
  unfold len, py_index. intros [Hlo Hhi].
  destruct (Z.ltb_spec i 0) as [Hneg | _]; [lia |].
  destruct (Z.leb_spec 0 i) as [_ | Hneg]; [| lia].
  destruct (Z.ltb_spec i (Z.of_nat (List.length l))) as [_ | Hbig]; [| lia].
  cbn [andb].
  destruct (nth_error l (Z.to_nat i)) as [v |] eqn:E.
  - exists v. split; reflexivity.
  - apply nth_error_None in E. lia.
Qed.

Lemma py_index_out_of_range (V : Type) (l : list V) (i : Z) :
  len l <= i -> py_index l i = Raise IndexError.
Proof.
  unfold len, py_index. intros Hi.
  destruct (Z.ltb_spec i 0) as [Hneg | _]; [lia |].
  destruct (Z.ltb_spec i (Z.of_nat (List.length l))) as [Hlt | _]; [lia |].
  rewrite andb_false_r. reflexivity.
Qed.

Section MachineFacts.

Variable rng : Type.
Variable shuffle : rng -> list Item -> list Item * rng.
Variable sort_values : forall Row : Type, (Row -> Z) -> list Row -> list Row.
Variable str_lower : string -> string.
Variable path_name : string -> string.

Lemma display_match_of_elimination (st : StateDict) (g : rng) :
  mode st = Some mode_elimination ->
  display_match shuffle sort_values str_lower (PyDict st) g
  = display_match_elimination shuffle sort_values str_lower st
      hidden_updates g.
Proof.
  intros Hmode. unfold display_match, display_match_body, bind, lift.
  rewrite Hmode. cbn [field]. rewrite mode_elimination_is_not_elo.
  rewrite String.eqb_refl. reflexivity.
Qed.

Lemma display_match_of_elo (st : StateDict) (g : rng) :
  mode st = Some mode_elo ->
  display_match shuffle sort_values str_lower (PyDict st) g
  = display_match_elo shuffle sort_values str_lower
      (display_match_body shuffle sort_values str_lower
         (fun _ => lift (Raise RecursionError)))
      st hidden_updates g.
Proof.
  intros Hmode. unfold display_match. unfold display_match_body at 1.
  unfold bind, lift. rewrite Hmode. cbn [field].
  rewrite String.eqb_refl. reflexivity.
Qed.

(** A pending match is shown and the state is left as it is. *)
Lemma display_elimination_pending (st : StateDict) (ms : list (Item * Item))
  (idx r : Z) (u : View) (g : rng) :
  matchups st = Some ms ->
  current_match_index st = Some idx ->
  round st = Some r ->
  0 <= idx < len ms ->
  exists view,
    display_match_elimination shuffle sort_values str_lower st u g
    = Ok ((PyDict st, view), g).
Proof.
  intros Hms Hidx Hr Hrange.
  destruct (py_index_ok _ ms idx Hrange) as [[p1 p2] [_ Hnth]].
  unfold display_match_elimination, bind, lift.
  rewrite Hidx, Hms. cbn [field].
  destruct (Z.geb_spec idx (len ms)) as [Hge | _]; [lia |].
  unfold display_elimination_tail. rewrite Hidx, Hms. cbn [field rbind].
  destruct (Z.ltb_spec idx (len ms)) as [_ | Hge]; [| lia].
  rewrite Hnth, Hr. cbn [rbind field]. eexists. reflexivity.
Qed.

(** C4: in an elimination-mode state with a pending match, a [TIE] vote
    returns normally with the very same state, so no status,
    [eliminated_in_round], matchup, cursor or round counter changes, and
    no randomness is consumed. *)
Theorem tie_is_noop_in_elimination (st : StateDict)
  (ms : list (Item * Item)) (idx r : Z) (g : rng) :
  mode st = Some mode_elimination ->
  matchups st = Some ms ->
  current_match_index st = Some idx ->
  round st = Some r ->
  0 <= idx < len ms ->
  exists view,
    vote shuffle sort_values str_lower TIE (PyDict st) g
    = Ok ((PyDict st, view), g).
Proof.
  intros Hmode Hms Hidx Hr Hrange.
  unfold vote, bind, lift, ret. rewrite Hmode. cbn [field].
  rewrite mode_elimination_is_not_elo, String.eqb_refl. cbn [andb negb].
  rewrite (display_match_of_elimination st g Hmode).
  apply (display_elimination_pending st ms idx r); assumption.
Qed.


End MachineFacts.



Lemma tie_is_noop_in_elimination_witness :
  exists view,
    vote shuffle_id sort_insertion lower_plain TIE
      (PyDict two_players_pending) tt
    = Ok ((PyDict two_players_pending, view), tt).
Proof.
  apply (tie_is_noop_in_elimination unit shuffle_id sort_insertion lower_plain
           two_players_pending [("a.mp4", "b.mp4")] 0 1 tt);
    try reflexivity.
  unfold len. cbn. lia.
Defined.

Section RatingMode.

Variable rng : Type.
Variable shuffle : rng -> list Item -> list Item * rng.
Variable sort_values : forall Row : Type, (Row -> Z) -> list Row -> list Row.
Variable str_lower : string -> string.

Lemma map_result_total (X Y : Type) (f : X -> Result Y) (l : list X) :
  (forall x, In x l -> exists y, f x = Ok y) ->
  exists ys, map_result f l = Ok ys /\ List.length ys = List.length l.
Proof.
  induction l as [| x l IH]; intros H.
  - exists []. split; reflexivity.
  - destruct (H x (or_introl eq_refl)) as [y Hy].
    destruct IH as [ys [Hys Hlen]].
    { intros x' Hx'. apply H. right. exact Hx'. }
    exists (y :: ys). cbn [map_result]. rewrite Hy, Hys. cbn [rbind].
    split; [reflexivity | cbn; congruence].
Qed.

Lemma elo_ranking_ready (st : StateDict) :
  ranking_ready st -> exists rows, elo_ranking sort_values st = Ok rows.
Proof.
  intros [Hnames [ps [Hps [Hne Hall]]]].
  destruct (original_filenames st) as [names |] eqn:En; [| congruence].
  destruct (map_result_total _ _ (elo_row st) ps) as [rows [Hrows Hlen]].
  { intros [p d] Hin. destruct (Hall _ Hin) as [He [Hs Hm]].
    cbn [snd] in He, Hs, Hm. unfold elo_row. rewrite En. cbn [field rbind snd].
    destruct (elo d); [| congruence].
    destruct (score d); [| congruence].
    destruct (matches d); [| congruence].
    eexists. reflexivity. }
  unfold elo_ranking. rewrite Hps. cbn [field rbind]. rewrite Hrows.
  cbn [rbind].
  destruct rows as [| row rows].
  - destruct ps; [congruence | discriminate].
  - eexists. reflexivity.
Qed.

Lemma elo_ranking_ext (s1 s2 : StateDict) :
  players s1 = players s2 ->
  original_filenames s1 = original_filenames s2 ->
  elo_ranking sort_values s1 = elo_ranking sort_values s2.
Proof.
  intros Hp Hn. unfold elo_ranking. rewrite Hp.
  replace (elo_row s1) with (elo_row s2); [reflexivity |].
  unfold elo_row. rewrite Hn. reflexivity.
Qed.

(** Once [current_round] exceeds [total_rounds], [display_match] shows the
    closing message and the leaderboard, whatever its recursive call is. *)
Lemma display_elo_finished (self : StateObj -> M rng (StateObj * View))
  (st : StateDict) (cr tr : Z) (g : rng) :
  mode st = Some mode_elo ->
  current_round st = Some cr ->
  total_rounds st = Some tr ->
  tr < cr ->
  ranking_ready st ->
  exists view,
    display_match_body shuffle sort_values str_lower self (PyDict st) g
    = Ok ((PyDict st, view), g)
    /\ info_text view = gr_value msg_elo_finished
    /\ left_media_display view = gr_visible false
    /\ right_media_display view = gr_visible false.
Proof.
  intros Hmode Hcr Htr Hlt Hready.
  destruct (elo_ranking_ready st Hready) as [rows Hrows].
  unfold display_match_body, bind, lift. rewrite Hmode. cbn [field].
  rewrite String.eqb_refl.
  unfold display_match_elo, bind, lift. rewrite Hcr, Htr. cbn [field].
  destruct (Z.gtb_spec cr tr) as [_ | Hle]; [| lia].
  unfold display_elo_tail. rewrite Hcr, Htr. cbn [field rbind].
  destruct (Z.leb_spec cr tr) as [Hle | _]; [lia |].
  cbn [rbind]. rewrite Hrows. cbn [rbind].
  eexists. split; [reflexivity |]. repeat split.
Qed.

(** C6: in rating mode, when the cursor is at the end of a round that is
    not the last and the regenerated pairing list is empty,
    [display_match] sets [current_round] to [total_rounds + 1], shows the
    no-more-pairings message with no match and no vote button, and the
    state it returns is completed: displaying it again gives the closing
    message, which is a different text. *)
Theorem exhausted_pairings_terminate (st : StateDict) (cr tr idx : Z)
  (ms : list (Item * Item)) (g g' : rng) :
  mode st = Some mode_elo ->
  current_round st = Some cr ->
  total_rounds st = Some tr ->
  current_match_index st = Some idx ->
  matchups_this_round st = Some ms ->
  ranking_ready st ->
  cr < tr ->
  len ms <= idx ->
  create_swiss_pairings shuffle (set_current_round (cr + 1) st) g
  = Ok ([], g') ->
  exists st' view,
    display_match shuffle sort_values str_lower (PyDict st) g
    = Ok ((PyDict st', view), g')
    /\ current_round st' = Some (tr + 1)
    /\ total_rounds st' = Some tr
    /\ info_text view = gr_value msg_no_more_pairings
    /\ left_media_display view = gr_visible false
    /\ right_media_display view = gr_visible false
    /\ left_btn view = gr_visible false
    /\ tie_btn view = gr_visible false
    /\ right_btn view = gr_visible false
    /\ (forall g2, exists view2,
          display_match shuffle sort_values str_lower (PyDict st') g2
          = Ok ((PyDict st', view2), g2)
          /\ info_text view2 = gr_value msg_elo_finished
          /\ left_media_display view2 = gr_visible false
          /\ right_media_display view2 = gr_visible false)
    /\ msg_no_more_pairings <> msg_elo_finished.
Proof.
  intros Hmode Hcr Htr Hidx Hms Hready Hlt Hend Hpair.
  set (st' := set_current_round (tr + 1)
                (set_current_match_index 0
                   (set_matchups_this_round []
                      (set_current_round (cr + 1) st)))).
  assert (Hready' : ranking_ready st').
  { destruct Hready as [Hn Hp]. split; [exact Hn | exact Hp]. }
  destruct (elo_ranking_ready st' Hready') as [rows Hrows].
  exists st'. eexists. split; [| split; [| split; [| split; [| split;
    [| split; [| split; [| split; [| split; [| split]]]]]]]]].
  - rewrite (display_match_of_elo rng shuffle sort_values str_lower st g Hmode).
    unfold display_match_elo, bind, lift.
    rewrite Hcr, Htr, Hidx, Hms. cbn [field].
    destruct (Z.gtb_spec cr tr) as [Hgt | _]; [lia |].
    destruct (Z.geb_spec idx (len ms)) as [_ | Hsmall]; [| lia].
    destruct (Z.gtb_spec (cr + 1) tr) as [Hgt | _]; [lia |].
    rewrite Hpair.
    unfold display_elo_tail. fold st'.
    change (current_round st') with (Some (tr + 1)).
    change (total_rounds st') with (total_rounds st). rewrite Htr.
    cbn [field rbind].
    destruct (Z.leb_spec (tr + 1) tr) as [Hle | _]; [lia |].
    cbn [rbind]. rewrite Hrows. cbn [rbind]. reflexivity.
  - reflexivity.
  - exact Htr.
  - reflexivity.
  - reflexivity.
  - reflexivity.
  - reflexivity.
  - reflexivity.
  - reflexivity.
  - intros g2.
    apply (display_elo_finished _ st' (tr + 1) tr g2);
      [exact Hmode | reflexivity | exact Htr | lia | exact Hready'].
  - discriminate.
Qed.

(** The recursion of [display_match]: its one recursive call is made with
    [current_round > total_rounds], where the callee calls nothing. *)
Lemma display_match_body_finished
  (self1 self2 : StateObj -> M rng (StateObj * View)) (st : StateDict)
  (cr tr : Z) (g : rng) :
  current_round st = Some cr ->
  total_rounds st = Some tr ->
  tr < cr ->
  display_match_body shuffle sort_values str_lower self1 (PyDict st) g
  = display_match_body shuffle sort_values str_lower self2 (PyDict st) g.
Proof.
  intros Hcr Htr Hlt. unfold display_match_body, bind, lift.
  destruct (mode st) as [m |]; [| reflexivity]. cbn [field].
  destruct (String.eqb m mode_elo); [| reflexivity].
  unfold display_match_elo, bind, lift. rewrite Hcr, Htr. cbn [field].
  destruct (Z.gtb_spec cr tr) as [_ | Hle]; [reflexivity | lia].
Qed.

Lemma display_match_body_ext
  (self1 self2 : StateObj -> M rng (StateObj * View)) (s : StateObj)
  (g : rng) :
  (forall st cr tr g0,
      current_round st = Some cr -> total_rounds st = Some tr -> tr < cr ->
      self1 (PyDict st) g0 = self2 (PyDict st) g0) ->
  display_match_body shuffle sort_values str_lower self1 s g
  = display_match_body shuffle sort_values str_lower self2 s g.
Proof.
  intros Hself. destruct s as [| repr | st]; [reflexivity | reflexivity |].
  unfold display_match_body, bind, lift.
  destruct (mode st) as [m |]; [| reflexivity]. cbn [field].
  destruct (String.eqb m mode_elo); [| reflexivity].
  unfold display_match_elo, bind, lift.
  destruct (current_round st) as [cr |]; [| reflexivity].
  destruct (total_rounds st) as [tr |] eqn:Htr; [| reflexivity].
  cbn [field].
  destruct (cr >? tr); [reflexivity |].
  destruct (current_match_index st) as [idx |]; [| reflexivity].
  destruct (matchups_this_round st) as [ms |]; [| reflexivity].
  cbn [field].
  destruct (idx >=? len ms); [| reflexivity].
  destruct (Z.gtb_spec (cr + 1) tr) as [Hgt | _]; [| reflexivity].
  apply (Hself _ (cr + 1) tr); [reflexivity | exact Htr | lia].
Qed.

Lemma display_match_unfold (s : StateObj) (g : rng) :
  display_match shuffle sort_values str_lower s g
  = display_match_body shuffle sort_values str_lower
      (display_match shuffle sort_values str_lower) s g.
Proof.
  unfold display_match at 1.
  apply display_match_body_ext.
  intros st cr tr g0 Hcr Htr Hlt. unfold display_match.
  apply (display_match_body_finished _ _ st cr tr g0 Hcr Htr Hlt).
Qed.

End RatingMode.

Lemma exhausted_pairings_terminate_witness :
  exists st' view,
    display_match shuffle_id sort_insertion lower_plain
      (PyDict two_players_all_played) tt
    = Ok ((PyDict st', view), tt)
    /\ current_round st' = Some 4
    /\ info_text view = gr_value msg_no_more_pairings.
Proof.
  destruct (exhausted_pairings_terminate unit shuffle_id sort_insertion
              lower_plain two_players_all_played 1 3 1
              [("a.mp4", "b.mp4")] tt tt)
    as [st' [view [Hrun [Hcr [_ [Hinfo _]]]]]];
    try reflexivity.
  - split; [discriminate |].
    eexists. split; [reflexivity |]. split; [discriminate |].
    intros pd [<- | [<- | []]]; repeat split; discriminate.
  - exists st', view. repeat split; assumption.
Defined.

(** ** Dicts as association lists *)

Section DictFacts.

Variable V : Type.

Lemma dict_get_keys (p : Item) (d : Dict V) (v : V) :
  dict_get p d = Some v -> In p (dict_keys d).
Proof.
  induction d as [| [k w] d IH]; cbn [dict_get dict_keys map fst];
    [discriminate |].
  destruct (String.eqb_spec p k) as [-> | _]; intros H.
  - left. reflexivity.
  - right. apply IH. exact H.
Qed.

Lemma dict_keys_get (p : Item) (d : Dict V) :
  In p (dict_keys d) -> exists v, dict_get p d = Some v.
Proof.
  induction d as [| [k w] d IH]; cbn [dict_get dict_keys map fst];
    [intros [] |].
  intros H. destruct (String.eqb_spec p k) as [-> | Hne].
  - exists w. reflexivity.
  - destruct H as [-> | H]; [congruence | apply IH; exact H].
Qed.

Lemma dict_get_In (p : Item) (d : Dict V) (v : V) :
  dict_get p d = Some v -> In (p, v) d.
Proof.
  induction d as [| [k w] d IH]; cbn [dict_get]; [discriminate |].
  destruct (String.eqb_spec p k) as [-> | _]; intros H.
  - left. congruence.
  - right. apply IH. exact H.
Qed.

Lemma dict_In_get (p : Item) (d : Dict V) (v : V) :
  NoDup (dict_keys d) -> In (p, v) d -> dict_get p d = Some v.
Proof.
  induction d as [| [k w] d IH]; cbn [dict_get dict_keys map fst];
    intros Hnd Hin; [destruct Hin |].
  inversion Hnd as [| x xs Hnotin Hnd']; subst.
  destruct Hin as [[= -> ->] | Hin].
  - rewrite String.eqb_refl. reflexivity.
  - destruct (String.eqb_spec p k) as [-> | _].
    + exfalso. apply Hnotin. apply (in_map fst) in Hin. exact Hin.
    + apply IH; assumption.
Qed.

Lemma dict_get_set_same (p : Item) (v : V) (d : Dict V) :
  dict_get p (dict_set p v d) = Some v.
Proof.
  induction d as [| [k w] d IH]; cbn [dict_set dict_get].
  - rewrite String.eqb_refl. reflexivity.
  - destruct (String.eqb_spec p k) as [-> | Hne]; cbn [dict_get].
    + rewrite String.eqb_refl. reflexivity.
    + destruct (String.eqb_spec p k); [congruence | exact IH].
Qed.

Lemma dict_get_set_other (p q : Item) (v : V) (d : Dict V) :
  q <> p -> dict_get q (dict_set p v d) = dict_get q d.
Proof.
  intros Hne. induction d as [| [k w] d IH]; cbn [dict_set dict_get].
  - destruct (String.eqb_spec q p); [congruence | reflexivity].
  - destruct (String.eqb_spec p k) as [-> | Hpk]; cbn [dict_get].
    + destruct (String.eqb_spec q k); [congruence | reflexivity].
    + destruct (String.eqb_spec q k); [reflexivity | exact IH].
Qed.

Lemma dict_keys_set (p : Item) (v : V) (d : Dict V) :
  In p (dict_keys d) -> dict_keys (dict_set p v d) = dict_keys d.
Proof.
  induction d as [| [k w] d IH]; cbn [dict_set dict_keys map fst];
    [intros [] |].
  intros H. destruct (String.eqb_spec p k) as [-> | Hne];
    cbn [map fst]; [reflexivity |].
  f_equal. apply IH. destruct H as [-> | H]; [congruence | exact H].
Qed.

Lemma dict_keys_set_new (p : Item) (v : V) (d : Dict V) :
  ~ In p (dict_keys d) -> dict_set p v d = d ++ [(p, v)].
Proof.
  induction d as [| [k w] d IH]; cbn [dict_set dict_keys map fst app];
    intros H; [reflexivity |].
  destruct (String.eqb_spec p k) as [-> | Hne].
  - exfalso. apply H. left. reflexivity.
  - f_equal. apply IH. intros Hin. apply H. right. exact Hin.
Qed.

(** [{k: f(k) for k in keys}] on distinct keys lists them in order. *)
Lemma dict_comprehension_NoDup (f : Item -> V) (keys : list Item) :
  NoDup keys ->
  dict_comprehension f keys = map (fun k => (k, f k)) keys.
Proof.
  unfold dict_comprehension.
  assert (H : forall acc,
             NoDup (dict_keys acc ++ keys) ->
             fold_left (fun d k => dict_set k (f k) d) keys acc
             = acc ++ map (fun k => (k, f k)) keys).
  { induction keys as [| k keys IH]; intros acc Hnd; cbn [fold_left map].
    - rewrite app_nil_r. reflexivity.
    - rewrite dict_keys_set_new.
      + rewrite IH.
        * rewrite <- app_assoc. reflexivity.
        * unfold dict_keys. rewrite map_app. cbn [map fst].
          rewrite <- app_assoc. exact Hnd.
      + apply NoDup_remove_2 in Hnd. intros Hin. apply Hnd.
        apply in_or_app. left. exact Hin. }
  intros Hnd. apply (H []). exact Hnd.
Qed.

End DictFacts.

Lemma filter_agree (X : Type) (f f' : X -> bool) (l : list X) :
  (forall x, In x l -> f x = f' x) -> filter f l = filter f' l.
Proof.
  induction l as [| x l IH]; intros H; cbn [filter]; [reflexivity |].
  rewrite (H x (or_introl eq_refl)), IH; [reflexivity |].
  intros y Hy. apply H. right. exact Hy.
Qed.

(** Changing a predicate at one point of a duplicate-free list moves its
    count by that point alone. *)
Lemma filter_change_one (f f' : Item -> bool) (p : Item) (l : list Item) :
  NoDup l ->
  (forall q, q <> p -> f' q = f q) ->
  In p l ->
  len (filter f' l) + Z.b2z (f p) = len (filter f l) + Z.b2z (f' p).
Proof.
  unfold len. intros Hnd Hsame.
  induction l as [| x l IH]; intros Hin; [destruct Hin |].
  inversion Hnd as [| y ys Hnotin Hnd']; subst.
  destruct (String.eqb_spec x p) as [-> | Hne].
  - assert (E : filter f' l = filter f l).
    { apply filter_agree. intros q Hq. apply Hsame. intros ->. contradiction. }
    cbn [filter]. rewrite E.
    destruct (f p), (f' p); cbn [List.length Z.b2z]; lia.
  - destruct Hin as [-> | Hin]; [congruence |].
    specialize (IH Hnd' Hin).
    cbn [filter]. rewrite (Hsame x Hne).
    destruct (f x); cbn [List.length]; lia.
Qed.

Lemma filter_only_one (f : Item -> bool) (p : Item) (l : list Item) :
  NoDup l -> In p l -> (forall q, In q l -> (f q = true <-> q = p)) ->
  filter f l = [p].
Proof.
  induction l as [| x l IH]; intros Hnd Hin Hf; [destruct Hin |].
  inversion Hnd as [| y ys Hnotin Hnd']; subst. cbn [filter].
  destruct Hin as [-> | Hin].
  - rewrite (proj2 (Hf p (or_introl eq_refl)) eq_refl). f_equal.
    assert (E : filter f l = filter (fun _ => false) l).
    { apply filter_agree. intros q Hq.
      destruct (f q) eqn:Efq; [| reflexivity].
      apply (Hf q (or_intror Hq)) in Efq. subst. contradiction. }
    rewrite E. clear. induction l; [reflexivity | exact IHl].
  - destruct (f x) eqn:Efx.
    + apply (Hf x (or_introl eq_refl)) in Efx. subst. contradiction.
    + apply IH; [exact Hnd' | exact Hin |].
      intros q Hq. apply Hf. right. exact Hq.
Qed.

Lemma filter_none (X : Type) (f : X -> bool) (l : list X) :
  (forall q, In q l -> f q = false) -> filter f l = [].
Proof.
  induction l as [| x l IH]; intros Hf; cbn [filter]; [reflexivity |].
  rewrite (Hf x (or_introl eq_refl)). apply IH.
  intros q Hq. apply Hf. right. exact Hq.
Qed.

(** ** BracketEngine: consecutive pairing and the bye *)

Lemma zip_pairs_cons (a b : Item) (l : list Item) :
  zip_pairs (a :: b :: l) = (a, b) :: zip_pairs l.
Proof. reflexivity. Qed.

Lemma is_odd_cons2 (V : Type) (a b : V) (l : list V) :
  is_odd (a :: b :: l) = is_odd l.
Proof. unfold is_odd. cbn [List.length]. apply Nat.odd_succ_succ. Qed.

Lemma flatten_zip_pairs (l : list Item) :
  flatten_matches (zip_pairs l) = if is_odd l then removelast l else l.
Proof.
  induction l as [| x | a b l IH] using list_pairs_ind.
  - reflexivity.
  - reflexivity.
  - rewrite zip_pairs_cons, is_odd_cons2.
    unfold flatten_matches in *. cbn [flat_map fst snd app]. rewrite IH.
    destruct (is_odd l) eqn:Hodd; [| reflexivity].
    destruct l as [| y l]; [discriminate | reflexivity].
Qed.

Lemma zip_pairs_length (l : list Item) :
  2 * len (zip_pairs l) + Z.b2z (is_odd l) = len l.
Proof.
  unfold len.
  induction l as [| x | a b l IH] using list_pairs_ind.
  - reflexivity.
  - reflexivity.
  - rewrite zip_pairs_cons, is_odd_cons2. cbn [List.length]. lia.
Qed.

Lemma last_not_in_removelast (l : list Item) :
  NoDup l -> l <> [] -> ~ In (last l "") (removelast l).
Proof.
  intros Hnd Hne Hin.
  rewrite (app_removelast_last "" Hne) in Hnd.
  apply NoDup_remove_2 in Hnd. apply Hnd.
  rewrite app_nil_r. exact Hin.
Qed.

Lemma last_In (l : list Item) : l <> [] -> In (last l "") l.
Proof.
  intros Hne. rewrite (app_removelast_last "" Hne) at 2.
  apply in_or_app. right. left. reflexivity.
Qed.

Lemma removelast_In (l : list Item) (x : Item) :
  In x (removelast l) -> In x l.
Proof.
  destruct l as [| y l]; [intros [] |].
  intros H. rewrite (app_removelast_last "" (l := y :: l)) by discriminate.
  apply in_or_app. left. exact H.
Qed.

(** The items paired in a round and its bye: on a duplicate-free list of
    odd length the last item is in no pair, and every other item is. *)
Lemma zip_pairs_bye (l : list Item) :
  NoDup l ->
  NoDup (flatten_matches (zip_pairs l))
  /\ (forall x, In x (flatten_matches (zip_pairs l)) -> In x l)
  /\ (is_odd l = true ->
      flatten_matches (zip_pairs l) = removelast l
      /\ ~ In (last l "") (flatten_matches (zip_pairs l))
      /\ forall x, In x l -> x <> last l "" ->
                   In x (flatten_matches (zip_pairs l)))
  /\ (is_odd l = false -> flatten_matches (zip_pairs l) = l).
Proof.
  intros Hnd. rewrite flatten_zip_pairs.
  destruct (is_odd l) eqn:Hodd.
  - assert (Hne : l <> []) by (intros ->; discriminate).
    pose proof (app_removelast_last "" Hne) as Hsplit.
    split; [| split; [| split]].
    + rewrite Hsplit in Hnd. apply NoDup_app_remove_r in Hnd. exact Hnd.
    + apply removelast_In.
    + intros _. split; [reflexivity |].
      split; [apply last_not_in_removelast; assumption |].
      intros x Hx Hnl. rewrite Hsplit in Hx.
      apply in_app_or in Hx. destruct Hx as [Hx | [Hx | []]];
        [exact Hx | congruence].
    + discriminate.
  - split; [exact Hnd |]. split; [auto |]. split; [discriminate |].
    reflexivity.
Qed.

(** ** Elimination mode: the effect of each operation *)

Lemma status_in_set_same (ps : Dict PlayerData) (p : Item) (d : PlayerData) :
  status_in (dict_set p d ps) p = status d.
Proof. unfold status_in. rewrite dict_get_set_same. reflexivity. Qed.

Lemma status_in_set_other (ps : Dict PlayerData) (p q : Item)
  (d : PlayerData) :
  q <> p -> status_in (dict_set p d ps) q = status_in ps q.
Proof.
  intros Hne. unfold status_in. rewrite dict_get_set_other by exact Hne.
  reflexivity.
Qed.

Lemma winners_of_eq (ps : Dict PlayerData) :
  NoDup (dict_keys ps) ->
  (forall p d, dict_get p ps = Some d -> status d <> None) ->
  winners_of ps = Ok (winner_keys ps).
Proof.
  induction ps as [| [p d] ps IH]; intros Hnd Hstatus; [reflexivity |].
  cbn [dict_keys map fst] in Hnd.
  inversion Hnd as [| x xs Hnotin Hnd']; subst.
  assert (Hd : status d <> None).
  { apply (Hstatus p). cbn [dict_get]. rewrite String.eqb_refl. reflexivity. }
  assert (Htail : forall q, In q (dict_keys ps) ->
                    dict_get q ((p, d) :: ps) = dict_get q ps).
  { intros q Hq. cbn [dict_get].
    destruct (String.eqb_spec q p) as [-> | _]; [contradiction | reflexivity]. }
  cbn [winners_of]. destruct (status d) as [s |] eqn:Es; [| congruence].
  cbn [field rbind]. rewrite IH.
  - cbn [rbind]. unfold winner_keys. cbn [dict_keys map fst filter].
    assert (Ehead : has_won ((p, d) :: ps) p = Status_eqb s winner).
    { unfold has_won, status_in. cbn [dict_get]. rewrite String.eqb_refl.
      rewrite Es. destruct s; reflexivity. }
    rewrite Ehead.
    assert (Efilter : filter (has_won ((p, d) :: ps)) (map fst ps)
                      = filter (has_won ps) (map fst ps)).
    { apply filter_agree. intros q Hq. unfold has_won, status_in.
      rewrite (Htail q Hq). reflexivity. }
    rewrite Efilter. reflexivity.
  - exact Hnd'.
  - intros q dq Hq. apply (Hstatus q).
    rewrite Htail; [exact Hq |]. eapply dict_get_keys. exact Hq.
Qed.

Lemma winner_keys_spec (ps : Dict PlayerData) (p : Item) :
  In p (winner_keys ps) <-> status_in ps p = Some winner.
Proof.
  unfold winner_keys. rewrite filter_In. unfold has_won. split.
  - intros [_ H]. destruct (status_in ps p) as [[| |] |]; congruence.
  - intros H. rewrite H. split; [| reflexivity].
    unfold status_in in H.
    destruct (dict_get p ps) as [d |] eqn:E; [| discriminate].
    eapply dict_get_keys. exact E.
Qed.

Lemma winner_keys_NoDup (ps : Dict PlayerData) :
  NoDup (dict_keys ps) -> NoDup (winner_keys ps).
Proof. intros H. unfold winner_keys. apply NoDup_filter. exact H. Qed.

Lemma update_player_eq (f : PlayerData -> PlayerData) (p : Item)
  (names : Dict string) (ps : Dict PlayerData) (ms : list (Item * Item))
  (idx r : Z) (d : PlayerData) :
  dict_get p ps = Some d ->
  update_player f p (elimination_state names ps ms idx r)
  = Ok (elimination_state names (dict_set p (f d) ps) ms idx r).
Proof.
  intros Hd. unfold update_player. cbn [players elimination_state field rbind].
  unfold subscript. rewrite Hd. reflexivity.
Qed.

(** Resetting a list of known players to ["active"]. *)
Lemma activate_all_spec (l : list Item) :
  forall (names : Dict string) (ps : Dict PlayerData) ms idx r,
    (forall q, In q l -> In q (dict_keys ps)) ->
    exists ps',
      activate_all l (elimination_state names ps ms idx r)
      = Ok (elimination_state names ps' ms idx r)
      /\ dict_keys ps' = dict_keys ps
      /\ (forall q, In q l ->
            dict_get q ps' = option_map (set_status active) (dict_get q ps))
      /\ (forall q, ~ In q l -> dict_get q ps' = dict_get q ps).
Proof.
  induction l as [| p l IH]; intros names ps ms idx r Hkeys.
  - exists ps. cbn [activate_all]. repeat split; auto. intros q [].
  - destruct (dict_keys_get _ p ps (Hkeys p (or_introl eq_refl))) as [d Hd].
    cbn [activate_all]. rewrite (update_player_eq _ p names ps ms idx r d Hd).
    cbn [rbind].
    assert (Hk1 : dict_keys (dict_set p (set_status active d) ps)
                  = dict_keys ps).
    { apply dict_keys_set. eapply dict_get_keys. exact Hd. }
    destruct (IH names (dict_set p (set_status active d) ps) ms idx r)
      as [ps' [Hrun [Hk [Hin Hout]]]].
    { intros q Hq. rewrite Hk1. apply Hkeys. right. exact Hq. }
    exists ps'. split; [exact Hrun |]. split; [congruence |]. split.
    + intros q Hq.
      destruct (in_dec String.string_dec q l) as [Hql | Hql].
      * rewrite (Hin q Hql).
        destruct (String.eqb_spec q p) as [-> | Hne].
        -- rewrite dict_get_set_same, Hd. reflexivity.
        -- rewrite dict_get_set_other by exact Hne. reflexivity.
      * rewrite (Hout q Hql).
        destruct Hq as [<- | Hq]; [| contradiction].
        rewrite dict_get_set_same, Hd. reflexivity.
    + intros q Hq. rewrite Hout.
      * apply dict_get_set_other. intros ->. apply Hq. left. reflexivity.
      * intros Hql. apply Hq. right. exact Hql.
Qed.

Lemma skipn_nth_error (V : Type) (l : list V) (n : nat) (x : V) :
  nth_error l n = Some x -> skipn n l = x :: skipn (S n) l.
Proof.
  revert l. induction n as [| n IH]; intros [| y l] H; try discriminate.
  - cbn in H. injection H as ->. reflexivity.
  - cbn [nth_error] in H. cbn [skipn]. rewrite (IH l H). reflexivity.
Qed.

Lemma flatten_skipn_NoDup (ms : list (Item * Item)) (n : nat) :
  NoDup (flatten_matches ms) -> NoDup (flatten_matches (skipn n ms)).
Proof.
  intros H. rewrite <- (firstn_skipn n ms) in H.
  unfold flatten_matches in *. rewrite flat_map_app in H.
  eapply NoDup_app_remove_l. exact H.
Qed.

Lemma status_in_get (ps : Dict PlayerData) (p : Item) (s : Status) :
  status_in ps p = Some s ->
  exists d, dict_get p ps = Some d /\ status d = Some s.
Proof.
  unfold status_in. destruct (dict_get p ps) as [d |]; [| discriminate].
  intros H. exists d. split; [reflexivity | exact H].
Qed.

(** Recording the outcome of the pending match between [w] (who wins) and
    [l] (who loses). *)
Lemma resolve_match (ps : Dict PlayerData) (ms rest : list (Item * Item))
  (idx r : Z) (w l : Item) (dw dl : PlayerData) :
  elim_ok ps ms idx r ->
  idx < len ms ->
  w <> l ->
  dict_get w ps = Some dw -> status dw = Some active ->
  dict_get l ps = Some dl -> status dl = Some active ->
  skipn (Z.to_nat (idx + 1)) ms = rest ->
  ~ In w (flatten_matches rest) -> ~ In l (flatten_matches rest) ->
  let ps' := dict_set l (set_eliminated_in_round r (set_status eliminated dl))
               (dict_set w (set_status winner dw) ps) in
  elim_ok ps' ms (idx + 1) r
  /\ dict_keys ps' = dict_keys ps
  /\ status_in ps' w = Some winner
  /\ status_in ps' l = Some eliminated
  /\ (forall q, q <> w -> q <> l -> status_in ps' q = status_in ps q)
  /\ len (winner_keys ps') = len (winner_keys ps) + 1.
Proof.
  intros Hok Hlt Hwl Hw Hsw Hl Hsl Hrest Hwrest Hlrest ps'.
  destruct Hok as [Hkeys Hstatus Hidx Hms Hpending Hround Helim].
  assert (Hkw : In w (dict_keys ps)) by (eapply dict_get_keys; exact Hw).
  assert (Hkl : In l (dict_keys ps)) by (eapply dict_get_keys; exact Hl).
  assert (Hk1 : dict_keys (dict_set w (set_status winner dw) ps)
                = dict_keys ps) by (apply dict_keys_set; exact Hkw).
  assert (Hk2 : dict_keys ps' = dict_keys ps).
  { unfold ps'. rewrite dict_keys_set; [exact Hk1 |]. rewrite Hk1. exact Hkl. }
  assert (Hget : forall q,
             dict_get q ps'
             = if String.eqb q l
               then Some (set_eliminated_in_round r (set_status eliminated dl))
               else if String.eqb q w then Some (set_status winner dw)
                    else dict_get q ps).
  { intros q. unfold ps'.
    destruct (String.eqb_spec q l) as [-> | Hql].
    - apply dict_get_set_same.
    - rewrite dict_get_set_other by exact Hql.
      destruct (String.eqb_spec q w) as [-> | Hqw].
      + apply dict_get_set_same.
      + apply dict_get_set_other. exact Hqw. }
  assert (Hsw' : status_in ps' w = Some winner).
  { unfold status_in. rewrite Hget.
    destruct (String.eqb_spec w l); [congruence |].
    rewrite String.eqb_refl. reflexivity. }
  assert (Hsl' : status_in ps' l = Some eliminated).
  { unfold status_in. rewrite Hget, String.eqb_refl. reflexivity. }
  assert (Hother : forall q, q <> w -> q <> l ->
                     status_in ps' q = status_in ps q).
  { intros q Hqw Hql. unfold status_in. rewrite Hget.
    destruct (String.eqb_spec q l); [congruence |].
    destruct (String.eqb_spec q w); [congruence | reflexivity]. }
  split; [| split; [exact Hk2 | split; [exact Hsw' | split; [exact Hsl' |
    split; [exact Hother |]]]]].
  - constructor.
    + rewrite Hk2. exact Hkeys.
    + intros q d. rewrite Hget.
      destruct (String.eqb q l); [intros [= <-]; discriminate |].
      destruct (String.eqb q w); [intros [= <-]; discriminate |].
      apply Hstatus.
    + lia.
    + exact Hms.
    + intros q Hq. rewrite Hrest in Hq. rewrite Hother.
      * apply Hpending.
        assert (Hsplit : skipn (Z.to_nat idx) ms
                         = skipn (Z.to_nat idx) (firstn (Z.to_nat (idx + 1)) ms)
                           ++ rest).
        { rewrite <- Hrest.
          rewrite <- (firstn_skipn (Z.to_nat (idx + 1)) ms) at 1.
          rewrite skipn_app.
          rewrite length_firstn.
          replace (Z.to_nat idx - Nat.min (Z.to_nat (idx + 1)) (List.length ms))%nat
            with 0%nat by (unfold len in *; lia).
          reflexivity. }
        rewrite Hsplit. unfold flatten_matches. rewrite flat_map_app.
        apply in_or_app. right. exact Hq.
      * intros ->. contradiction.
      * intros ->. contradiction.
    + exact Hround.
    + intros q d k. rewrite Hget.
      destruct (String.eqb_spec q l) as [-> | _].
      { intros [= <-]. cbn. intros [= <-]. left. lia. }
      destruct (String.eqb_spec q w) as [-> | _].
      { intros [= <-]. cbn [eliminated_in_round set_status]. intros Hk.
        destruct (Helim w dw k Hw Hk) as [Hle | [Hwin _]];
          [left; exact Hle | congruence]. }
      intros Hq Hk. destruct (Helim q d k Hq Hk) as [Hle | [Hwin Hk']].
      * left. exact Hle.
      * right. split; assumption.
  - (* one more winner *)
    unfold winner_keys. rewrite Hk2.
    set (mid := dict_set w (set_status winner dw) ps).
    assert (H1 : len (filter (has_won mid) (dict_keys ps)) + Z.b2z (has_won ps w)
                 = len (filter (has_won ps) (dict_keys ps))
                   + Z.b2z (has_won mid w)).
    { apply filter_change_one; [exact Hkeys | | exact Hkw].
      intros q Hq. unfold has_won, mid.
      rewrite status_in_set_other by exact Hq. reflexivity. }
    assert (H2 : len (filter (has_won ps') (dict_keys ps))
                 + Z.b2z (has_won mid l)
                 = len (filter (has_won mid) (dict_keys ps))
                   + Z.b2z (has_won ps' l)).
    { apply filter_change_one; [exact Hkeys | | exact Hkl].
      intros q Hq. unfold has_won, ps'. fold mid.
      rewrite status_in_set_other by exact Hq. reflexivity. }
    assert (Ew : has_won ps w = false).
    { unfold has_won, status_in. rewrite Hw, Hsw. reflexivity. }
    assert (Ew' : has_won mid w = true).
    { unfold has_won, mid. rewrite status_in_set_same. reflexivity. }
    assert (El : has_won mid l = false).
    { unfold has_won, mid. rewrite status_in_set_other by congruence.
      unfold status_in. rewrite Hl, Hsl. reflexivity. }
    assert (El' : has_won ps' l = false).
    { unfold has_won. rewrite Hsl'. reflexivity. }
    rewrite Ew, Ew' in H1. rewrite El, El' in H2. cbn [Z.b2z] in H1, H2. lia.
Qed.

Lemma vote_elimination_spec (names : Dict string) (ps : Dict PlayerData)
  (ms : list (Item * Item)) (idx r : Z) (o : Outcome) :
  elim_ok ps ms idx r ->
  idx < len ms ->
  exists w l ps',
    vote_elimination o (elimination_state names ps ms idx r)
    = Ok (elimination_state names ps' ms (idx + 1) r)
    /\ elim_ok ps' ms (idx + 1) r
    /\ dict_keys ps' = dict_keys ps
    /\ w <> l
    /\ status_in ps w = Some active
    /\ status_in ps l = Some active
    /\ status_in ps' w = Some winner
    /\ status_in ps' l = Some eliminated
    /\ (forall q, q <> w -> q <> l -> status_in ps' q = status_in ps q)
    /\ len (winner_keys ps') = len (winner_keys ps) + 1.
Proof.
  intros Hok Hlt.
  pose proof (ok_idx Hok) as Hidx.
  destruct (py_index_ok _ ms idx (conj (proj1 Hidx) Hlt))
    as [[p1 p2] [Hnth Hpy]].
  pose proof (skipn_nth_error _ ms _ _ Hnth) as Hskip.
  assert (Hnext : Z.to_nat (idx + 1) = S (Z.to_nat idx)) by lia.
  pose proof (flatten_skipn_NoDup ms (Z.to_nat idx) (ok_matchups Hok)) as Hnd.
  rewrite Hskip in Hnd. cbn [flatten_matches flat_map fst snd app] in Hnd.
  fold (flatten_matches (skipn (S (Z.to_nat idx)) ms)) in Hnd.
  inversion Hnd as [| x xs Hp1 Hnd1]; subst.
  inversion Hnd1 as [| x xs Hp2 Hnd2]; subst.
  assert (Ha1 : status_in ps p1 = Some active).
  { apply (ok_pending Hok). rewrite Hskip. cbn. auto. }
  assert (Ha2 : status_in ps p2 = Some active).
  { apply (ok_pending Hok). rewrite Hskip. cbn. auto. }
  destruct (status_in_get ps p1 active Ha1) as [d1 [Hd1 Hs1]].
  destruct (status_in_get ps p2 active Ha2) as [d2 [Hd2 Hs2]].
  assert (Hne : p1 <> p2) by (intros ->; apply Hp1; left; reflexivity).
  assert (Hp1' : ~ In p1 (flatten_matches (skipn (S (Z.to_nat idx)) ms))).
  { intros H. apply Hp1. right. exact H. }
  assert (Hrun : forall w l dw dl,
             dict_get w ps = Some dw -> dict_get l ps = Some dl -> w <> l ->
             (ps0 <-? field (players
                               (elimination_state names
                                  (dict_set w (set_status winner dw) ps)
                                  ms idx r));;
              _ <-? subscript ps0 l;;
              r0 <-? field (round
                              (elimination_state names
                                 (dict_set w (set_status winner dw) ps)
                                 ms idx r));;
              state <-? update_player
                          (fun d => set_eliminated_in_round r0
                                      (set_status eliminated d))
                          l (elimination_state names
                               (dict_set w (set_status winner dw) ps)
                               ms idx r);;
              idx0 <-? field (current_match_index state);;
              Ok (set_current_match_index (idx0 + 1) state))
             = Ok (elimination_state names
                     (dict_set l
                        (set_eliminated_in_round r (set_status eliminated dl))
                        (dict_set w (set_status winner dw) ps))
                     ms (idx + 1) r)).
  { intros w l dw dl Hw Hl Hwl.
    assert (Hl' : dict_get l (dict_set w (set_status winner dw) ps) = Some dl).
    { rewrite dict_get_set_other by congruence. exact Hl. }
    cbn [players round elimination_state field rbind].
    unfold subscript. rewrite Hl'. cbn [rbind].
    rewrite (update_player_eq _ l names _ ms idx r dl Hl').
    reflexivity. }
  destruct o.
  - exists p1, p2. eexists. split.
    + unfold vote_elimination.
      cbn [matchups current_match_index elimination_state field rbind].
      rewrite Hpy. cbn [rbind].
      rewrite (update_player_eq _ p1 names ps ms idx r d1 Hd1). cbn [rbind].
      apply (Hrun p1 p2 d1 d2 Hd1 Hd2 Hne).
    + pose proof (resolve_match ps ms _ idx r p1 p2 d1 d2 Hok Hlt Hne
                    Hd1 Hs1 Hd2 Hs2 (f_equal (fun n => skipn n ms) Hnext)
                    Hp1' Hp2) as H.
      cbv zeta in H. tauto.
  - exists p2, p1. eexists. split.
    + unfold vote_elimination.
      cbn [matchups current_match_index elimination_state field rbind].
      rewrite Hpy. cbn [rbind].
      rewrite (update_player_eq _ p2 names ps ms idx r d2 Hd2). cbn [rbind].
      apply (Hrun p2 p1 d2 d1 Hd2 Hd1 (not_eq_sym Hne)).
    + pose proof (resolve_match ps ms _ idx r p2 p1 d2 d1 Hok Hlt
                    (not_eq_sym Hne)
                    Hd2 Hs2 Hd1 Hs1 (f_equal (fun n => skipn n ms) Hnext)
                    Hp2 Hp1') as H.
      cbv zeta in H. split; [tauto |]. split; [tauto |].
      split; [exact (not_eq_sym Hne) | tauto].
  - exists p2, p1. eexists. split.
    + unfold vote_elimination.
      cbn [matchups current_match_index elimination_state field rbind].
      rewrite Hpy. cbn [rbind].
      rewrite (update_player_eq _ p2 names ps ms idx r d2 Hd2). cbn [rbind].
      apply (Hrun p2 p1 d2 d1 Hd2 Hd1 (not_eq_sym Hne)).
    + pose proof (resolve_match ps ms _ idx r p2 p1 d2 d1 Hok Hlt
                    (not_eq_sym Hne)
                    Hd2 Hs2 Hd1 Hs1 (f_equal (fun n => skipn n ms) Hnext)
                    Hp2 Hp1') as H.
      cbv zeta in H. split; [tauto |]. split; [tauto |].
      split; [exact (not_eq_sym Hne) | tauto].
Qed.

(** Opening a round on the duplicate-free list [ws] of active players:
    consecutive pairs, and the bye of an odd list. *)
Lemma round_setup (names : Dict string) (ps1 : Dict PlayerData)
  (ws : list Item) (r : Z) :
  NoDup (dict_keys ps1) ->
  (forall p d, dict_get p ps1 = Some d -> status d <> None) ->
  NoDup ws ->
  (forall q, In q ws -> status_in ps1 q = Some active) ->
  1 <= r ->
  (forall p d k, dict_get p ps1 = Some d ->
                 eliminated_in_round d = Some k -> k <= r) ->
  exists ps2,
    (if is_odd ws
     then update_player (set_status winner) (last ws "")
            (elimination_state names ps1 (zip_pairs ws) 0 r)
     else Ok (elimination_state names ps1 (zip_pairs ws) 0 r))
    = Ok (elimination_state names ps2 (zip_pairs ws) 0 r)
    /\ elim_ok ps2 (zip_pairs ws) 0 r
    /\ dict_keys ps2 = dict_keys ps1
    /\ (is_odd ws = true -> status_in ps2 (last ws "") = Some winner)
    /\ (forall q, (is_odd ws = true -> q <> last ws "") ->
                  status_in ps2 q = status_in ps1 q).
Proof.
  intros Hkeys Hstatus Hnd Hactive Hr Helim.
  destruct (zip_pairs_bye ws Hnd) as [Hflat [Hsub [Hodd_case Heven_case]]].
  destruct (is_odd ws) eqn:Hodd.
  - assert (Hne : ws <> []) by (intros ->; discriminate).
    destruct (Hodd_case eq_refl) as [_ [Hbye _]].
    destruct (status_in_get ps1 _ active (Hactive _ (last_In ws Hne)))
      as [d [Hd Hsd]].
    exists (dict_set (last ws "") (set_status winner d) ps1).
    assert (Hk : dict_keys (dict_set (last ws "") (set_status winner d) ps1)
                 = dict_keys ps1).
    { apply dict_keys_set. eapply dict_get_keys. exact Hd. }
    split; [apply update_player_eq; exact Hd |].
    split; [| split; [exact Hk | split]].
    + constructor.
      * rewrite Hk. exact Hkeys.
      * intros q dq.
        destruct (String.eqb_spec q (last ws "")) as [-> | Hq].
        -- rewrite dict_get_set_same. intros [= <-]. discriminate.
        -- rewrite dict_get_set_other by exact Hq. apply Hstatus.
      * unfold len. lia.
      * exact Hflat.
      * cbn [Z.to_nat skipn]. intros q Hq.
        rewrite status_in_set_other.
        -- apply Hactive. apply Hsub. exact Hq.
        -- intros ->. contradiction.
      * exact Hr.
      * intros q dq k.
        destruct (String.eqb_spec q (last ws "")) as [-> | Hq].
        -- rewrite dict_get_set_same. intros [= <-].
           cbn [eliminated_in_round set_status]. intros Hk'.
           left. eapply Helim; eauto.
        -- rewrite dict_get_set_other by exact Hq. intros Hdq Hk'.
           left. eapply Helim; eauto.
    + intros _. apply status_in_set_same.
    + intros q Hq. apply status_in_set_other. apply Hq. reflexivity.
  - exists ps1. split; [reflexivity |]. split; [| split; [reflexivity | split]].
    + constructor; try assumption.
      * unfold len. lia.
      * cbn [Z.to_nat skipn]. intros q Hq. apply Hactive. apply Hsub. exact Hq.
      * intros q dq k Hdq Hk. left. eapply Helim; eauto.
    + discriminate.
    + reflexivity.
Qed.

Lemma map_result_pure (X Y : Type) (f : X -> Y) (l : list X) :
  map_result (fun x => Ok (f x)) l = Ok (map f l).
Proof.
  induction l as [| x l IH]; cbn [map_result map rbind]; [reflexivity |].
  rewrite IH. reflexivity.
Qed.

Lemma Outcome_is_tie (o : Outcome) : o = TIE \/ o <> TIE.
Proof. destruct o; [right | right | left]; congruence. Qed.

Lemma RankRow_eq_dec (a b : RankRow) : a = b \/ a <> b.
Proof.
  destruct a as [n1 k1], b as [n2 k2].
  destruct (String.string_dec n1 n2) as [-> | Hn];
    [| right; congruence].
  destruct (Z.eq_dec k1 k2) as [-> | Hk]; [left; reflexivity |].
  right. congruence.
Qed.

Section EliminationMode.

Variable rng : Type.
Variable shuffle : rng -> list Item -> list Item * rng.
Variable sort_values : forall Row : Type, (Row -> Z) -> list Row -> list Row.
Variable str_lower : string -> string.
Variable path_name : string -> string.

(** What the cursor at the end of the round leads to. *)
Lemma display_elimination_exhausted (names : Dict string)
  (ps : Dict PlayerData) (ms : list (Item * Item)) (idx r : Z) (u : View)
  (g : rng) :
  elim_ok ps ms idx r ->
  idx = len ms ->
  display_match_elimination shuffle sort_values str_lower
    (elimination_state names ps ms idx r) u g
  = match winner_keys ps with
    | [w] =>
        lift (crown_champion sort_values str_lower
                (elimination_state names ps ms idx r) u w) g
    | ws =>
        advance_round shuffle str_lower
          (elimination_state names ps ms idx r) u ws g
    end.
Proof.
  intros Hok Hidx.
  unfold display_match_elimination, bind.
  cbn [current_match_index matchups players elimination_state field lift].
  destruct (Z.geb_spec idx (len ms)) as [_ | Hlt]; [| lia].
  rewrite (winners_of_eq ps (ok_keys Hok) (ok_status Hok)).
  destruct (winner_keys ps) as [| a [| b ws]]; reflexivity.
Qed.

Lemma crown_champion_spec (names : Dict string) (ps : Dict PlayerData)
  (ms : list (Item * Item)) (idx r : Z) (u : View) (w : Item)
  (dw : PlayerData) :
  dict_get w ps = Some dw ->
  exists view,
    crown_champion sort_values str_lower
      (elimination_state names ps ms idx r) u w
    = Ok (PyDict (elimination_state names
                    (dict_set w (set_eliminated_in_round (r + 1) dw) ps)
                    ms idx r),
          view)
    /\ ranking_table view
       = mkUpdate
           (Some (ElimTable
                    (ranked sort_values
                       (map (rank_row names)
                          (dict_set w (set_eliminated_in_round (r + 1) dw)
                             ps)))))
           None (Some true)
    /\ info_text view = gr_value msg_champion.
Proof.
  intros Hw. unfold crown_champion.
  cbn [original_filenames round elimination_state field rbind].
  rewrite (update_player_eq _ w names ps ms idx r dw Hw). cbn [rbind].
  unfold final_ranking.
  cbn [players original_filenames elimination_state field rbind].
  rewrite (map_result_pure _ _ (rank_row names)). cbn [rbind].
  destruct (map (rank_row names)
              (dict_set w (set_eliminated_in_round (r + 1) dw) ps))
    as [| row rows] eqn:Erows.
  - exfalso.
    pose proof (dict_get_set_same _ w (set_eliminated_in_round (r + 1) dw) ps)
      as Hget.
    destruct (dict_set w (set_eliminated_in_round (r + 1) dw) ps);
      discriminate.
  - eexists. split; [reflexivity |].
    destruct (is_video_file str_lower w); split; reflexivity.
Qed.

Lemma display_elimination_tail_total (names : Dict string)
  (ps : Dict PlayerData) (ms : list (Item * Item)) (idx r : Z) (u : View) :
  0 <= idx ->
  exists view,
    display_elimination_tail str_lower (elimination_state names ps ms idx r) u
    = Ok (PyDict (elimination_state names ps ms idx r), view).
Proof.
  intros Hidx. unfold display_elimination_tail.
  cbn [current_match_index matchups round elimination_state field rbind].
  destruct (Z.ltb_spec idx (len ms)) as [Hlt | _].
  - destruct (py_index_ok _ ms idx (conj Hidx Hlt)) as [[p1 p2] [_ Hpy]].
    rewrite Hpy. cbn [rbind]. eexists. reflexivity.
  - eexists. reflexivity.
Qed.

Section Shuffled.

Hypothesis shuffle_perm : forall g l, Permutation (fst (shuffle g l)) l.

(** Advancing the round: the winners are shuffled, reset to active and
    paired; the last of an odd list is the bye. *)
Lemma advance_round_spec (names : Dict string) (ps : Dict PlayerData)
  (ms : list (Item * Item)) (idx r : Z) (u : View) (g : rng) :
  elim_ok ps ms idx r ->
  exists ps3 view,
    advance_round shuffle str_lower (elimination_state names ps ms idx r) u
      (winner_keys ps) g
    = Ok ((PyDict (elimination_state names ps3
                     (zip_pairs (fst (shuffle g (winner_keys ps)))) 0 (r + 1)),
           view),
          snd (shuffle g (winner_keys ps)))
    /\ elim_ok ps3 (zip_pairs (fst (shuffle g (winner_keys ps)))) 0 (r + 1)
    /\ dict_keys ps3 = dict_keys ps
    /\ (is_odd (fst (shuffle g (winner_keys ps))) = true ->
        status_in ps3 (last (fst (shuffle g (winner_keys ps))) "")
        = Some winner)
    /\ (forall q, status_in ps q = Some winner ->
                  (is_odd (fst (shuffle g (winner_keys ps))) = true ->
                   q <> last (fst (shuffle g (winner_keys ps))) "") ->
                  status_in ps3 q = Some active)
    /\ (forall q, status_in ps q <> Some winner ->
                  status_in ps3 q = status_in ps q).
Proof.
  intros Hok.
  pose proof (shuffle_perm g (winner_keys ps)) as Hperm.
  destruct (shuffle g (winner_keys ps)) as [ws g'] eqn:Esh.
  cbn [fst snd] in *.
  assert (Hws : forall q, In q ws <-> status_in ps q = Some winner).
  { intros q. rewrite <- winner_keys_spec. split; apply Permutation_in;
      [exact Hperm | symmetry; exact Hperm]. }
  assert (Hnd : NoDup ws).
  { eapply Permutation_NoDup; [symmetry; exact Hperm |].
    apply winner_keys_NoDup. exact (ok_keys Hok). }
  destruct (activate_all_spec ws names ps ms 0 (r + 1))
    as [ps1 [Hact [Hk1 [Hin Hout]]]].
  { intros q Hq. apply Hws in Hq.
    destruct (status_in_get ps q winner Hq) as [d [Hd _]].
    eapply dict_get_keys. exact Hd. }
  assert (Hs1 : forall q, In q ws -> status_in ps1 q = Some active).
  { intros q Hq. unfold status_in. rewrite (Hin q Hq).
    destruct (status_in_get ps q winner (proj1 (Hws q) Hq)) as [d [Hd _]].
    rewrite Hd. reflexivity. }
  assert (Hs1' : forall q, ~ In q ws -> status_in ps1 q = status_in ps q).
  { intros q Hq. unfold status_in. rewrite (Hout q Hq). reflexivity. }
  destruct (round_setup names ps1 ws (r + 1)) as [ps2 [Hbye [Hok2 [Hk2 [Hlast Hrest]]]]].
  - rewrite Hk1. exact (ok_keys Hok).
  - intros q d Hd.
    destruct (in_dec String.string_dec q ws) as [Hq | Hq].
    + rewrite (Hin q Hq) in Hd.
      destruct (dict_get q ps) as [d0 |]; [| discriminate].
      injection Hd as <-. discriminate.
    + rewrite (Hout q Hq) in Hd. exact (@ok_status _ _ _ _ Hok q d Hd).
  - exact Hnd.
  - exact Hs1.
  - pose proof (ok_round Hok). lia.
  - intros q d k Hd Hk.
    assert (Hold : exists d0, dict_get q ps = Some d0
                              /\ eliminated_in_round d0 = Some k).
    { destruct (in_dec String.string_dec q ws) as [Hq | Hq].
      - rewrite (Hin q Hq) in Hd.
        destruct (dict_get q ps) as [d0 |]; [| discriminate].
        injection Hd as <-. exists d0. split; [reflexivity | exact Hk].
      - rewrite (Hout q Hq) in Hd. exists d. split; assumption. }
    destruct Hold as [d0 [Hd0 Hk0]].
    destruct (@ok_elim _ _ _ _ Hok q d0 k Hd0 Hk0) as [Hle | [_ ->]]; lia.
  - destruct (display_elimination_tail_total names ps2 (zip_pairs ws) 0
                (r + 1) u (Z.le_refl 0)) as [view Htail].
    exists ps2, view. split; [| split; [exact Hok2 | split; [congruence |
      split; [exact Hlast | split]]]].
    + unfold advance_round, bind, random_shuffle, lift, ret.
      cbn [round elimination_state field]. rewrite Esh.
      change (set_current_match_index 0
                (set_round (r + 1) (elimination_state names ps ms idx r)))
        with (elimination_state names ps ms 0 (r + 1)).
      rewrite Hact.
      change (set_matchups (zip_pairs ws)
                (elimination_state names ps1 ms 0 (r + 1)))
        with (elimination_state names ps1 (zip_pairs ws) 0 (r + 1)).
      destruct (is_odd ws).
      * rewrite Hbye, Htail. reflexivity.
      * injection Hbye as Hbye. rewrite Hbye, Htail. reflexivity.
    + intros q Hq Hnotlast. rewrite (Hrest q Hnotlast).
      apply Hs1. apply Hws. exact Hq.
    + intros q Hq.
      assert (Hnotin : ~ In q ws) by (rewrite Hws; exact Hq).
      rewrite Hrest.
      * apply Hs1'. exact Hnotin.
      * intros Hodd ->. apply Hnotin. apply last_In.
        intros ->. discriminate.
Qed.

Lemma winner_keys_agree (ps ps' : Dict PlayerData) :
  dict_keys ps' = dict_keys ps ->
  (forall q, status_in ps' q = status_in ps q) ->
  winner_keys ps' = winner_keys ps.
Proof.
  intros Hk Hs. unfold winner_keys. rewrite Hk.
  apply filter_agree. intros q _. unfold has_won. rewrite Hs. reflexivity.
Qed.

Lemma bye_is_only_winner (ps3 : Dict PlayerData) (ws : list Item) :
  NoDup (dict_keys ps3) ->
  (is_odd ws = true -> status_in ps3 (last ws "") = Some winner) ->
  (forall q, (is_odd ws = true -> q <> last ws "") ->
             status_in ps3 q <> Some winner) ->
  len (winner_keys ps3) = Z.b2z (is_odd ws).
Proof.
  intros Hnd Hbye Hrest. unfold winner_keys.
  destruct (is_odd ws) eqn:Hodd.
  - rewrite (filter_only_one (has_won ps3) (last ws "") (dict_keys ps3)).
    + reflexivity.
    + exact Hnd.
    + destruct (status_in_get ps3 _ winner (Hbye eq_refl)) as [d [Hd _]].
      eapply dict_get_keys. exact Hd.
    + intros q _. unfold has_won. split.
      * intros H. destruct (String.eqb_spec q (last ws "")) as [-> | Hne];
          [reflexivity |].
        exfalso. apply (Hrest q (fun _ => Hne)).
        destruct (status_in ps3 q) as [[| |] |]; congruence.
      * intros ->. rewrite (Hbye eq_refl). reflexivity.
  - rewrite filter_none; [reflexivity |].
    intros q _. unfold has_won.
    assert (H : status_in ps3 q <> Some winner)
      by (apply Hrest; discriminate).
    destruct (status_in ps3 q) as [[| |] |]; congruence.
Qed.

(** Crowning the champion touches one [eliminated_in_round] and no status. *)
Lemma crown_preserves (ps : Dict PlayerData) (ms : list (Item * Item))
  (idx r : Z) (w : Item) (dw : PlayerData) :
  elim_ok ps ms idx r ->
  dict_get w ps = Some dw ->
  status dw = Some winner ->
  elim_ok (dict_set w (set_eliminated_in_round (r + 1) dw) ps) ms idx r
  /\ dict_keys (dict_set w (set_eliminated_in_round (r + 1) dw) ps)
     = dict_keys ps
  /\ (forall q,
        status_in (dict_set w (set_eliminated_in_round (r + 1) dw) ps) q
        = status_in ps q).
Proof.
  intros Hok Hw Hsw.
  assert (Hk : dict_keys (dict_set w (set_eliminated_in_round (r + 1) dw) ps)
               = dict_keys ps).
  { apply dict_keys_set. eapply dict_get_keys. exact Hw. }
  assert (Hs : forall q,
             status_in (dict_set w (set_eliminated_in_round (r + 1) dw) ps) q
             = status_in ps q).
  { intros q. destruct (String.eqb_spec q w) as [-> | Hne].
    - rewrite status_in_set_same. unfold status_in. rewrite Hw. reflexivity.
    - apply status_in_set_other. exact Hne. }
  split; [| split; [exact Hk | exact Hs]].
  destruct Hok as [Hkeys Hstatus Hidx Hms Hpending Hround Helim].
  constructor; try assumption.
  - rewrite Hk. exact Hkeys.
  - intros q d. destruct (String.eqb_spec q w) as [-> | Hne].
    + rewrite dict_get_set_same. intros [= <-].
      cbn [status set_eliminated_in_round]. congruence.
    + rewrite dict_get_set_other by exact Hne. apply Hstatus.
  - intros q Hq. rewrite Hs. apply Hpending. exact Hq.
  - intros q d k. destruct (String.eqb_spec q w) as [-> | Hne].
    + rewrite dict_get_set_same. intros [= <-].
      cbn [eliminated_in_round status set_eliminated_in_round].
      intros [= <-]. right. split; [exact Hsw | reflexivity].
    + rewrite dict_get_set_other by exact Hne. apply Helim.
Qed.

(** [display_match] on a well-formed elimination state that is pending, or
    exhausted with at least one winner, returns; either the round stays,
    with every status as it was, or the round advances on two or more
    winners. *)
Lemma display_elimination_spec (names : Dict string) (ps : Dict PlayerData)
  (ms : list (Item * Item)) (idx r : Z) (g : rng) :
  elim_ok ps ms idx r ->
  (idx = len ms -> winner_keys ps <> []) ->
  exists st' view g',
    display_match shuffle sort_values str_lower
      (PyDict (elimination_state names ps ms idx r)) g
    = Ok ((PyDict st', view), g')
    /\ elim_inv st'
    /\ ((round st' = Some r
         /\ round_winners st'
            = round_winners (elimination_state names ps ms idx r)
         /\ forall q, status_of st' q = status_in ps q)
        \/ (round st' = Some (r + 1)
            /\ idx = len ms
            /\ 2 <= len (winner_keys ps)
            /\ 1 <= round_winners st' < len (winner_keys ps)
            /\ (forall q, status_in ps q = Some winner ->
                          status_of st' q = Some active
                          \/ status_of st' q = Some winner)
            /\ (forall q, status_in ps q <> Some winner ->
                          status_of st' q = status_in ps q))).
Proof.
  intros Hok Hwin.
  rewrite display_match_of_elimination by reflexivity.
  pose proof (ok_idx Hok) as Hidx.
  destruct (Z.eq_dec idx (len ms)) as [Hend | Hnotend].
  - rewrite (display_elimination_exhausted names ps ms idx r _ g Hok Hend).
    destruct (winner_keys ps) as [| w [| w2 ws]] eqn:Ews.
    + exfalso. apply (Hwin Hend). reflexivity.
    + (* the champion *)
      assert (Hsw : status_in ps w = Some winner).
      { apply winner_keys_spec. rewrite Ews. left. reflexivity. }
      destruct (status_in_get ps w winner Hsw) as [dw [Hdw Hstw]].
      destruct (crown_champion_spec names ps ms idx r hidden_updates w dw Hdw)
        as [v [Hcrown _]].
      unfold lift. rewrite Hcrown.
      destruct (crown_preserves ps ms idx r w dw Hok Hdw Hstw)
        as [Hok' [Hk' Hs']].
      pose proof (winner_keys_agree ps _ Hk' Hs') as Hwk.
      eexists. exists v, g. split; [reflexivity |]. split.
      * constructor; [exact Hok' |]. right. split; [exact Hend |].
        exists w. rewrite Hwk. exact Ews.
      * left. split; [reflexivity |]. split; [| exact Hs'].
        unfold round_winners.
        cbn [players matchups current_match_index elimination_state].
        rewrite Hwk. reflexivity.
    + (* the next round *)
      rewrite <- Ews.
      destruct (advance_round_spec names ps ms idx r hidden_updates g Hok)
        as [ps3 [v [Hadv [Hok3 [Hk3 [Hbye [Hact Hkeep]]]]]]].
      rewrite Hadv.
      set (ws' := fst (shuffle g (winner_keys ps))) in *.
      assert (Hlen : len ws' = len (winner_keys ps)).
      { unfold len. f_equal. apply Permutation_length. apply shuffle_perm. }
      assert (Hcount : len (winner_keys ps3) = Z.b2z (is_odd ws')).
      { apply bye_is_only_winner; [exact (ok_keys Hok3) | exact Hbye |].
        intros q Hq.
        destruct (status_in ps q) as [[| |] |] eqn:Es.
        - rewrite Hkeep by congruence. congruence.
        - rewrite (Hact q Es Hq). discriminate.
        - rewrite Hkeep by congruence. congruence.
        - rewrite Hkeep by congruence. congruence. }
      pose proof (zip_pairs_length ws') as Hpairs.
      assert (Hbig : 2 <= len (winner_keys ps)).
      { rewrite Ews. unfold len. cbn [List.length]. lia. }
      assert (Hb : 0 <= Z.b2z (is_odd ws') <= 1)
        by (destruct (is_odd ws'); cbn; lia).
      eexists. exists v. eexists. split; [reflexivity |]. split.
      * constructor; [exact Hok3 |]. left. lia.
      * right. split; [reflexivity |]. split; [exact Hend |].
        split; [exact Hbig |]. split; [| split].
        -- unfold round_winners.
           cbn [players matchups current_match_index elimination_state].
           lia.
        -- intros q Hq. unfold status_of.
           cbn [players elimination_state].
           destruct (is_odd ws') eqn:Hodd.
           ++ destruct (String.eqb_spec q (last ws' "")) as [-> | Hne].
              ** right. apply Hbye. reflexivity.
              ** left. apply Hact; [exact Hq | intros _; exact Hne].
           ++ left. apply Hact; [exact Hq | discriminate].
        -- intros q Hq. unfold status_of. cbn [players elimination_state].
           apply Hkeep. exact Hq.
  - (* a pending match *)
    destruct (display_elimination_pending rng shuffle sort_values str_lower
                (elimination_state names ps ms idx r) ms idx r
                hidden_updates g eq_refl eq_refl eq_refl)
      as [v Hv]; [lia |].
    rewrite Hv.
    eexists. exists v, g. split; [reflexivity |]. split.
    + constructor; [exact Hok |]. left. lia.
    + left. split; [reflexivity |]. split; reflexivity.
Qed.

Lemma vote_tie_elimination (st : StateDict) (g : rng) :
  mode st = Some mode_elimination ->
  vote shuffle sort_values str_lower TIE (PyDict st) g
  = display_match shuffle sort_values str_lower (PyDict st) g.
Proof.
  intros Hmode. unfold vote, bind, lift, ret. rewrite Hmode. cbn [field].
  rewrite mode_elimination_is_not_elo, String.eqb_refl. reflexivity.
Qed.

Lemma vote_win_elimination (o : Outcome) (st : StateDict) (g : rng) :
  mode st = Some mode_elimination ->
  o <> TIE ->
  vote shuffle sort_values str_lower o (PyDict st) g
  = match vote_elimination o st with
    | Ok st1 => display_match shuffle sort_values str_lower (PyDict st1) g
    | Raise e => Raise e
    end.
Proof.
  intros Hmode Ho. unfold vote, bind, lift, ret. rewrite Hmode. cbn [field].
  rewrite mode_elimination_is_not_elo, String.eqb_refl.
  destruct o; [| | congruence]; cbn [andb negb];
    destruct (vote_elimination _ st); reflexivity.
Qed.

Lemma settled_has_winner (ps : Dict PlayerData) (ms : list (Item * Item))
  (idx : Z) :
  settled ps ms idx -> idx = len ms -> winner_keys ps <> [].
Proof.
  intros [Hlt | [_ [w Hw]]] Hend; [lia |]. rewrite Hw. discriminate.
Qed.

(** One call of the shell from a well-formed, settled state: the state it
    returns is well-formed and settled again; either the round stays and
    the number of winners it will end with stays, or the round advances
    and that number strictly drops; statuses move forward only, but for
    the reset of winners when the round advances. *)
Lemma elimination_step_spec (st st' : StateDict) :
  elim_inv st ->
  elimination_step shuffle sort_values str_lower st st' ->
  elim_inv st'
  /\ exists r,
      round st = Some r
      /\ ((round st' = Some r
           /\ round_winners st' = round_winners st
           /\ forall q, status_step false (status_of st q) (status_of st' q))
          \/ (round st' = Some (r + 1)
              /\ 2 <= round_winners st
              /\ 1 <= round_winners st' < round_winners st
              /\ forall q,
                   status_step true (status_of st q) (status_of st' q))).
Proof.
  intros Hinv Hstep.
  destruct Hinv as [names ps ms idx r Hok Hsettled].
  assert (Hdisplay :
            forall g g' view,
              display_match shuffle sort_values str_lower
                (PyDict (elimination_state names ps ms idx r)) g
              = Ok ((PyDict st', view), g') ->
              elim_inv st'
              /\ exists r0,
                  round (elimination_state names ps ms idx r) = Some r0
                  /\ ((round st' = Some r0
                       /\ round_winners st'
                          = round_winners (elimination_state names ps ms idx r)
                       /\ forall q,
                            status_step false
                              (status_of (elimination_state names ps ms idx r) q)
                              (status_of st' q))
                      \/ (round st' = Some (r0 + 1)
                          /\ 2 <= round_winners
                                    (elimination_state names ps ms idx r)
                          /\ 1 <= round_winners st'
                             < round_winners
                                 (elimination_state names ps ms idx r)
                          /\ forall q,
                               status_step true
                                 (status_of
                                    (elimination_state names ps ms idx r) q)
                                 (status_of st' q)))).
  { intros g g' view Hrun.
    destruct (display_elimination_spec names ps ms idx r g Hok
                (settled_has_winner ps ms idx Hsettled))
      as [st2 [v2 [g2 [Hrun2 [Hinv2 Hcases]]]]].
    rewrite Hrun2 in Hrun. injection Hrun as <- _ _.
    split; [exact Hinv2 |]. exists r. split; [reflexivity |].
    destruct Hcases as [[Hr [Hrw Hs]] | [Hr [Hend [Hbig _]]]].
    - left. split; [exact Hr |]. split; [exact Hrw |].
      intros q. left. apply Hs.
    - exfalso. destruct Hsettled as [Hlt | [_ [w Hw]]]; [lia |].
      rewrite Hw in Hbig. unfold len in Hbig. cbn in Hbig. lia. }
  destruct Hstep as [o g g' view Hrun | g g' view Hrun].
  - destruct (Outcome_is_tie o) as [-> | Ho].
    + rewrite vote_tie_elimination in Hrun by reflexivity.
      apply (Hdisplay g g' view Hrun).
    + rewrite (vote_win_elimination o (elimination_state names ps ms idx r) g
                 eq_refl Ho) in Hrun.
      pose proof (ok_idx Hok) as Hidx.
      destruct (Z.eq_dec idx (len ms)) as [Hend | Hnotend].
      { (* no match is pending: the subscript raises *)
        exfalso. unfold vote_elimination in Hrun.
        cbn [matchups current_match_index elimination_state field rbind]
          in Hrun.
        rewrite py_index_out_of_range in Hrun by lia. discriminate. }
      assert (Hlt : idx < len ms) by lia.
      destruct (vote_elimination_spec names ps ms idx r o Hok Hlt)
        as [w [l [ps1 [Hvote [Hok1 [Hk1 [Hwl [Haw [Hal [Hsw [Hsl
             [Hother Hcount]]]]]]]]]]]].
      rewrite Hvote in Hrun.
      destruct (display_elimination_spec names ps1 ms (idx + 1) r g Hok1)
        as [st2 [v2 [g2 [Hrun2 [Hinv2 Hcases]]]]].
      { intros _ Hnil. rewrite Hnil in Hcount.
        unfold len in Hcount. cbn [List.length] in Hcount. lia. }
      rewrite Hrun2 in Hrun. injection Hrun as <- _ _.
      split; [exact Hinv2 |]. exists r. split; [reflexivity |].
      assert (Hrw0 : round_winners (elimination_state names ps ms idx r)
                     = len (winner_keys ps) + (len ms - idx)) by reflexivity.
      assert (Hrw1 : round_winners (elimination_state names ps1 ms (idx + 1) r)
                     = len (winner_keys ps1) + (len ms - (idx + 1)))
        by reflexivity.
      rewrite Hrw0.
      destruct Hcases as [[Hr [Hrw Hs]] | [Hr [Hend [Hbig [Hrw [Hact Hkeep]]]]]].
      * left. split; [exact Hr |]. split.
        -- rewrite Hrw, Hrw1. lia.
        -- intros q.
           change (status_of (elimination_state names ps ms idx r) q)
             with (status_in ps q).
           rewrite Hs. unfold status_step.
           destruct (String.eqb_spec q w) as [-> | Hqw].
           ++ right. left. rewrite Haw, Hsw. auto.
           ++ destruct (String.eqb_spec q l) as [-> | Hql].
              ** right. left. rewrite Hal, Hsl. auto.
              ** left. apply Hother; assumption.
      * right. split; [exact Hr |]. split; [lia |]. split; [lia |].
        intros q.
        change (status_of (elimination_state names ps ms idx r) q)
          with (status_in ps q).
        unfold status_step.
        destruct (String.eqb_spec q w) as [-> | Hqw].
        -- rewrite Haw. destruct (Hact w Hsw) as [-> | ->]; auto.
        -- destruct (String.eqb_spec q l) as [-> | Hql].
           ++ rewrite Hal, Hkeep by congruence. rewrite Hsl. auto.
           ++ pose proof (Hother q Hqw Hql) as Hsame.
              destruct (status_in ps q) as [[| |] |] eqn:Es.
              ** rewrite Hkeep by congruence. left. exact Hsame.
              ** destruct (Hact q Hsame) as [-> | ->]; auto.
              ** rewrite Hkeep by congruence. left. exact Hsame.
              ** rewrite Hkeep by congruence. left. exact Hsame.
  - apply (Hdisplay g g' view Hrun).
Qed.

(** [start_tournament] in elimination mode on at least two distinct media
    files: the state it builds. *)
Lemma start_elimination_spec (files_list : list string) (total : Z) (g : rng) :
  NoDup files_list ->
  2 <= len (filter (is_media_file str_lower) files_list) ->
  exists ps view,
    start_tournament shuffle sort_values str_lower path_name files_list
      mode_elimination total g
    = Ok ((PyDict
             (elimination_state
                (dict_comprehension path_name
                   (filter (is_media_file str_lower) files_list))
                ps
                (zip_pairs
                   (fst (shuffle g
                           (filter (is_media_file str_lower) files_list))))
                0 1),
           view),
          snd (shuffle g (filter (is_media_file str_lower) files_list)))
    /\ elim_ok ps
         (zip_pairs
            (fst (shuffle g (filter (is_media_file str_lower) files_list))))
         0 1
    /\ dict_keys ps
       = fst (shuffle g (filter (is_media_file str_lower) files_list))
    /\ (is_odd (fst (shuffle g (filter (is_media_file str_lower) files_list)))
        = true ->
        status_in ps
          (last (fst (shuffle g (filter (is_media_file str_lower) files_list)))
             "")
        = Some winner)
    /\ (forall q,
          In q (fst (shuffle g (filter (is_media_file str_lower) files_list)))
          ->
          (is_odd (fst (shuffle g (filter (is_media_file str_lower) files_list)))
           = true ->
           q <> last (fst (shuffle g
                             (filter (is_media_file str_lower) files_list)))
                  "") ->
          status_in ps q = Some active).
Proof.
  intros Hnd Hmany.
  unfold start_tournament.
  destruct files_list as [| f fl] eqn:Efl;
    [unfold len in Hmany; cbn in Hmany; lia |].
  rewrite <- Efl in *. clear Efl f fl.
  set (files := filter (is_media_file str_lower) files_list) in *.
  assert (Hfiles : NoDup files) by (apply NoDup_filter; exact Hnd).
  destruct (Z.ltb_spec (len files) 2) as [Hfew | _]; [lia |].
  rewrite String.eqb_refl.
  pose proof (shuffle_perm g files) as Hperm.
  unfold bind, random_shuffle.
  destruct (shuffle g files) as [shuffled g1] eqn:Esh. cbn [fst snd] in *.
  assert (Hsh : NoDup shuffled).
  { eapply Permutation_NoDup; [symmetry; exact Hperm | exact Hfiles]. }
  rewrite (dict_comprehension_NoDup _ (fun _ => new_active_player) shuffled Hsh).
  set (names := dict_comprehension path_name files) in *.
  set (ps1 := map (fun k : string => (k, new_active_player)) shuffled) in *.
  change (set_round 1
            (set_current_match_index 0
               (set_matchups (zip_pairs shuffled)
                  (set_players ps1
                     (mkState (Some mode_elimination) (Some names) (Some [])
                        (Some []) None None None None None None)))))
    with (elimination_state names ps1 (zip_pairs shuffled) 0 1).
  assert (Hk1 : dict_keys ps1 = shuffled).
  { unfold dict_keys, ps1. rewrite map_map. cbn [fst]. apply map_id. }
  assert (Hget1 : forall q d, dict_get q ps1 = Some d -> d = new_active_player).
  { intros q d Hd. apply dict_get_In in Hd. unfold ps1 in Hd.
    apply in_map_iff in Hd. destruct Hd as [k [[= _ <-] _]]. reflexivity. }
  assert (Hs1 : forall q, In q shuffled -> status_in ps1 q = Some active).
  { intros q Hq. unfold status_in.
    destruct (dict_keys_get _ q ps1) as [d Hd]; [rewrite Hk1; exact Hq |].
    rewrite Hd, (Hget1 q d Hd). reflexivity. }
  destruct (round_setup names ps1 shuffled 1)
    as [ps2 [Hbye [Hok2 [Hk2 [Hlast Hrest]]]]].
  - rewrite Hk1. exact Hsh.
  - intros q d Hd. rewrite (Hget1 q d Hd). discriminate.
  - exact Hsh.
  - exact Hs1.
  - lia.
  - intros q d k Hd. rewrite (Hget1 q d Hd). discriminate.
  - assert (Hstate :
              (if is_odd shuffled
               then lift (update_player (set_status winner) (last shuffled "")
                            (elimination_state names ps1 (zip_pairs shuffled)
                               0 1))
               else ret (elimination_state names ps1 (zip_pairs shuffled) 0 1))
                g1
              = Ok (elimination_state names ps2 (zip_pairs shuffled) 0 1, g1)).
    { unfold lift, ret. destruct (is_odd shuffled).
      - rewrite Hbye. reflexivity.
      - injection Hbye as ->. reflexivity. }
    rewrite Hstate.
    assert (Hlen : len shuffled = len files).
    { unfold len. f_equal. apply Permutation_length. exact Hperm. }
    pose proof (zip_pairs_length shuffled) as Hpairs.
    assert (Hb : 0 <= Z.b2z (is_odd shuffled) <= 1)
      by (destruct (is_odd shuffled); cbn; lia).
    rewrite display_match_of_elimination by reflexivity.
    destruct (display_elimination_pending rng shuffle sort_values str_lower
                (elimination_state names ps2 (zip_pairs shuffled) 0 1)
                (zip_pairs shuffled) 0 1 hidden_updates g1
                eq_refl eq_refl eq_refl)
      as [v Hv]; [lia |].
    rewrite Hv.
    exists ps2, v. split; [reflexivity |].
    split; [exact Hok2 |]. split; [congruence |].
    split; [exact Hlast |].
    intros q Hq Hne. rewrite (Hrest q Hne). apply Hs1. exact Hq.
Qed.

Lemma start_elimination_inv (files_list : list string) (total : Z)
  (g g' : rng) (st : StateDict) (view : View) :
  NoDup files_list ->
  start_tournament shuffle sort_values str_lower path_name files_list
    mode_elimination total g
  = Ok ((PyDict st, view), g') ->
  elim_inv st.
Proof.
  intros Hnd Hrun.
  assert (Hmany : 2 <= len (filter (is_media_file str_lower) files_list)).
  { unfold start_tournament in Hrun.
    destruct files_list as [| f fl]; [discriminate |].
    destruct (Z.ltb_spec (len (filter (is_media_file str_lower) (f :: fl))) 2)
      as [Hfew | Hmany]; [discriminate | exact Hmany]. }
  destruct (start_elimination_spec files_list total g Hnd Hmany)
    as [ps [v [Hstart [Hok _]]]].
  rewrite Hstart in Hrun. injection Hrun as <- _ _.
  constructor; [exact Hok |]. left.
  pose proof (zip_pairs_length
                (fst (shuffle g (filter (is_media_file str_lower) files_list))))
    as Hpairs.
  assert (Hlen : len (fst (shuffle g
                             (filter (is_media_file str_lower) files_list)))
                 = len (filter (is_media_file str_lower) files_list)).
  { unfold len. f_equal. apply Permutation_length. apply shuffle_perm. }
  destruct (is_odd (fst (shuffle g
                           (filter (is_media_file str_lower) files_list))));
    cbn [Z.b2z] in Hpairs; lia.
Qed.

(** Every state of a bracket is well-formed and settled. *)
Lemma reachable_inv (st : StateDict) :
  elimination_reachable shuffle sort_values str_lower path_name st ->
  elim_inv st.
Proof.
  induction 1 as [files_list total g g' st view Hnd Hrun | st st' _ IH Hstep].
  - eapply start_elimination_inv; eauto.
  - apply (elimination_step_spec st st' IH Hstep).
Qed.





Lemma is_odd_perm (l l' : list Item) :
  Permutation l l' -> is_odd l = is_odd l'.
Proof.
  intros H. unfold is_odd. rewrite (Permutation_length H). reflexivity.
Qed.

(** C9: in elimination mode a round entered by an odd number of distinct
    items, be it the first round built by [start_tournament] or a later
    one built by [display_match] from the winners of the round before,
    pairs the shuffled items consecutively but for the last one, which is
    in no matchup and is the one player with status winner; the paired
    ones are active. *)
Theorem bye_on_odd_count :
  (forall files_list total g,
      NoDup files_list ->
      2 <= len (filter (is_media_file str_lower) files_list) ->
      is_odd (filter (is_media_file str_lower) files_list) = true ->
      exists st view shuffled,
        shuffled = fst (shuffle g (filter (is_media_file str_lower) files_list))
        /\ start_tournament shuffle sort_values str_lower path_name files_list
             mode_elimination total g
           = Ok ((PyDict st, view),
                 snd (shuffle g (filter (is_media_file str_lower) files_list)))
        /\ matchups st = Some (zip_pairs shuffled)
        /\ flatten_matches (zip_pairs shuffled) = removelast shuffled
        /\ ~ In (last shuffled "") (flatten_matches (zip_pairs shuffled))
        /\ (forall q, status_of st q = Some winner <-> q = last shuffled "")
        /\ (forall q, In q (removelast shuffled) ->
                      status_of st q = Some active))
  /\ (forall names ps ms idx r g,
        elim_ok ps ms idx r ->
        idx = len ms ->
        3 <= len (winner_keys ps) ->
        is_odd (winner_keys ps) = true ->
        exists st' view shuffled,
          shuffled = fst (shuffle g (winner_keys ps))
          /\ display_match shuffle sort_values str_lower
               (PyDict (elimination_state names ps ms idx r)) g
             = Ok ((PyDict st', view), snd (shuffle g (winner_keys ps)))
          /\ round st' = Some (r + 1)
          /\ matchups st' = Some (zip_pairs shuffled)
          /\ flatten_matches (zip_pairs shuffled) = removelast shuffled
          /\ ~ In (last shuffled "") (flatten_matches (zip_pairs shuffled))
          /\ (forall q, status_of st' q = Some winner <-> q = last shuffled "")
          /\ (forall q, In q (removelast shuffled) ->
                        status_of st' q = Some active)).
Proof.
  split.
  - intros files_list total g Hnd Hmany Hodd.
    destruct (start_elimination_spec files_list total g Hnd Hmany)
      as [ps [view [Hstart [Hok [Hkeys [Hbye Hact]]]]]].
    pose proof (shuffle_perm g (filter (is_media_file str_lower) files_list))
      as Hperm.
    set (shuffled := fst (shuffle g
                            (filter (is_media_file str_lower) files_list)))
      in *.
    assert (Hodd' : is_odd shuffled = true).
    { rewrite (is_odd_perm _ _ Hperm). exact Hodd. }
    assert (Hsh : NoDup shuffled).
    { rewrite <- Hkeys. exact (ok_keys Hok). }
    destruct (zip_pairs_bye shuffled Hsh) as [_ [_ [Hpairs _]]].
    destruct (Hpairs Hodd') as [Hflat [Hnotin _]].
    assert (Hne : shuffled <> []) by (intros E; rewrite E in Hodd'; discriminate).
    eexists. exists view, shuffled.
    split; [reflexivity |]. split; [exact Hstart |].
    split; [reflexivity |]. split; [exact Hflat |]. split; [exact Hnotin |].
    unfold status_of. cbn [players elimination_state]. split.
    + intros q. split.
      * intros Hq.
        destruct (String.eqb_spec q (last shuffled "")) as [-> | Hq'];
          [reflexivity |].
        exfalso.
        destruct (status_in_get ps q winner Hq) as [d [Hd _]].
        assert (Hin : In q shuffled).
        { rewrite <- Hkeys. eapply dict_get_keys. exact Hd. }
        rewrite (Hact q Hin (fun _ => Hq')) in Hq. discriminate.
      * intros ->. apply Hbye. exact Hodd'.
    + intros q Hq. apply Hact; [apply removelast_In; exact Hq |].
      intros _ ->. apply (last_not_in_removelast shuffled Hsh Hne). exact Hq.
  - intros names ps ms idx r g Hok Hend Hthree Hodd.
    destruct (advance_round_spec names ps ms idx r hidden_updates g Hok)
      as [ps3 [view [Hadv [Hok3 [Hk3 [Hbye [Hact Hkeep]]]]]]].
    pose proof (shuffle_perm g (winner_keys ps)) as Hperm.
    set (shuffled := fst (shuffle g (winner_keys ps))) in *.
    assert (Hodd' : is_odd shuffled = true).
    { rewrite (is_odd_perm _ _ Hperm). exact Hodd. }
    assert (Hsh : NoDup shuffled).
    { eapply Permutation_NoDup; [symmetry; exact Hperm |].
      apply winner_keys_NoDup. exact (ok_keys Hok). }
    destruct (zip_pairs_bye shuffled Hsh) as [_ [_ [Hpairs _]]].
    destruct (Hpairs Hodd') as [Hflat [Hnotin _]].
    assert (Hne : shuffled <> []) by (intros E; rewrite E in Hodd'; discriminate).
    eexists. exists view, shuffled.
    split; [reflexivity |]. split.
    { rewrite display_match_of_elimination by reflexivity.
      rewrite (display_elimination_exhausted names ps ms idx r _ g Hok Hend).
      destruct (winner_keys ps) as [| a [| b l]] eqn:Ews;
        [unfold len in Hthree; cbn in Hthree; lia
        | unfold len in Hthree; cbn in Hthree; lia |].
      exact Hadv. }
    split; [reflexivity |]. split; [reflexivity |].
    split; [exact Hflat |]. split; [exact Hnotin |].
    unfold status_of. cbn [players elimination_state]. split.
    + intros q. split.
      * intros Hq.
        destruct (String.eqb_spec q (last shuffled "")) as [-> | Hq'];
          [reflexivity |].
        exfalso.
        destruct (status_in ps q) as [[| |] |] eqn:Es.
        -- rewrite Hkeep in Hq by congruence. congruence.
        -- rewrite (Hact q Es (fun _ => Hq')) in Hq. discriminate.
        -- rewrite Hkeep in Hq by congruence. congruence.
        -- rewrite Hkeep in Hq by congruence. congruence.
      * intros ->. apply Hbye. exact Hodd'.
    + intros q Hq. apply Hact.
      * apply winner_keys_spec. eapply Permutation_in; [exact Hperm |].
        apply removelast_In. exact Hq.
      * intros _ ->. apply (last_not_in_removelast shuffled Hsh Hne). exact Hq.
Qed.

Section Ranking.

Hypothesis sort_perm :
  forall (Row : Type) (key : Row -> Z) (l : list Row),
    Permutation (sort_values Row key l) l.
Hypothesis sort_sorted :
  forall (Row : Type) (key : Row -> Z) (l : list Row),
    StronglySorted (fun a b => key b <= key a) (sort_values Row key l).

Lemma combine_split (X Y : Type) (l1 : list X) (l2 : list Y) :
  List.length l1 = List.length l2 ->
  map fst (combine l1 l2) = l1 /\ map snd (combine l1 l2) = l2.
Proof.
  revert l2. induction l1 as [| x l1 IH]; intros [| y l2] Hlen;
    try discriminate; [split; reflexivity |].
  cbn [combine map fst snd]. injection Hlen as Hlen.
  destruct (IH l2 Hlen) as [H1 H2]. rewrite H1, H2. split; reflexivity.
Qed.

(** The row with the strictly greatest key comes first. *)
Lemma sorted_head (rows : list RankRow) (c : RankRow) :
  In c rows ->
  (forall x, In x rows -> x <> c -> rank_order x < rank_order c) ->
  exists tail, sort_values RankRow rank_order rows = c :: tail.
Proof.
  intros Hc Hmax.
  pose proof (sort_perm RankRow rank_order rows) as Hperm.
  pose proof (sort_sorted RankRow rank_order rows) as Hsorted.
  destruct (sort_values RankRow rank_order rows) as [| h t].
  - apply Permutation_nil in Hperm. subst. destruct Hc.
  - exists t. f_equal.
    assert (Hh : In h rows).
    { eapply Permutation_in; [exact Hperm | left; reflexivity]. }
    assert (Hc' : In c (h :: t)).
    { eapply Permutation_in; [symmetry; exact Hperm | exact Hc]. }
    destruct Hc' as [-> | Hct]; [reflexivity |].
    inversion Hsorted as [| x xs _ Hall]; subst.
    rewrite Forall_forall in Hall. specialize (Hall c Hct).
    destruct (RankRow_eq_dec h c) as [-> | Hne]; [reflexivity |].
    specialize (Hmax h Hh Hne). lia.
Qed.

(** C8: on a state of a bracket started on distinct files whose round is
    exhausted with exactly one winner, [display_match] records
    [round + 1] as the champion's [eliminated_in_round], which is strictly
    above every other player's sort key; the ranking table is the rows
    sorted by that key in descending order, numbered 1..n, with one row
    per player, and its first row is the champion with rank 1. *)
Theorem champion_is_ranked_first (st : StateDict) (ps : Dict PlayerData)
  (ms : list (Item * Item)) (idx r : Z) (w : Item) (g : rng) :
  elimination_reachable shuffle sort_values str_lower path_name st ->
  players st = Some ps ->
  matchups st = Some ms ->
  current_match_index st = Some idx ->
  round st = Some r ->
  len ms <= idx ->
  winner_keys ps = [w] ->
  exists names ps' view rows sorted,
    original_filenames st = Some names
    /\ display_match shuffle sort_values str_lower (PyDict st) g
       = Ok ((PyDict (set_players ps' st), view), g)
    /\ info_text view = gr_value msg_champion
    /\ ranking_table view = mkUpdate (Some (ElimTable rows)) None (Some true)
    /\ (exists dw, dict_get w ps' = Some dw
                   /\ eliminated_in_round dw = Some (r + 1))
    /\ (forall p d, dict_get p ps' = Some d -> p <> w -> rank_key d <= r)
    /\ dict_keys ps' = dict_keys ps
    /\ Permutation sorted (map (rank_row names) ps')
    /\ StronglySorted (fun a b => rank_order b <= rank_order a) sorted
    /\ rows = combine (map Z.of_nat (seq 1 (List.length ps)))
                (map rank_name sorted)
    /\ map fst rows = map Z.of_nat (seq 1 (List.length ps))
    /\ Permutation (map snd rows)
         (map (fun p => dict_get_default p "N/A" names) (dict_keys ps))
    /\ nth_error rows 0 = Some (1, dict_get_default w "N/A" names).
Proof.
  intros Hreach Hps Hms Hidx Hr Hend Hwk.
  pose proof (reachable_inv st Hreach) as Hinv.
  destruct Hinv as [names ps0 ms0 idx0 r0 Hok Hsettled].
  cbn [players matchups current_match_index round elimination_state]
    in Hps, Hms, Hidx, Hr.
  injection Hps as ->. injection Hms as ->. injection Hidx as ->.
  injection Hr as ->.
  pose proof (ok_idx Hok) as Hrange.
  assert (Hidx : idx = len ms) by lia.
  assert (Hsw : status_in ps w = Some winner).
  { apply winner_keys_spec. rewrite Hwk. left. reflexivity. }
  destruct (status_in_get ps w winner Hsw) as [dw [Hdw Hstw]].
  destruct (crown_champion_spec names ps ms idx r hidden_updates w dw Hdw)
    as [view [Hcrown [Htable Hinfo]]].
  destruct (crown_preserves ps ms idx r w dw Hok Hdw Hstw) as [Hok' [Hk' Hs']].
  set (ps' := dict_set w (set_eliminated_in_round (r + 1) dw) ps) in *.
  set (rows0 := map (rank_row names) ps') in *.
  set (sorted := sort_values RankRow rank_order rows0).
  assert (Hlen_ps : List.length ps' = List.length ps).
  { rewrite <- (length_map fst ps'), <- (length_map fst ps).
    fold (dict_keys ps') (dict_keys ps). rewrite Hk'. reflexivity. }
  assert (Hlen_sorted : List.length sorted = List.length ps).
  { unfold sorted.
    rewrite (Permutation_length (sort_perm RankRow rank_order rows0)).
    unfold rows0. rewrite length_map. exact Hlen_ps. }
  assert (Hrows : ranked sort_values rows0
                  = combine (map Z.of_nat (seq 1 (List.length ps)))
                      (map rank_name sorted)).
  { unfold ranked. fold sorted. cbv zeta. rewrite Hlen_sorted. reflexivity. }
  destruct (combine_split _ _ (map Z.of_nat (seq 1 (List.length ps)))
              (map rank_name sorted)) as [Hfst Hsnd].
  { rewrite !length_map, length_seq. symmetry. exact Hlen_sorted. }
  assert (Hget' : dict_get w ps' = Some (set_eliminated_in_round (r + 1) dw)).
  { unfold ps'. apply dict_get_set_same. }
  assert (Hothers : forall p d, dict_get p ps' = Some d -> p <> w ->
                      rank_key d <= r).
  { intros p d Hd Hne. unfold ps' in Hd.
    rewrite dict_get_set_other in Hd by exact Hne.
    pose proof (ok_round Hok) as Hr1. unfold rank_key.
    destruct (eliminated_in_round d) as [k |] eqn:Ek; [| lia].
    destruct (@ok_elim _ _ _ _ Hok p d k Hd Ek) as [Hle | [Hwin _]];
      [exact Hle |].
    exfalso. apply Hne.
    assert (Hin : In p (winner_keys ps)).
    { apply winner_keys_spec. unfold status_in. rewrite Hd. exact Hwin. }
    rewrite Hwk in Hin. destruct Hin as [<- | []]. reflexivity. }
  set (champion := rank_row names (w, set_eliminated_in_round (r + 1) dw)).
  destruct (sorted_head rows0 champion) as [tail Hhead].
  { unfold rows0. apply in_map. apply dict_get_In. exact Hget'. }
  { intros x Hx Hne. unfold rows0 in Hx. apply in_map_iff in Hx.
    destruct Hx as [[p d] [<- Hin]].
    apply (dict_In_get _ p ps' d (ok_keys Hok')) in Hin.
    destruct (String.eqb_spec p w) as [-> | Hpw].
    - exfalso. apply Hne. rewrite Hget' in Hin. injection Hin as <-.
      reflexivity.
    - pose proof (Hothers p d Hin Hpw) as Hle.
      unfold champion, rank_row, rank_key in *. cbn [rank_order snd fst] in *.
      cbn [eliminated_in_round set_eliminated_in_round]. lia. }
  exists names, ps', view, (ranked sort_values rows0), sorted.
  split; [reflexivity |]. split.
  { rewrite display_match_of_elimination by reflexivity.
    rewrite (display_elimination_exhausted names ps ms idx r _ g Hok Hidx).
    rewrite Hwk. unfold lift. rewrite Hcrown. reflexivity. }
  split; [exact Hinfo |]. split; [exact Htable |].
  split; [eexists; split; [exact Hget' | reflexivity] |].
  split; [exact Hothers |]. split; [exact Hk' |].
  split; [apply sort_perm |]. split; [apply sort_sorted |].
  split; [exact Hrows |]. rewrite Hrows.
  split; [exact Hfst |]. split.
  - assert (Hnames : map rank_name rows0
                     = map (fun p => dict_get_default p "N/A" names)
                         (dict_keys ps)).
    { rewrite <- Hk'. unfold rows0, dict_keys. rewrite !map_map. reflexivity. }
    rewrite Hsnd, <- Hnames. unfold sorted.
    apply Permutation_map. apply sort_perm.
  - unfold sorted. rewrite Hhead.
    destruct (List.length ps) as [| n] eqn:En.
    + exfalso. fold sorted in Hlen_sorted. unfold sorted in Hlen_sorted.
      rewrite Hhead in Hlen_sorted. discriminate.
    + reflexivity.
Qed.

End Ranking.

End Shuffled.

End EliminationMode.

(** ** The example brackets *)

Lemma insert_by_desc_perm (Row : Type) (key : Row -> Z) (x : Row)
  (l : list Row) :
  Permutation (insert_by_desc key x l) (x :: l).
Proof.
  induction l as [| y l IH]; cbn [insert_by_desc]; [reflexivity |].
  destruct (key y <? key x); [reflexivity |].
  rewrite IH. apply perm_swap.
Qed.

Lemma sort_insertion_perm (Row : Type) (key : Row -> Z) (l : list Row) :
  Permutation (sort_insertion key l) l.
Proof.
  induction l as [| x l IH]; cbn [sort_insertion fold_right]; [reflexivity |].
  rewrite insert_by_desc_perm. constructor. exact IH.
Qed.

Lemma insert_by_desc_sorted (Row : Type) (key : Row -> Z) (x : Row)
  (l : list Row) :
  StronglySorted (fun a b => key b <= key a) l ->
  StronglySorted (fun a b => key b <= key a) (insert_by_desc key x l).
Proof.
  induction l as [| y l IH]; intros Hs; cbn [insert_by_desc].
  - constructor; constructor.
  - inversion Hs as [| z zs Hs' Hall]; subst.
    destruct (Z.ltb_spec (key y) (key x)) as [Hlt | Hge].
    + constructor; [exact Hs |]. constructor; [lia |].
      rewrite Forall_forall in *. intros b Hb. specialize (Hall b Hb). lia.
    + constructor; [apply IH; exact Hs' |].
      rewrite Forall_forall in *. intros b Hb.
      apply (Permutation_in _ (insert_by_desc_perm Row key x l)) in Hb.
      destruct Hb as [<- | Hb]; [lia | apply Hall; exact Hb].
Qed.

Lemma sort_insertion_sorted (Row : Type) (key : Row -> Z) (l : list Row) :
  StronglySorted (fun a b => key b <= key a) (sort_insertion key l).
Proof.
  induction l as [| x l IH]; cbn [sort_insertion fold_right].
  - constructor.
  - apply insert_by_desc_sorted. exact IH.
Qed.

Lemma returned_state_inv (G : Type) (r : Result ((StateObj * View) * G))
  (st : StateDict) :
  returned_state r = Some st ->
  exists view g', r = Ok ((PyDict st, view), g').
Proof.
  destruct r as [[[[| repr | d] view] g'] | e]; try discriminate.
  intros [= ->]. exists view, g'. reflexivity.
Qed.










Lemma two_files_start :
  returned_state
    (start_tournament shuffle_id sort_insertion lower_plain name_plain
       ["a.mp4"; "b.mp4"] mode_elimination 5 tt)
  = Some bracket_of_two.
Proof. vm_compute. reflexivity. Qed.

Lemma two_files_vote :
  returned_state
    (vote shuffle_id sort_insertion lower_plain A (PyDict bracket_of_two) tt)
  = Some bracket_of_two_done.
Proof. vm_compute. reflexivity. Qed.

Lemma bracket_of_two_done_reachable :
  elimination_reachable shuffle_id sort_insertion lower_plain name_plain
    bracket_of_two_done.
Proof.
  destruct (returned_state_inv _ _ _ two_files_start) as [v0 [g0 Hstart]].
  destruct (returned_state_inv _ _ _ two_files_vote) as [v1 [g1 Hvote]].
  eapply reach_step.
  - eapply reach_start; [| exact Hstart].
    repeat constructor; cbn [In]; intuition discriminate.
  - eapply step_vote. exact Hvote.
Qed.

Lemma champion_is_ranked_first_witness :
  exists view rows,
    returned_state
      (display_match shuffle_id sort_insertion lower_plain
         (PyDict bracket_of_two_done) tt)
    <> None
    /\ ranking_table view = mkUpdate (Some (ElimTable rows)) None (Some true)
    /\ nth_error rows 0 = Some (1, "a.mp4")
    /\ map fst rows = [1; 2].
Proof.
  destruct (champion_is_ranked_first unit shuffle_id sort_insertion
              lower_plain name_plain shuffle_id_perm
              sort_insertion_perm sort_insertion_sorted
              bracket_of_two_done
              [("a.mp4", player winner (Some 2));
               ("b.mp4", player eliminated (Some 1))]
              [("a.mp4", "b.mp4")] 1 1 "a.mp4" tt
              bracket_of_two_done_reachable eq_refl eq_refl eq_refl eq_refl)
    as [names [ps' [view [rows [sorted [Hnames [Hrun [_ [Htable [_ [_ [_ [_
         [_ [_ [Hfst [_ Hfirst]]]]]]]]]]]]]]]]].
  - unfold len. cbn. lia.
  - reflexivity.
  - exists view, rows. split; [rewrite Hrun; discriminate |].
    split; [exact Htable |].
    injection Hnames as <-. split; [exact Hfirst | exact Hfst].
Defined.

Lemma five_players_round_over_ok :
  elim_ok five_players_round_over
    [("a.mp4", "b.mp4"); ("c.mp4", "d.mp4")] 2 1.
Proof.
  constructor.
  - unfold dict_keys. cbn [map fst five_players_round_over].
    repeat constructor; cbn [In]; intuition discriminate.
  - intros p d H. apply dict_get_In in H. cbn [five_players_round_over In] in H.
    repeat (destruct H as [[= <- <-] | H]; [discriminate |]). destruct H.
  - unfold len. cbn. lia.
  - cbn. repeat constructor; cbn [In]; intuition discriminate.
  - cbn. intros p [].
  - lia.
  - intros p d k H. apply dict_get_In in H.
    cbn [five_players_round_over In] in H.
    repeat (destruct H as [[= <- <-] | H];
            [cbn; intros [= <-] || discriminate; left; lia |]).
    destruct H.
Qed.

Lemma three_files_NoDup : NoDup ["a.mp4"; "b.mp4"; "c.mp4"].
Proof. repeat constructor; cbn [In]; intuition discriminate. Qed.

Lemma bye_on_odd_count_witness :
  (exists st view,
      start_tournament shuffle_id sort_insertion lower_plain name_plain
        ["a.mp4"; "b.mp4"; "c.mp4"] mode_elimination 5 tt
      = Ok ((PyDict st, view), tt)
      /\ matchups st = Some [("a.mp4", "b.mp4")]
      /\ status_of st "c.mp4" = Some winner
      /\ status_of st "a.mp4" = Some active)
  /\ (exists st' view,
        display_match shuffle_id sort_insertion lower_plain
          (PyDict (elimination_state four_names five_players_round_over
                     [("a.mp4", "b.mp4"); ("c.mp4", "d.mp4")] 2 1)) tt
        = Ok ((PyDict st', view), tt)
        /\ matchups st' = Some [("a.mp4", "c.mp4")]
        /\ status_of st' "e.mp4" = Some winner
        /\ status_of st' "a.mp4" = Some active).
Proof.
  destruct (bye_on_odd_count unit shuffle_id sort_insertion lower_plain
              name_plain shuffle_id_perm) as [Hstart Hnext].
  split.
  - destruct (Hstart ["a.mp4"; "b.mp4"; "c.mp4"] 5 tt three_files_NoDup)
      as [st [view [shuffled [-> [Hrun [Hms [_ [_ [Hwin Hact]]]]]]]]].
    + unfold len. cbn. lia.
    + reflexivity.
    + exists st, view. split; [exact Hrun |]. split; [exact Hms |].
      split; [apply Hwin; reflexivity |].
      apply Hact. cbn. left. reflexivity.
  - destruct (Hnext four_names five_players_round_over
                [("a.mp4", "b.mp4"); ("c.mp4", "d.mp4")] 2 1 tt
                five_players_round_over_ok)
      as [st' [view [shuffled [-> [Hrun [_ [Hms [_ [_ [Hwin Hact]]]]]]]]]].
    + reflexivity.
    + unfold len. cbn. lia.
    + reflexivity.
    + exists st', view. split; [exact Hrun |]. split; [exact Hms |].
      split; [apply Hwin; reflexivity |].
      apply Hact. cbn. left. reflexivity.
Defined.

(** * Further properties of the engine *)

(** ** RatingCalculator: conservation and direction *)

Section RatingMore.

Local Open Scope R_scope.








End RatingMore.

(** ** Media files and [start_tournament] *)

Lemma dict_get_map_keys (V : Type) (f : Item -> V) (l : list Item) (q : Item) :
  In q l -> dict_get q (map (fun k => (k, f k)) l) = Some (f q).
Proof.
  induction l as [| k l IH]; intros Hq; [destruct Hq |].
  cbn [map dict_get].
  destruct (String.eqb_spec q k) as [-> | Hne]; [reflexivity |].
  apply IH. destruct Hq as [-> | Hq]; [congruence | exact Hq].
Qed.

Lemma half_of (m b n : Z) : 2 * m + b = n -> 0 <= b <= 1 -> m = n / 2.
Proof.
  intros H Hb. apply (Z.div_unique n 2 m b); lia.
Qed.

Section StartFacts.

Variable rng : Type.
Variable shuffle : rng -> list Item -> list Item * rng.
Variable sort_values : forall Row : Type, (Row -> Z) -> list Row -> list Row.
Variable str_lower : string -> string.
Variable path_name : string -> string.

(** X3: whatever [str.lower] does, a file that [is_video_file] accepts is
    accepted by [is_media_file]: the four video extensions are among the
    supported ones. *)
Theorem video_file_is_media_file (filename : string) :
  is_video_file str_lower filename = true ->
  is_media_file str_lower filename = true.
Proof.
  unfold is_video_file, is_media_file. rewrite !existsb_exists.
  intros [ext [Hin Hend]]. exists ext. split; [| exact Hend].
  unfold VIDEO_EXTENSIONS in Hin. unfold SUPPORTED_EXTENSIONS.
  cbn [In] in Hin.
  destruct Hin as [<- | [<- | [<- | [<- | []]]]];
    repeat (try (left; reflexivity); right).
Qed.

(** X4: when fewer than two of the files are media files,
    [start_tournament] creates no tournament, whatever the mode: it
    returns [None] as the state, draws nothing from the random generator
    and does not raise; the view carries the not-enough-files message,
    or, for an empty list, no update at all. *)
Theorem start_needs_two_media_files (files_list : list string)
  (tournament_type : string) (total : Z) (g : rng) :
  len (filter (is_media_file str_lower) files_list) < 2 ->
  exists view,
    start_tournament shuffle sort_values str_lower path_name files_list
      tournament_type total g
    = Ok ((PyNone, view), g)
    /\ (files_list <> [] -> info_text view = gr_value msg_not_enough_files)
    /\ (files_list = [] -> view = no_updates).
Proof.
  intros Hfew. unfold start_tournament.
  destruct files_list as [| f fl] eqn:Efl.
  - exists no_updates. split; [reflexivity |]. split; [congruence | reflexivity].
  - destruct (Z.ltb_spec (len (filter (is_media_file str_lower) (f :: fl))) 2)
      as [_ | Hmany]; [| lia].
    eexists. split; [reflexivity |]. split; [reflexivity | discriminate].
Qed.

Section StartShuffled.

Hypothesis shuffle_perm : forall g l, Permutation (fst (shuffle g l)) l.

(** X5: on distinct files of which at least two are media files,
    [start_tournament] in elimination mode returns a state with one player
    per media file and none for the others, the display name of each
    media file, half as many matchups as media files (rounded down), every
    item in at most one matchup, every matched player active, round 1 and
    the cursor on the first match. *)
Theorem elimination_start_state (files_list : list string) (total : Z)
  (g : rng) :
  NoDup files_list ->
  2 <= len (filter (is_media_file str_lower) files_list) ->
  exists st view names ps ms,
    start_tournament shuffle sort_values str_lower path_name files_list
      mode_elimination total g
    = Ok ((PyDict st, view),
          snd (shuffle g (filter (is_media_file str_lower) files_list)))
    /\ mode st = Some mode_elimination
    /\ original_filenames st = Some names
    /\ (forall q, In q (filter (is_media_file str_lower) files_list) ->
                  dict_get q names = Some (path_name q))
    /\ players st = Some ps
    /\ Permutation (dict_keys ps) (filter (is_media_file str_lower) files_list)
    /\ matchups st = Some ms
    /\ len ms = len (filter (is_media_file str_lower) files_list) / 2
    /\ NoDup (flatten_matches ms)
    /\ (forall q, In q (flatten_matches ms) -> status_of st q = Some active)
    /\ round st = Some 1
    /\ current_match_index st = Some 0.
Proof.
  intros Hnd Hmany.
  destruct (start_elimination_spec rng shuffle sort_values str_lower path_name
              shuffle_perm files_list total g Hnd Hmany)
    as [ps [view [Hstart [Hok [Hkeys _]]]]].
  pose proof (shuffle_perm g (filter (is_media_file str_lower) files_list))
    as Hperm.
  set (files := filter (is_media_file str_lower) files_list) in *.
  set (shuffled := fst (shuffle g files)) in *.
  assert (Hfiles : NoDup files) by (apply NoDup_filter; exact Hnd).
  eexists. exists view, (dict_comprehension path_name files), ps,
    (zip_pairs shuffled).
  split; [exact Hstart |]. split; [reflexivity |]. split; [reflexivity |].
  split.
  { intros q Hq. rewrite (dict_comprehension_NoDup _ path_name files Hfiles).
    apply dict_get_map_keys. exact Hq. }
  split; [reflexivity |]. split; [rewrite Hkeys; exact Hperm |].
  split; [reflexivity |]. split.
  { pose proof (zip_pairs_length shuffled) as Hpairs.
    assert (Hlen : len shuffled = len files).
    { unfold len. f_equal. apply Permutation_length. exact Hperm. }
    apply (half_of _ (Z.b2z (is_odd shuffled))); [lia |].
    destruct (is_odd shuffled); cbn; lia. }
  split; [exact (ok_matchups Hok) |]. split.
  { intros q Hq. unfold status_of. cbn [players elimination_state].
    apply (ok_pending Hok). exact Hq. }
  split; reflexivity.
Qed.

End StartShuffled.

End StartFacts.

Lemma video_file_is_media_file_witness :
  is_video_file lower_plain "clip.mov" = true
  /\ is_media_file lower_plain "clip.mov" = true.
Proof.
  split; [reflexivity |].
  apply (video_file_is_media_file lower_plain "clip.mov"). reflexivity.
Defined.

Lemma start_needs_two_media_files_witness :
  exists view,
    start_tournament shuffle_id sort_insertion lower_plain name_plain
      ["notes.txt"; "a.mp4"] mode_elo 3 tt
    = Ok ((PyNone, view), tt)
    /\ info_text view = gr_value msg_not_enough_files.
Proof.
  destruct (start_needs_two_media_files unit shuffle_id sort_insertion
              lower_plain name_plain ["notes.txt"; "a.mp4"] mode_elo 3 tt)
    as [view [Hrun [Hinfo _]]].
  - unfold len. cbn. lia.
  - exists view. split; [exact Hrun |]. apply Hinfo. discriminate.
Defined.

Lemma elimination_start_state_witness :
  exists st view ps ms,
    start_tournament shuffle_id sort_insertion lower_plain name_plain
      ["a.mp4"; "notes.txt"; "b.png"; "c.mp4"] mode_elimination 5 tt
    = Ok ((PyDict st, view), tt)
    /\ players st = Some ps
    /\ Permutation (dict_keys ps) ["a.mp4"; "b.png"; "c.mp4"]
    /\ matchups st = Some ms
    /\ len ms = 1.
Proof.
  destruct (elimination_start_state unit shuffle_id sort_insertion lower_plain
              name_plain shuffle_id_perm
              ["a.mp4"; "notes.txt"; "b.png"; "c.mp4"] 5 tt)
    as [st [view [names [ps [ms [Hrun [_ [_ [_ [Hps [Hperm [Hms [Hlen _]]]]]]]]]]]]].
  - repeat constructor; cbn [In]; intuition discriminate.
  - unfold len. cbn. lia.
  - exists st, view, ps, ms. repeat split; assumption.
Defined.

(** ** PairingEngine: who gets paired, and how many *)

Lemma flatten_matches_app (l1 l2 : list (Item * Item)) :
  flatten_matches (l1 ++ l2) = flatten_matches l1 ++ flatten_matches l2.
Proof. unfold flatten_matches. apply flat_map_app. Qed.

Lemma flatten_matches_length (ms : list (Item * Item)) :
  len (flatten_matches ms) = 2 * len ms.
Proof.
  unfold len. induction ms as [| m ms IH]; [reflexivity |].
  cbn [flatten_matches flat_map app List.length] in *.
  fold (flatten_matches ms). lia.
Qed.

Lemma len_app (V : Type) (l1 l2 : list V) : len (l1 ++ l2) = len l1 + len l2.
Proof. unfold len. rewrite length_app. lia. Qed.

Lemma pair_bracket_incl (state : StateDict) (bracket : list Item) :
  forall nm up nm' up' x,
    pair_bracket state bracket nm up = Ok (nm', up') ->
    In x (flatten_matches nm' ++ up') ->
    In x (flatten_matches nm ++ up ++ bracket).
Proof.
  induction bracket as [| y | p1 p2 rest IH] using list_pairs_ind;
    intros nm up nm' up' x Hrun Hx.
  - injection Hrun as <- <-. rewrite app_nil_r. exact Hx.
  - discriminate.
  - cbn [pair_bracket] in Hrun.
    destruct (has_played p1 p2 state) as [played | e]; [| discriminate].
    cbn [rbind] in Hrun.
    destruct played; cbn [negb] in Hrun;
      specialize (IH _ _ _ _ x Hrun Hx);
      rewrite ?flatten_matches_app in IH;
      cbn [flatten_matches flat_map fst snd app] in IH;
      rewrite !in_app_iff in *; cbn [In] in *; tauto.
Qed.

(** With nothing played yet a bracket of even length is paired as it
    stands and the carry-forward list is left alone. *)
Lemma pair_bracket_no_history (state : StateDict) (bracket : list Item) :
  match_history state = Some [] ->
  Nat.even (List.length bracket) = true ->
  forall nm up,
    pair_bracket state bracket nm up = Ok (nm ++ zip_pairs bracket, up).
Proof.
  intros Hh.
  induction bracket as [| y | p1 p2 rest IH] using list_pairs_ind;
    intros Heven nm up.
  - cbn. rewrite app_nil_r. reflexivity.
  - discriminate.
  - rewrite (pair_bracket_step state [] Hh). cbn [pair_in existsb orb].
    rewrite IH by exact Heven.
    rewrite zip_pairs_cons, <- app_assoc. reflexivity.
Qed.

Lemma group_get_incl (s : Z) (g : list (Z * list Item)) (x : Item) :
  In x (group_get s g) -> In x (flat_map snd g).
Proof.
  induction g as [| [s' l] g IH]; cbn [group_get flat_map snd];
    [intros [] |].
  rewrite in_app_iff. destruct (s =? s'); [left; assumption |].
  intros H. right. apply IH. exact H.
Qed.

Section PairingMore.

Variable rng : Type.
Variable shuffle : rng -> list Item -> list Item * rng.
Hypothesis shuffle_perm : forall g l, Permutation (fst (shuffle g l)) l.

Lemma swiss_loop_incl (state : StateDict) (groups : list (Z * list Item))
  (keys : list Item) (scores : list Z) :
  (forall s x, In x (group_get s groups) -> In x keys) ->
  forall nm up g ms g',
    swiss_loop shuffle state groups scores nm up g = Ok (ms, g') ->
    (forall x, In x (flatten_matches nm ++ up) -> In x keys) ->
    forall x, In x (flatten_matches ms) -> In x keys.
Proof.
  intros Hgroups.
  induction scores as [| score rest IH]; intros nm up g ms g' Hrun Hin x Hx.
  - injection Hrun as <- <-. apply Hin. apply in_or_app. left. exact Hx.
  - rewrite swiss_loop_step in Hrun. cbv zeta in Hrun.
    destruct (pop_odd_spec (up ++ fst (shuffle g (group_get score groups))))
      as [Hsplit _].
    destruct (pair_bracket state _ nm _) as [[nm' up'] | e] eqn:E;
      [| discriminate].
    apply (IH nm' up' _ ms g' Hrun); [| exact Hx].
    intros y Hy. apply (pair_bracket_incl _ _ _ _ _ _ y E) in Hy.
    rewrite !in_app_iff in Hy.
    assert (Hl : In y (up ++ fst (shuffle g (group_get score groups))) ->
                 In y keys).
    { rewrite in_app_iff. intros [Hu | Hs].
      - apply Hin. apply in_or_app. right. exact Hu.
      - apply (Hgroups score).
        eapply Permutation_in; [apply shuffle_perm | exact Hs]. }
    destruct Hy as [Hy | [Hy | Hy]].
    + apply Hin. apply in_or_app. left. exact Hy.
    + apply Hl. rewrite <- Hsplit. apply in_or_app. right. exact Hy.
    + apply Hl. rewrite <- Hsplit. apply in_or_app. left. exact Hy.
Qed.

Lemma players_by_score_incl (ps : Dict PlayerData) (s : Z) (x : Item) :
  In x (group_get s (players_by_score ps)) -> In x (dict_keys ps).
Proof.
  intros H. apply group_get_incl in H.
  destruct (players_by_score_fold ps [] (NoDup_nil Z)) as [_ Hperm].
  cbv zeta in Hperm. fold (players_by_score ps) in Hperm.
  eapply Permutation_in; [exact Hperm | exact H].
Qed.

(** X6: whatever the match history holds, [create_swiss_pairings] returns
    on a state that has players and a history, every item it pairs is a
    key of the players dict, and with distinct keys there are at most half
    as many matches as players. *)
Theorem pairings_are_players (state : StateDict) (ps : Dict PlayerData)
  (h : list (Item * Item)) (g : rng) :
  players state = Some ps ->
  match_history state = Some h ->
  NoDup (dict_keys ps) ->
  exists ms g',
    create_swiss_pairings shuffle state g = Ok (ms, g')
    /\ (forall p1 p2, In (p1, p2) ms ->
                      In p1 (dict_keys ps) /\ In p2 (dict_keys ps))
    /\ 2 * len ms <= len ps.
Proof.
  intros Hps Hh Hkeys.
  rewrite (create_swiss_pairings_eq rng shuffle state ps g Hps).
  destruct (swiss_loop_total rng shuffle state h (players_by_score ps)
              (sorted_reverse (map fst (players_by_score ps))) Hh [] [] g)
    as [[ms g'] Hrun].
  exists ms, g'. split; [exact Hrun |].
  assert (Hincl : forall x, In x (flatten_matches ms) -> In x (dict_keys ps)).
  { apply (swiss_loop_incl state (players_by_score ps) (dict_keys ps) _
             (players_by_score_incl ps) [] [] g ms g' Hrun).
    intros x []. }
  split.
  - intros p1 p2 Hin.
    destruct (flatten_matches_In ms p1 p2 Hin) as [H1 H2].
    split; apply Hincl; assumption.
  - assert (Hnd : NoDup (flatten_matches ms)).
    { eapply (swiss_loop_nodup rng shuffle shuffle_perm); [exact Hrun |].
      cbn [flatten_matches flat_map app].
      eapply Permutation_NoDup; [| exact Hkeys].
      symmetry. apply swiss_brackets_perm. }
    pose proof (NoDup_incl_length Hnd Hincl) as Hlen.
    pose proof (flatten_matches_length ms) as Hflat.
    unfold len in *. unfold dict_keys in Hlen. rewrite length_map in Hlen.
    lia.
Qed.

Lemma swiss_loop_no_history (state : StateDict)
  (groups : list (Z * list Item)) (scores : list Z) :
  match_history state = Some [] ->
  forall nm up g,
    len up <= 1 ->
    exists ms g' k,
      swiss_loop shuffle state groups scores nm up g = Ok (ms, g')
      /\ 0 <= k <= 1
      /\ 2 * len ms + k
         = 2 * len nm + len up
           + len (flat_map (fun s => group_get s groups) scores).
Proof.
  intros Hh.
  induction scores as [| score rest IH]; intros nm up g Hup.
  - exists nm, g, (len up). split; [reflexivity |].
    unfold len in *. cbn [flat_map List.length]. lia.
  - rewrite swiss_loop_step. cbv zeta.
    pose proof (shuffle_perm g (group_get score groups)) as Hperm.
    destruct (shuffle g (group_get score groups)) as [shuffled g1].
    cbn [fst snd] in *.
    destruct (pop_odd_spec (up ++ shuffled)) as [Hsplit Heven].
    assert (Hcarry : len (snd (pop_odd (up ++ shuffled))) <= 1).
    { unfold pop_odd. destruct (is_odd (up ++ shuffled)); unfold len; cbn; lia. }
    rewrite (pair_bracket_no_history state _ Hh Heven).
    destruct (IH (nm ++ zip_pairs (fst (pop_odd (up ++ shuffled))))
                (snd (pop_odd (up ++ shuffled))) g1 Hcarry)
      as [ms [g' [k [Hrun [Hk Hcount]]]]].
    exists ms, g', k. split; [exact Hrun |]. split; [exact Hk |].
    rewrite Hcount. cbn [flat_map]. rewrite !len_app.
    pose proof (zip_pairs_length (fst (pop_odd (up ++ shuffled)))) as Hpairs.
    assert (Hnotodd : is_odd (fst (pop_odd (up ++ shuffled))) = false).
    { unfold is_odd. rewrite <- Nat.negb_even, Heven. reflexivity. }
    rewrite Hnotodd in Hpairs. cbn [Z.b2z] in Hpairs.
    assert (Hl : len (fst (pop_odd (up ++ shuffled)))
                 + len (snd (pop_odd (up ++ shuffled)))
                 = len up + len (group_get score groups)).
    { rewrite <- (len_app _ (fst (pop_odd (up ++ shuffled)))
                    (snd (pop_odd (up ++ shuffled)))), Hsplit, len_app.
      assert (E : len shuffled = len (group_get score groups)).
      { unfold len. f_equal. apply Permutation_length. exact Hperm. }
      lia. }
    lia.
Qed.

(** X7: while no match has been played, [create_swiss_pairings] pairs
    everybody, but for one player when their number is odd: it returns
    half as many matches as there are players, rounded down. *)
Theorem first_round_pairs_everyone (state : StateDict)
  (ps : Dict PlayerData) (g : rng) :
  players state = Some ps ->
  match_history state = Some [] ->
  exists ms g',
    create_swiss_pairings shuffle state g = Ok (ms, g')
    /\ len ms = len ps / 2.
Proof.
  intros Hps Hh.
  rewrite (create_swiss_pairings_eq rng shuffle state ps g Hps).
  destruct (swiss_loop_no_history state (players_by_score ps)
              (sorted_reverse (map fst (players_by_score ps))) Hh [] [] g)
    as [ms [g' [k [Hrun [Hk Hcount]]]]].
  { unfold len. cbn. lia. }
  exists ms, g'. split; [exact Hrun |].
  apply (half_of _ k); [| exact Hk].
  rewrite Hcount.
  pose proof (Permutation_length (swiss_brackets_perm ps)) as Hlen.
  unfold len, dict_keys in *. rewrite length_map in Hlen.
  cbn [List.length]. lia.
Qed.

End PairingMore.

Lemma pairings_are_players_witness :
  exists ms g',
    create_swiss_pairings shuffle_id four_players_one_played tt = Ok (ms, g')
    /\ (forall p1 p2, In (p1, p2) ms ->
          In p1 ["a.mp4"; "b.mp4"; "c.mp4"; "d.mp4"]
          /\ In p2 ["a.mp4"; "b.mp4"; "c.mp4"; "d.mp4"])
    /\ 2 * len ms <= 4.
Proof.
  refine (pairings_are_players unit shuffle_id shuffle_id_perm
            four_players_one_played _ [("a.mp4", "b.mp4")] tt
            eq_refl eq_refl _).
  unfold dict_keys. cbn [map fst].
  repeat constructor; cbn [In]; intuition discriminate.
Defined.

Lemma first_round_pairs_everyone_witness :
  exists ms g',
    create_swiss_pairings shuffle_id three_players_unplayed tt = Ok (ms, g')
    /\ len ms = 1.
Proof.
  exact (first_round_pairs_everyone unit shuffle_id shuffle_id_perm
           three_players_unplayed _ tt eq_refl eq_refl).
Defined.

(** ** Elimination mode: views, late votes, repeated display *)

Lemma dict_set_twice (V : Type) (k : Item) (v v' : V) (d : Dict V) :
  dict_set k v (dict_set k v' d) = dict_set k v d.
Proof.
  induction d as [| [k0 v0] d IH]; cbn [dict_set].
  - rewrite String.eqb_refl. reflexivity.
  - destruct (String.eqb_spec k k0) as [-> | Hne]; cbn [dict_set].
    + rewrite String.eqb_refl. reflexivity.
    + destruct (String.eqb_spec k k0); [congruence |]. rewrite IH.
      reflexivity.
Qed.

Section EliminationMore.

Variable rng : Type.
Variable shuffle : rng -> list Item -> list Item * rng.
Variable sort_values : forall Row : Type, (Row -> Z) -> list Row -> list Row.
Variable str_lower : string -> string.
Variable path_name : string -> string.

(** X8: a vote cast when the cursor is at or past the end of the round's
    matches raises [IndexError]: in rating mode for every outcome, in
    elimination mode for A and B. *)
Theorem late_vote_raises (o : Outcome) (st : StateDict)
  (ms : list (Item * Item)) (idx : Z) (g : rng) :
  current_match_index st = Some idx ->
  len ms <= idx ->
  (mode st = Some mode_elo ->
   matchups_this_round st = Some ms ->
   vote shuffle sort_values str_lower o (PyDict st) g = Raise IndexError)
  /\ (mode st = Some mode_elimination ->
      matchups st = Some ms ->
      o <> TIE ->
      vote shuffle sort_values str_lower o (PyDict st) g = Raise IndexError).
Proof.
  intros Hidx Hlate. split.
  - intros Hmode Hms. unfold vote, bind, lift. rewrite Hmode. cbn [field].
    rewrite String.eqb_refl.
    unfold vote_elo. rewrite Hms, Hidx. cbn [field rbind].
    rewrite (py_index_out_of_range _ ms idx Hlate). reflexivity.
  - intros Hmode Hms Ho.
    rewrite (vote_win_elimination rng shuffle sort_values str_lower o st g
               Hmode Ho).
    unfold vote_elimination. rewrite Hms, Hidx. cbn [field rbind].
    rewrite (py_index_out_of_range _ ms idx Hlate). reflexivity.
Qed.

(** X9: in elimination mode with the cursor on a match, [display_match]
    leaves the state and the random generator alone and shows that
    match: its two items visible as option A and option B, the A and B
    buttons visible, the tie button hidden, the ranking table and the
    champion slots hidden, and the video controls visible exactly when one
    of the two items is a video file. *)
Theorem pending_match_view (st : StateDict) (ms : list (Item * Item))
  (idx r : Z) (g : rng) :
  mode st = Some mode_elimination ->
  matchups st = Some ms ->
  current_match_index st = Some idx ->
  round st = Some r ->
  0 <= idx < len ms ->
  exists p1 p2 view,
    nth_error ms (Z.to_nat idx) = Some (p1, p2)
    /\ display_match shuffle sort_values str_lower (PyDict st) g
       = Ok ((PyDict st, view), g)
    /\ info_text view = gr_value (elimination_info_text r idx (len ms))
    /\ left_media_display view = mkUpdate (Some p1) (Some "選項 A") (Some true)
    /\ right_media_display view
       = mkUpdate (Some p2) (Some "選項 B") (Some true)
    /\ left_btn view = gr_visible true
    /\ tie_btn view = gr_visible false
    /\ right_btn view = gr_visible true
    /\ ranking_table view = gr_visible false
    /\ final_winner_video view = gr_visible false
    /\ final_winner_image view = gr_visible false
    /\ custom_video_controls view
       = gr_visible (is_video_file str_lower p1 || is_video_file str_lower p2).
Proof.
  intros Hmode Hms Hidx Hr Hrange.
  destruct (py_index_ok _ ms idx Hrange) as [[p1 p2] [Hnth Hpy]].
  exists p1, p2. eexists. split; [exact Hnth |]. split.
  - rewrite (display_match_of_elimination rng shuffle sort_values str_lower
               st g Hmode).
    unfold display_match_elimination, bind, lift.
    rewrite Hidx, Hms. cbn [field].
    destruct (Z.geb_spec idx (len ms)) as [Hge | _]; [lia |].
    unfold display_elimination_tail. rewrite Hidx, Hms. cbn [field rbind].
    destruct (Z.ltb_spec idx (len ms)) as [_ | Hge]; [| lia].
    rewrite Hpy, Hr. cbn [rbind field]. reflexivity.
  - repeat split.
Qed.

Lemma crown_champion_again (names : Dict string) (ps : Dict PlayerData)
  (ms : list (Item * Item)) (idx r : Z) (u : View) (w : Item)
  (dw : PlayerData) :
  dict_get w ps = Some dw ->
  crown_champion sort_values str_lower
    (elimination_state names
       (dict_set w (set_eliminated_in_round (r + 1) dw) ps) ms idx r) u w
  = crown_champion sort_values str_lower
      (elimination_state names ps ms idx r) u w.
Proof.
  intros Hw. unfold crown_champion.
  cbn [original_filenames round elimination_state field rbind].
  rewrite (update_player_eq _ w names ps ms idx r dw Hw).
  rewrite (update_player_eq _ w names
             (dict_set w (set_eliminated_in_round (r + 1) dw) ps) ms idx r
             (set_eliminated_in_round (r + 1) dw)
             (dict_get_set_same _ w _ ps)).
  rewrite dict_set_twice. reflexivity.
Qed.

Section EliminationMoreShuffled.

Hypothesis shuffle_perm : forall g l, Permutation (fst (shuffle g l)) l.

(** X10: on every state of a bracket started on distinct files,
    [display_match] returns without drawing from the random generator,
    and displaying the state it returned gives that same state and the
    same view again. *)
Theorem display_twice_is_display_once (st : StateDict) (g : rng) :
  elimination_reachable shuffle sort_values str_lower path_name st ->
  exists st' view,
    display_match shuffle sort_values str_lower (PyDict st) g
    = Ok ((PyDict st', view), g)
    /\ display_match shuffle sort_values str_lower (PyDict st') g
       = Ok ((PyDict st', view), g).
Proof.
  intros Hreach.
  pose proof (reachable_inv rng shuffle sort_values str_lower path_name
                shuffle_perm st Hreach) as Hinv.
  destruct Hinv as [names ps ms idx r Hok Hsettled].
  destruct Hsettled as [Hlt | [Hend [w Hw]]].
  - destruct (display_elimination_pending rng shuffle sort_values str_lower
                (elimination_state names ps ms idx r) ms idx r
                hidden_updates g eq_refl eq_refl eq_refl)
      as [view Hview].
    { pose proof (ok_idx Hok). lia. }
    rewrite (display_match_of_elimination rng shuffle sort_values str_lower
               (elimination_state names ps ms idx r) g eq_refl).
    exists (elimination_state names ps ms idx r), view.
    split; exact Hview.
  - assert (Hsw : status_in ps w = Some winner).
    { apply winner_keys_spec. rewrite Hw. left. reflexivity. }
    destruct (status_in_get ps w winner Hsw) as [dw [Hdw Hstw]].
    destruct (crown_champion_spec sort_values str_lower names ps ms idx r
                hidden_updates w dw Hdw) as [view [Hcrown _]].
    destruct (crown_preserves ps ms idx r w dw Hok Hdw Hstw)
      as [Hok' [Hk' Hs']].
    pose proof (winner_keys_agree ps _ Hk' Hs') as Hwk.
    exists (elimination_state names
              (dict_set w (set_eliminated_in_round (r + 1) dw) ps) ms idx r),
           view.
    split.
    + rewrite (display_match_of_elimination rng shuffle sort_values str_lower
                 (elimination_state names ps ms idx r) g eq_refl).
      rewrite (display_elimination_exhausted rng shuffle sort_values str_lower
                 names ps ms idx r _ g Hok Hend).
      rewrite Hw. unfold lift. rewrite Hcrown. reflexivity.
    + rewrite (display_match_of_elimination rng shuffle sort_values str_lower
                 (elimination_state names
                    (dict_set w (set_eliminated_in_round (r + 1) dw) ps)
                    ms idx r) g eq_refl).
      rewrite (display_elimination_exhausted rng shuffle sort_values str_lower
                 names _ ms idx r _ g Hok' Hend).
      rewrite Hwk, Hw. unfold lift.
      rewrite (crown_champion_again names ps ms idx r _ w dw Hdw).
      rewrite Hcrown. reflexivity.
Qed.

End EliminationMoreShuffled.

End EliminationMore.

Lemma late_vote_raises_witness :
  vote shuffle_id sort_insertion lower_plain B (PyDict bracket_of_two_done) tt
  = Raise IndexError.
Proof.
  apply (late_vote_raises unit shuffle_id sort_insertion lower_plain B
           bracket_of_two_done [("a.mp4", "b.mp4")] 1 tt eq_refl).
  - unfold len. cbn. lia.
  - reflexivity.
  - reflexivity.
  - discriminate.
Defined.

Lemma pending_match_view_witness :
  exists p1 p2 view,
    nth_error [("a.mp4", "b.mp4")] 0 = Some (p1, p2)
    /\ display_match shuffle_id sort_insertion lower_plain
         (PyDict two_players_pending) tt
       = Ok ((PyDict two_players_pending, view), tt)
    /\ tie_btn view = gr_visible false.
Proof.
  destruct (pending_match_view unit shuffle_id sort_insertion lower_plain
              two_players_pending [("a.mp4", "b.mp4")] 0 1 tt
              eq_refl eq_refl eq_refl eq_refl)
    as [p1 [p2 [view [Hnth [Hrun [_ [_ [_ [_ [Htie _]]]]]]]]]].
  - unfold len. cbn. lia.
  - exists p1, p2, view. repeat split; assumption.
Defined.

Lemma display_twice_is_display_once_witness :
  exists st' view,
    display_match shuffle_id sort_insertion lower_plain
      (PyDict bracket_of_two_done) tt
    = Ok ((PyDict st', view), tt)
    /\ display_match shuffle_id sort_insertion lower_plain (PyDict st') tt
       = Ok ((PyDict st', view), tt).
Proof.
  exact (display_twice_is_display_once unit shuffle_id sort_insertion
           lower_plain name_plain shuffle_id_perm bracket_of_two_done tt
           bracket_of_two_done_reachable).
Defined.

(** ** Rating mode: the tournament as a whole *)



Lemma pair_in_set_add_inv (x y : Item * Item) (h : list (Item * Item)) :
  pair_in y (set_add x h) = true -> y = x \/ pair_in y h = true.
Proof.
  unfold set_add. destruct (pair_in x h); [intros H; right; exact H |].
  intros H. apply pair_in_In in H. apply in_app_or in H.
  destruct H as [H | [<- | []]].
  - right. apply pair_in_In. exact H.
  - left. reflexivity.
Qed.

Lemma sorted_pair_cases (p1 p2 : Item) :
  sorted_pair p1 p2 = (p1, p2) \/ sorted_pair p1 p2 = (p2, p1).
Proof.
  unfold sorted_pair. destruct (String.leb p1 p2); [left | right]; reflexivity.
Qed.

(** Recording the match of [p1] and [p2] keeps every pair fresh that
    shares no first item with it. *)
Lemma fresh_pair_add (h : list (Item * Item)) (p1 p2 a b : Item) :
  fresh_pair h (a, b) -> a <> p1 -> a <> p2 ->
  fresh_pair (set_add (sorted_pair p1 p2) h) (a, b).
Proof.
  unfold fresh_pair. cbn [fst snd]. intros [H1 H2] Ha1 Ha2.
  split; apply not_true_iff_false; intros H;
    apply pair_in_set_add_inv in H; destruct H as [E | E];
    try congruence;
    destruct (sorted_pair_cases p1 p2) as [S | S]; rewrite S in E;
    injection E; congruence.
Qed.

Lemma rating_ranking_ready (names : Dict string) (ps : Dict PlayerData)
  (h ms h0 ms0 : list (Item * Item)) (idx cr tr idx0 : Z) :
  rating_ok ps h0 ms0 idx0 ->
  ranking_ready (rating_state names ps h ms idx cr tr).
Proof.
  intros Hok. split; [discriminate |].
  exists ps. split; [reflexivity |]. split; [exact (rk_some Hok) |].
  intros [p d] Hin. cbn [snd].
  apply (@rk_fields _ _ _ _ Hok p d).
  apply dict_In_get; [exact (rk_keys Hok) | exact Hin].
Qed.

Lemma rating_ok_after_vote (ps : Dict PlayerData) (h ms : list (Item * Item))
  (idx : Z) (p1 p2 : Item) (d1 d2 v1 v2 : PlayerData) :
  rating_ok ps h ms idx ->
  nth_error ms (Z.to_nat idx) = Some (p1, p2) ->
  dict_get p1 ps = Some d1 ->
  dict_get p2 ps = Some d2 ->
  (elo v1 <> None /\ score v1 <> None /\ matches v1 <> None) ->
  (elo v2 <> None /\ score v2 <> None /\ matches v2 <> None) ->
  rating_ok (dict_set p2 v2 (dict_set p1 v1 ps))
    (set_add (sorted_pair p1 p2) h) ms (idx + 1)
  /\ dict_keys (dict_set p2 v2 (dict_set p1 v1 ps)) = dict_keys ps.
Proof.
  intros Hok Hnth Hd1 Hd2 Hv1 Hv2.
  assert (Hk1 : dict_keys (dict_set p1 v1 ps) = dict_keys ps).
  { apply dict_keys_set. apply (dict_get_keys _ p1 ps d1 Hd1). }
  assert (Hk2 : dict_keys (dict_set p2 v2 (dict_set p1 v1 ps)) = dict_keys ps).
  { rewrite dict_keys_set; [exact Hk1 |]. rewrite Hk1.
    apply (dict_get_keys _ p2 ps d2 Hd2). }
  assert (Hlt : (Z.to_nat idx < List.length ms)%nat).
  { apply nth_error_Some. congruence. }
  pose proof (rk_idx Hok) as Hidx.
  split; [| exact Hk2]. constructor.
  - rewrite Hk2. exact (rk_keys Hok).
  - intros E. pose proof (rk_some Hok) as Hne.
    rewrite E in Hk2. destruct ps; [congruence | discriminate].
  - intros p d Hd.
    destruct (String.eqb_spec p p2) as [-> | Hne2].
    { rewrite dict_get_set_same in Hd. injection Hd as <-. exact Hv2. }
    rewrite dict_get_set_other in Hd by exact Hne2.
    destruct (String.eqb_spec p p1) as [-> | Hne1].
    { rewrite dict_get_set_same in Hd. injection Hd as <-. exact Hv1. }
    rewrite dict_get_set_other in Hd by exact Hne1.
    apply (@rk_fields _ _ _ _ Hok p d Hd).
  - unfold len in *. lia.
  - exact (rk_matchups Hok).
  - intros p Hp. rewrite Hk2. apply (@rk_known _ _ _ _ Hok p Hp).
  - replace (Z.to_nat (idx + 1)) with (S (Z.to_nat idx)) by lia.
    pose proof (rk_fresh Hok) as Hfresh.
    pose proof (flatten_skipn_NoDup ms (Z.to_nat idx) (rk_matchups Hok))
      as Hnd.
    rewrite (skipn_nth_error _ ms (Z.to_nat idx) (p1, p2) Hnth) in Hfresh, Hnd.
    inversion Hfresh as [| x l _ Hrest]; subst.
    cbn [flatten_matches flat_map fst snd app] in Hnd.
    fold (flatten_matches (skipn (S (Z.to_nat idx)) ms)) in Hnd.
    inversion Hnd as [| x l Hn1 Hnd']; subst.
    inversion Hnd' as [| x l Hn2 _]; subst.
    rewrite Forall_forall in *. intros [a b] Hin.
    destruct (flatten_matches_In _ a b Hin) as [Ha _].
    apply fresh_pair_add.
    + apply (Hrest _ Hin).
    + intros ->. apply Hn1. right. exact Ha.
    + intros ->. apply Hn2. exact Ha.
Qed.

Lemma vote_elo_spec (o : Outcome) (names : Dict string)
  (ps : Dict PlayerData) (h ms : list (Item * Item)) (idx cr tr : Z)
  (p1 p2 : Item) (d1 d2 : PlayerData) (e1 e2 s1 s2 m1 m2 : Z) :
  0 <= idx ->
  nth_error ms (Z.to_nat idx) = Some (p1, p2) ->
  p1 <> p2 ->
  dict_get p1 ps = Some d1 ->
  dict_get p2 ps = Some d2 ->
  elo d1 = Some e1 -> score d1 = Some s1 -> matches d1 = Some m1 ->
  elo d2 = Some e2 -> score d2 = Some s2 -> matches d2 = Some m2 ->
  vote_elo o (rating_state names ps h ms idx cr tr)
  = match calculate_elo (IZR e1) (IZR e2) (outcome_result o) with
    | Ok (n1, n2) =>
        Ok (rating_state names
              (dict_set p2
                 (set_rating n2 (s2 + snd (outcome_points o)) (m2 + 1) d2)
                 (dict_set p1
                    (set_rating n1 (s1 + fst (outcome_points o)) (m1 + 1) d1)
                    ps))
              (set_add (sorted_pair p1 p2) h) ms (idx + 1) cr tr)
    | Raise e => Raise e
    end.
Proof.
  intros Hidx Hnth Hne Hd1 Hd2 He1 Hs1 Hm1 He2 Hs2 Hm2.
  assert (Hpy : py_index ms idx = Ok (p1, p2)).
  { destruct (py_index_ok _ ms idx) as [v [Hv Hpy]].
    - split; [exact Hidx |].
      assert (Z.to_nat idx < List.length ms)%nat
        by (apply nth_error_Some; congruence).
      unfold len. lia.
    - rewrite Hpy. congruence. }
  unfold vote_elo.
  cbn [matchups_this_round current_match_index match_history rating_state
       field rbind].
  rewrite Hpy. cbn [rbind].
  assert (Hd2' : forall v, dict_get p2 (dict_set p1 v ps) = Some d2).
  { intros v. rewrite dict_get_set_other; [exact Hd2 | congruence]. }
  destruct o; cbn [outcome_result outcome_points fst snd];
    cbn [players set_match_history rating_state field rbind];
    unfold subscript; rewrite Hd1, Hd2; cbn [rbind];
    rewrite He1, He2; cbn [field rbind];
    (destruct (calculate_elo _ _ _) as [[n1 n2] | e]; [| reflexivity]);
    cbn [rbind]; unfold rate_player;
    cbn [players set_players set_match_history rating_state field rbind];
    unfold subscript; rewrite Hd1; cbn [rbind];
    rewrite Hs1, Hm1; cbn [field rbind players set_players];
    rewrite Hd2'; cbn [rbind]; rewrite Hs2, Hm2;
    reflexivity.
Qed.

Section RatingTournament.

Variable rng : Type.
Variable shuffle : rng -> list Item -> list Item * rng.
Variable sort_values : forall Row : Type, (Row -> Z) -> list Row -> list Row.
Variable str_lower : string -> string.
Variable path_name : string -> string.

Lemma vote_of_elo (o : Outcome) (st : StateDict) (g : rng) :
  mode st = Some mode_elo ->
  vote shuffle sort_values str_lower o (PyDict st) g
  = match vote_elo o st with
    | Ok st1 => display_match shuffle sort_values str_lower (PyDict st1) g
    | Raise e => Raise e
    end.
Proof.
  intros Hmode. unfold vote, bind, lift. rewrite Hmode. cbn [field].
  rewrite String.eqb_refl.
  destruct (vote_elo o st); reflexivity.
Qed.

(** Lines 139-147 on a state whose leaderboard can be built. *)
Lemma display_elo_tail_ok (st : StateDict) (u : View) (cr tr idx : Z)
  (ms : list (Item * Item)) :
  ranking_ready st ->
  current_round st = Some cr ->
  total_rounds st = Some tr ->
  matchups_this_round st = Some ms ->
  current_match_index st = Some idx ->
  (cr <= tr -> ms <> [] -> 0 <= idx < len ms) ->
  exists view,
    display_elo_tail sort_values str_lower st u = Ok (PyDict st, view).
Proof.
  intros Hready Hcr Htr Hms Hidx Hrange.
  destruct (elo_ranking_ready sort_values st Hready) as [rows Hrows].
  unfold display_elo_tail. rewrite Hcr, Htr. cbn [field rbind].
  destruct (Z.leb_spec cr tr) as [Hle | _].
  - rewrite Hms. cbn [field rbind].
    destruct ms as [| m ms0] eqn:Ems.
    + cbn [rbind]. rewrite Hrows. cbn [rbind]. eexists. reflexivity.
    + rewrite Hidx. cbn [field rbind].
      destruct (py_index_ok _ (m :: ms0) idx) as [[p1 p2] [_ Hpy]];
        [apply Hrange; [exact Hle | discriminate] |].
      rewrite Hpy. cbn [rbind]. rewrite Hrows. cbn [rbind].
      eexists. reflexivity.
  - cbn [rbind]. rewrite Hrows. cbn [rbind]. eexists. reflexivity.
Qed.

Section RatingShuffled.

Hypothesis shuffle_perm : forall g l, Permutation (fst (shuffle g l)) l.

(** What [create_swiss_pairings] returns on distinct players. *)
Lemma create_swiss_pairings_ok (state : StateDict) (ps : Dict PlayerData)
  (h : list (Item * Item)) (g : rng) :
  players state = Some ps ->
  match_history state = Some h ->
  NoDup (dict_keys ps) ->
  exists ms g',
    create_swiss_pairings shuffle state g = Ok (ms, g')
    /\ NoDup (flatten_matches ms)
    /\ (forall p, In p (flatten_matches ms) -> In p (dict_keys ps))
    /\ Forall (fresh_pair h) ms
    /\ (h = [] -> len ms = len ps / 2).
Proof.
  intros Hps Hh Hkeys.
  rewrite (create_swiss_pairings_eq rng shuffle state ps g Hps).
  destruct (swiss_loop_total rng shuffle state h (players_by_score ps)
              (sorted_reverse (map fst (players_by_score ps))) Hh [] [] g)
    as [[ms g'] Hrun].
  exists ms, g'. split; [exact Hrun |]. split; [| split; [| split]].
  - eapply (swiss_loop_nodup rng shuffle shuffle_perm); [exact Hrun |].
    cbn [flatten_matches flat_map app].
    eapply Permutation_NoDup; [| exact Hkeys].
    symmetry. apply swiss_brackets_perm.
  - apply (swiss_loop_incl rng shuffle shuffle_perm state
             (players_by_score ps) (dict_keys ps) _
             (players_by_score_incl ps) [] [] g ms g' Hrun).
    intros x [].
  - eapply (swiss_loop_fresh rng shuffle state h); [exact Hh | exact Hrun |].
    constructor.
  - intros ->.
    destruct (swiss_loop_no_history rng shuffle shuffle_perm state
                (players_by_score ps)
                (sorted_reverse (map fst (players_by_score ps))) Hh [] [] g)
      as [ms2 [g2 [k [Hrun2 [Hk Hcount]]]]].
    { unfold len. cbn. lia. }
    rewrite Hrun in Hrun2. injection Hrun2 as <- <-.
    apply (half_of _ k); [| exact Hk].
    rewrite Hcount.
    pose proof (Permutation_length (swiss_brackets_perm ps)) as Hlen.
    unfold len, dict_keys in *. rewrite length_map in Hlen.
    cbn [List.length]. lia.
Qed.

(** [display_match] on a well-formed rating state. *)
Lemma rating_display (names : Dict string) (ps : Dict PlayerData)
  (h ms : list (Item * Item)) (idx cr tr : Z) (g : rng) :
  rating_ok ps h ms idx ->
  exists ms' idx' cr' view g',
    display_match shuffle sort_values str_lower
      (PyDict (rating_state names ps h ms idx cr tr)) g
    = Ok ((PyDict (rating_state names ps h ms' idx' cr' tr), view), g')
    /\ rating_ok ps h ms' idx'
    /\ cr <= cr'
    /\ (tr < cr' \/ idx' < len ms')
    /\ (tr < cr \/ idx < len ms ->
        ms' = ms /\ idx' = idx /\ cr' = cr /\ g' = g).
Proof.
  intros Hok.
  pose proof (rk_idx Hok) as Hidx.
  assert (Hready : forall ms0 idx0 cr0,
             ranking_ready (rating_state names ps h ms0 idx0 cr0 tr)).
  { intros ms0 idx0 cr0. apply (rating_ranking_ready _ _ _ _ _ _ _ _ _ _ Hok). }
  rewrite (display_match_of_elo rng shuffle sort_values str_lower
             (rating_state names ps h ms idx cr tr) g eq_refl).
  unfold display_match_elo, bind, lift.
  cbn [current_round total_rounds current_match_index matchups_this_round
       rating_state field].
  destruct (Z.gtb_spec cr tr) as [Hgt | Hle].
  - destruct (display_elo_tail_ok (rating_state names ps h ms idx cr tr)
                (set_updates msg_elo_finished false false false false
                   hidden_updates) cr tr idx ms (Hready ms idx cr)
                eq_refl eq_refl eq_refl eq_refl) as [view Hview]; [lia |].
    fold (rating_state names ps h ms idx cr tr). rewrite Hview.
    exists ms, idx, cr, view, g.
    split; [reflexivity |]. split; [exact Hok |]. split; [lia |].
    split; [left; lia |]. intros _. repeat split.
  - destruct (Z.geb_spec idx (len ms)) as [Hend | Hlt].
    + change (set_current_round (cr + 1)
                (rating_state names ps h ms idx cr tr))
        with (rating_state names ps h ms idx (cr + 1) tr).
      destruct (Z.gtb_spec (cr + 1) tr) as [Hlast | Hmore].
      * destruct (display_elo_finished rng shuffle sort_values str_lower
                    (fun _ => lift (Raise RecursionError))
                    (rating_state names ps h ms idx (cr + 1) tr) (cr + 1) tr g
                    eq_refl eq_refl eq_refl) as [view [Hview _]];
          [lia | apply Hready |].
        exists ms, idx, (cr + 1), view, g.
        split; [exact Hview |]. split; [exact Hok |]. split; [lia |].
        split; [left; lia |]. intros [H | H]; lia.
      * destruct (create_swiss_pairings_ok
                    (rating_state names ps h ms idx (cr + 1) tr) ps h g
                    eq_refl eq_refl (rk_keys Hok))
          as [ms' [g' [Hrun [Hnd [Hknown [Hfresh _]]]]]].
        rewrite Hrun.
        assert (Hok' : rating_ok ps h ms' 0).
        { constructor.
          - exact (rk_keys Hok).
          - exact (rk_some Hok).
          - exact (@rk_fields _ _ _ _ Hok).
          - unfold len. lia.
          - exact Hnd.
          - exact Hknown.
          - exact Hfresh. }
        destruct ms' as [| m ms'].
        -- destruct (display_elo_tail_ok
                       (rating_state names ps h [] 0 (tr + 1) tr)
                       (set_updates msg_no_more_pairings false false false
                          false hidden_updates)
                       (tr + 1) tr 0 [] (Hready [] 0 (tr + 1))
                       eq_refl eq_refl eq_refl eq_refl) as [view Hview];
             [lia |].
           change (set_current_round (tr + 1)
                     (set_current_match_index 0
                        (set_matchups_this_round []
                           (rating_state names ps h ms idx (cr + 1) tr))))
             with (rating_state names ps h [] 0 (tr + 1) tr).
           rewrite Hview.
           exists [], 0, (tr + 1), view, g'.
           split; [reflexivity |]. split; [exact Hok' |]. split; [lia |].
           split; [left; lia |]. intros [H | H]; lia.
        -- destruct (display_elo_tail_ok
                       (rating_state names ps h (m :: ms') 0 (cr + 1) tr)
                       hidden_updates (cr + 1) tr 0 (m :: ms')
                       (Hready (m :: ms') 0 (cr + 1))
                       eq_refl eq_refl eq_refl eq_refl) as [view Hview].
           { intros _ _. unfold len. cbn [List.length]. lia. }
           change (set_current_match_index 0
                     (set_matchups_this_round (m :: ms')
                        (rating_state names ps h ms idx (cr + 1) tr)))
             with (rating_state names ps h (m :: ms') 0 (cr + 1) tr).
           rewrite Hview.
           exists (m :: ms'), 0, (cr + 1), view, g'.
           split; [reflexivity |]. split; [exact Hok' |]. split; [lia |].
           split; [right; unfold len; cbn [List.length]; lia |].
           intros [H | H]; lia.
    + destruct (display_elo_tail_ok (rating_state names ps h ms idx cr tr)
                  hidden_updates cr tr idx ms (Hready ms idx cr)
                  eq_refl eq_refl eq_refl eq_refl) as [view Hview]; [lia |].
      fold (rating_state names ps h ms idx cr tr). rewrite Hview.
      exists ms, idx, cr, view, g.
      split; [reflexivity |]. split; [exact Hok |]. split; [lia |].
      split; [right; lia |]. intros _. repeat split.
Qed.

(** The players of the match at the cursor have their records. *)
Lemma rating_match_players (ps : Dict PlayerData) (h ms : list (Item * Item))
  (idx : Z) (p1 p2 : Item) :
  rating_ok ps h ms idx ->
  nth_error ms (Z.to_nat idx) = Some (p1, p2) ->
  p1 <> p2
  /\ fresh_pair h (p1, p2)
  /\ exists d1 d2 e1 s1 m1 e2 s2 m2,
       dict_get p1 ps = Some d1 /\ dict_get p2 ps = Some d2
       /\ elo d1 = Some e1 /\ score d1 = Some s1 /\ matches d1 = Some m1
       /\ elo d2 = Some e2 /\ score d2 = Some s2 /\ matches d2 = Some m2.
Proof.
  intros Hok Hnth.
  pose proof (nth_error_In _ _ Hnth) as Hin.
  destruct (flatten_matches_In ms p1 p2 Hin) as [Hin1 Hin2].
  split; [apply (flatten_matches_no_self ms p1 p2 (rk_matchups Hok) Hin) |].
  split.
  { pose proof (rk_fresh Hok) as Hfresh.
    rewrite (skipn_nth_error _ ms (Z.to_nat idx) (p1, p2) Hnth) in Hfresh.
    inversion Hfresh; assumption. }
  destruct (dict_keys_get _ p1 ps (@rk_known _ _ _ _ Hok p1 Hin1)) as [d1 Hd1].
  destruct (dict_keys_get _ p2 ps (@rk_known _ _ _ _ Hok p2 Hin2)) as [d2 Hd2].
  destruct (@rk_fields _ _ _ _ Hok p1 d1 Hd1) as [He1 [Hs1 Hm1]].
  destruct (@rk_fields _ _ _ _ Hok p2 d2 Hd2) as [He2 [Hs2 Hm2]].
  destruct (elo d1) as [e1 |] eqn:Ee1; [| congruence].
  destruct (score d1) as [s1 |] eqn:Es1; [| congruence].
  destruct (matches d1) as [m1 |] eqn:Em1; [| congruence].
  destruct (elo d2) as [e2 |] eqn:Ee2; [| congruence].
  destruct (score d2) as [s2 |] eqn:Es2; [| congruence].
  destruct (matches d2) as [m2 |] eqn:Em2; [| congruence].
  exists d1, d2, e1, s1, m1, e2, s2, m2.
  repeat split; assumption.
Qed.

(** A vote on the match at the cursor, when [calculate_elo] returns. *)
Lemma rating_vote_spec (o : Outcome) (names : Dict string)
  (ps : Dict PlayerData) (h ms : list (Item * Item)) (idx cr tr : Z)
  (g : rng) (p1 p2 : Item) (d1 d2 : PlayerData)
  (e1 e2 s1 s2 m1 m2 n1 n2 : Z) :
  rating_ok ps h ms idx ->
  nth_error ms (Z.to_nat idx) = Some (p1, p2) ->
  dict_get p1 ps = Some d1 ->
  dict_get p2 ps = Some d2 ->
  elo d1 = Some e1 -> score d1 = Some s1 -> matches d1 = Some m1 ->
  elo d2 = Some e2 -> score d2 = Some s2 -> matches d2 = Some m2 ->
  calculate_elo (IZR e1) (IZR e2) (outcome_result o) = Ok (n1, n2) ->
  exists ms' idx' cr' view g',
    vote shuffle sort_values str_lower o
      (PyDict (rating_state names ps h ms idx cr tr)) g
    = Ok ((PyDict
             (rating_state names
                (dict_set p2
                   (set_rating n2 (s2 + snd (outcome_points o)) (m2 + 1) d2)
                   (dict_set p1
                      (set_rating n1 (s1 + fst (outcome_points o)) (m1 + 1) d1)
                      ps))
                (set_add (sorted_pair p1 p2) h) ms' idx' cr' tr),
           view), g')
    /\ rating_ok
         (dict_set p2
            (set_rating n2 (s2 + snd (outcome_points o)) (m2 + 1) d2)
            (dict_set p1
               (set_rating n1 (s1 + fst (outcome_points o)) (m1 + 1) d1)
               ps))
         (set_add (sorted_pair p1 p2) h) ms' idx'
    /\ cr <= cr'
    /\ (tr < cr' \/ idx' < len ms').
Proof.
  intros Hok Hnth Hd1 Hd2 He1 Hs1 Hm1 He2 Hs2 Hm2 Hcalc.
  destruct (rating_match_players ps h ms idx p1 p2 Hok Hnth) as [Hne _].
  destruct (rating_ok_after_vote ps h ms idx p1 p2 d1 d2
              (set_rating n1 (s1 + fst (outcome_points o)) (m1 + 1) d1)
              (set_rating n2 (s2 + snd (outcome_points o)) (m2 + 1) d2)
              Hok Hnth Hd1 Hd2)
    as [Hok' _]; [repeat split; discriminate | repeat split; discriminate |].
  destruct (rating_display names _ _ ms (idx + 1) cr tr g Hok')
    as [ms' [idx' [cr' [view [g' [Hshow [Hok2 [Hcr [Hsettled _]]]]]]]]].
  exists ms', idx', cr', view, g'.
  split; [| split; [exact Hok2 | split; [exact Hcr | exact Hsettled]]].
  rewrite (vote_of_elo o (rating_state names ps h ms idx cr tr) g eq_refl).
  rewrite (vote_elo_spec o names ps h ms idx cr tr p1 p2 d1 d2 e1 e2 s1 s2
             m1 m2 (proj1 (rk_idx Hok)) Hnth Hne Hd1 Hd2 He1 Hs1 Hm1 He2 Hs2
             Hm2).
  rewrite Hcalc. exact Hshow.
Qed.

Lemma rating_start_spec (files_list : list string) (total : Z) (g : rng) :
  NoDup files_list ->
  2 <= len (filter (is_media_file str_lower) files_list) ->
  exists ms view g',
    start_tournament shuffle sort_values str_lower path_name files_list
      mode_elo total g
    = Ok ((PyDict
             (rating_state
                (dict_comprehension path_name
                   (filter (is_media_file str_lower) files_list))
                (map (fun k => (k, new_elo_player))
                   (filter (is_media_file str_lower) files_list))
                [] ms 0 1 total),
           view), g')
    /\ rating_ok
         (map (fun k => (k, new_elo_player))
            (filter (is_media_file str_lower) files_list))
         [] ms 0
    /\ len ms = len (filter (is_media_file str_lower) files_list) / 2.
Proof.
  intros Hnd Hmany.
  unfold start_tournament.
  destruct files_list as [| f fl] eqn:Efl;
    [unfold len in Hmany; cbn in Hmany; lia |].
  rewrite <- Efl in *. clear Efl f fl.
  set (files := filter (is_media_file str_lower) files_list) in *.
  assert (Hfiles : NoDup files) by (apply NoDup_filter; exact Hnd).
  destruct (Z.ltb_spec (len files) 2) as [Hfew | _]; [lia |].
  change (String.eqb mode_elo mode_elimination) with false.
  rewrite String.eqb_refl. cbv beta iota zeta.
  rewrite (dict_comprehension_NoDup _ (fun _ => new_elo_player) files Hfiles).
  set (names := dict_comprehension path_name files).
  set (ps0 := map (fun k : string => (k, new_elo_player)) files).
  assert (Hk0 : dict_keys ps0 = files).
  { unfold dict_keys, ps0. rewrite map_map. cbn [fst]. apply map_id. }
  assert (Hlen0 : len ps0 = len files).
  { unfold len, ps0. rewrite length_map. reflexivity. }
  unfold bind.
  match goal with
  | |- context [create_swiss_pairings shuffle ?s g] =>
      destruct (create_swiss_pairings_ok s ps0 [] g eq_refl eq_refl)
        as [ms [g' [Hrun [Hndm [Hknown [Hfresh Hcount]]]]]];
        [rewrite Hk0; exact Hfiles |];
        rewrite Hrun
  end.
  specialize (Hcount eq_refl). rewrite Hlen0 in Hcount.
  assert (Hone : 1 <= len files / 2) by (apply Z.div_le_lower_bound; lia).
  assert (Hok : rating_ok ps0 [] ms 0).
  { constructor.
    - rewrite Hk0. exact Hfiles.
    - intros E. rewrite E in Hlen0. unfold len in Hlen0 at 1.
      cbn in Hlen0. lia.
    - intros p d Hd. apply dict_get_In in Hd. unfold ps0 in Hd.
      apply in_map_iff in Hd. destruct Hd as [k [[= _ <-] _]].
      repeat split; discriminate.
    - lia.
    - exact Hndm.
    - exact Hknown.
    - exact Hfresh. }
  destruct (rating_display names ps0 [] ms 0 1 total g' Hok)
    as [ms' [idx' [cr' [view [g2 [Hshow [_ [_ [_ Hsame]]]]]]]]].
  destruct Hsame as [-> [-> [-> ->]]]; [right; lia |].
  exists ms, view, g'. split; [exact Hshow |]. split; [exact Hok | exact Hcount].
Qed.

Lemma rating_step_inv (st st' : StateDict) :
  rating_inv st ->
  rating_step shuffle sort_values str_lower st st' ->
  rating_inv st'.
Proof.
  intros [names ps h ms idx cr tr Hok Hsettled] Hstep.
  destruct Hstep as [o g g' view Hvote | g g' view Hshow].
  - destruct (Z_lt_le_dec idx (len ms)) as [Hlt | Hge].
    + destruct (py_index_ok _ ms idx (conj (proj1 (rk_idx Hok)) Hlt))
        as [[p1 p2] [Hnth _]].
      destruct (rating_match_players ps h ms idx p1 p2 Hok Hnth)
        as [Hne [_ [d1 [d2 [e1 [s1 [m1 [e2 [s2 [m2
             [Hd1 [Hd2 [He1 [Hs1 [Hm1 [He2 [Hs2 Hm2]]]]]]]]]]]]]]]]].
      destruct (calculate_elo (IZR e1) (IZR e2) (outcome_result o))
        as [[n1 n2] | e] eqn:Hcalc.
      * destruct (rating_vote_spec o names ps h ms idx cr tr g p1 p2 d1 d2
                    e1 e2 s1 s2 m1 m2 n1 n2 Hok Hnth Hd1 Hd2 He1 Hs1 Hm1
                    He2 Hs2 Hm2 Hcalc)
          as [ms' [idx' [cr' [view' [g2 [Hrun [Hok' [_ Hsettled']]]]]]]].
        rewrite Hrun in Hvote. injection Hvote as <- _ _.
        constructor; assumption.
      * rewrite (vote_of_elo o (rating_state names ps h ms idx cr tr) g
                   eq_refl) in Hvote.
        rewrite (vote_elo_spec o names ps h ms idx cr tr p1 p2 d1 d2 e1 e2
                   s1 s2 m1 m2 (proj1 (rk_idx Hok)) Hnth Hne Hd1 Hd2 He1 Hs1
                   Hm1 He2 Hs2 Hm2) in Hvote.
        rewrite Hcalc in Hvote. discriminate.
    + rewrite (vote_of_elo o (rating_state names ps h ms idx cr tr) g
                 eq_refl) in Hvote.
      unfold vote_elo in Hvote.
      cbn [matchups_this_round current_match_index rating_state field rbind]
        in Hvote.
      rewrite (py_index_out_of_range _ ms idx Hge) in Hvote.
      discriminate.
  - destruct (rating_display names ps h ms idx cr tr g Hok)
      as [ms' [idx' [cr' [view' [g2 [Hrun [Hok' [_ [Hsettled' _]]]]]]]]].
    rewrite Hrun in Hshow. injection Hshow as <- _ _.
    constructor; assumption.
Qed.

Lemma rating_reachable_inv (st : StateDict) :
  rating_reachable shuffle sort_values str_lower path_name st ->
  rating_inv st.
Proof.
  induction 1 as [files_list total g g' st view Hnd Hrun | st st' _ IH Hstep].
  - destruct (Z_lt_le_dec
                (len (filter (is_media_file str_lower) files_list)) 2)
      as [Hfew | Hmany].
    + unfold start_tournament in Hrun.
      destruct files_list as [| f fl]; [discriminate |].
      destruct (Z.ltb_spec (len (filter (is_media_file str_lower) (f :: fl))) 2)
        as [_ | Hno]; [discriminate | lia].
    + destruct (rating_start_spec files_list total g Hnd Hmany)
        as [ms [view' [g2 [Hstart [Hok Hcount]]]]].
      rewrite Hstart in Hrun. injection Hrun as <- _ _.
      constructor; [exact Hok |]. right.
      assert (1 <= len (filter (is_media_file str_lower) files_list) / 2)
        by (apply Z.div_le_lower_bound; lia).
      lia.
  - apply (rating_step_inv st st' IH Hstep).
Qed.

(** X11: on distinct files of which at least two are media files,
    [start_tournament] in rating mode returns a state with one player per
    media file, in the order of the files, each with rating 1500, no
    points and no match, an empty match history, round 1 of the rounds
    asked for and the cursor on the first match of a first round that
    pairs every player but one left over when their number is odd. *)
Theorem rating_start_state (files_list : list string) (total : Z) (g : rng) :
  NoDup files_list ->
  2 <= len (filter (is_media_file str_lower) files_list) ->
  exists ms view g',
    start_tournament shuffle sort_values str_lower path_name files_list
      mode_elo total g
    = Ok ((PyDict
             (rating_state
                (dict_comprehension path_name
                   (filter (is_media_file str_lower) files_list))
                (map (fun k => (k, new_elo_player))
                   (filter (is_media_file str_lower) files_list))
                [] ms 0 1 total),
           view), g')
    /\ len ms = len (filter (is_media_file str_lower) files_list) / 2
    /\ NoDup (flatten_matches ms)
    /\ (forall p, In p (flatten_matches ms) ->
                  In p (filter (is_media_file str_lower) files_list)).
Proof.
  intros Hnd Hmany.
  destruct (rating_start_spec files_list total g Hnd Hmany)
    as [ms [view [g' [Hstart [Hok Hcount]]]]].
  exists ms, view, g'. split; [exact Hstart |]. split; [exact Hcount |].
  split; [exact (rk_matchups Hok) |].
  intros p Hp. pose proof (@rk_known _ _ _ _ Hok p Hp) as Hin.
  unfold dict_keys in Hin. rewrite map_map in Hin. cbn [fst] in Hin.
  rewrite map_id in Hin. exact Hin.
Qed.

(** X12: on a well-formed rating state [display_match] returns a state
    with the same players, ratings, names, match history and number of
    rounds; the round counter does not go back; afterwards the tournament
    is over or a match is at the cursor; and when that was already so, the
    state is returned as it was and nothing is drawn from the random
    generator. *)
Theorem rating_display_settles (names : Dict string) (ps : Dict PlayerData)
  (h ms : list (Item * Item)) (idx cr tr : Z) (g : rng) :
  rating_ok ps h ms idx ->
  exists ms' idx' cr' view g',
    display_match shuffle sort_values str_lower
      (PyDict (rating_state names ps h ms idx cr tr)) g
    = Ok ((PyDict (rating_state names ps h ms' idx' cr' tr), view), g')
    /\ rating_ok ps h ms' idx'
    /\ cr <= cr'
    /\ (tr < cr' \/ idx' < len ms')
    /\ (tr < cr \/ idx < len ms ->
        ms' = ms /\ idx' = idx /\ cr' = cr /\ g' = g).
Proof.
  intros Hok. exact (rating_display names ps h ms idx cr tr g Hok).
Qed.



(** X15: in every state of a rating tournament started on distinct files
    the player keys are distinct, the tournament is over or a match is at
    the cursor, and a match at the cursor is between two different players
    of the tournament who have not played each other: no pair is put to
    the vote twice. *)
Theorem rating_never_rematches (st : StateDict) :
  rating_reachable shuffle sort_values str_lower path_name st ->
  exists names ps h ms idx cr tr,
    st = rating_state names ps h ms idx cr tr
    /\ NoDup (dict_keys ps)
    /\ (tr < cr \/ 0 <= idx < len ms)
    /\ forall p1 p2,
         nth_error ms (Z.to_nat idx) = Some (p1, p2) ->
         p1 <> p2
         /\ In p1 (dict_keys ps) /\ In p2 (dict_keys ps)
         /\ has_played p1 p2 st = Ok false.
Proof.
  intros Hreach.
  destruct (rating_reachable_inv st Hreach)
    as [names ps h ms idx cr tr Hok Hsettled].
  exists names, ps, h, ms, idx, cr, tr.
  split; [reflexivity |]. split; [exact (rk_keys Hok) |]. split.
  { pose proof (rk_idx Hok). destruct Hsettled; [left | right]; lia. }
  intros p1 p2 Hnth.
  destruct (rating_match_players ps h ms idx p1 p2 Hok Hnth)
    as [Hne [[Hf1 Hf2] [d1 [d2 [_ [_ [_ [_ [_ [_ [Hd1 [Hd2 _]]]]]]]]]]]].
  cbn [fst snd] in Hf1, Hf2.
  split; [exact Hne |].
  split; [apply (dict_get_keys _ p1 ps d1 Hd1) |].
  split; [apply (dict_get_keys _ p2 ps d2 Hd2) |].
  unfold has_played. cbn [match_history rating_state field rbind].
  rewrite Hf1, Hf2. reflexivity.
Qed.

End RatingShuffled.

End RatingTournament.

Lemma rating_of_two_pending_ok :
  rating_ok [("a.mp4", new_elo_player); ("b.mp4", new_elo_player)] []
    [("a.mp4", "b.mp4")] 0.
Proof.
  constructor.
  - repeat constructor; cbn [In]; intuition discriminate.
  - discriminate.
  - intros p d Hd. cbn [dict_get] in Hd.
    destruct (String.eqb p "a.mp4");
      [injection Hd as <-; repeat split; discriminate |].
    destruct (String.eqb p "b.mp4");
      [injection Hd as <-; repeat split; discriminate | discriminate].
  - unfold len. cbn. lia.
  - repeat constructor; cbn [In]; intuition discriminate.
  - intros p Hp. exact Hp.
  - repeat constructor.
Qed.

Lemma two_files_rating_start :
  returned_state
    (start_tournament shuffle_id sort_insertion lower_plain name_plain
       ["a.mp4"; "b.mp4"] mode_elo 3 tt)
  = Some rating_of_two_pending.
Proof. vm_compute. reflexivity. Qed.

Lemma rating_of_two_pending_reachable :
  rating_reachable shuffle_id sort_insertion lower_plain name_plain
    rating_of_two_pending.
Proof.
  destruct (returned_state_inv _ _ _ two_files_rating_start)
    as [v0 [g0 Hstart]].
  eapply rating_reach_start; [| exact Hstart].
  repeat constructor; cbn [In]; intuition discriminate.
Qed.

Lemma rating_start_state_witness :
  exists ms view g',
    start_tournament shuffle_id sort_insertion lower_plain name_plain
      ["a.mp4"; "notes.txt"; "b.png"; "c.mp4"] mode_elo 3 tt
    = Ok ((PyDict
             (rating_state
                [("a.mp4", "a.mp4"); ("b.png", "b.png"); ("c.mp4", "c.mp4")]
                [("a.mp4", new_elo_player); ("b.png", new_elo_player);
                 ("c.mp4", new_elo_player)]
                [] ms 0 1 3),
           view), g')
    /\ len ms = 1.
Proof.
  destruct (rating_start_state unit shuffle_id sort_insertion lower_plain
              name_plain shuffle_id_perm
              ["a.mp4"; "notes.txt"; "b.png"; "c.mp4"] 3 tt)
    as [ms [view [g' [Hrun [Hlen _]]]]].
  - repeat constructor; cbn [In]; intuition discriminate.
  - unfold len. cbn. lia.
  - exists ms, view, g'. split; [exact Hrun | exact Hlen].
Defined.

Lemma rating_display_settles_witness :
  exists ms' idx' cr' view g',
    display_match shuffle_id sort_insertion lower_plain
      (PyDict rating_of_two_pending) tt
    = Ok ((PyDict
             (rating_state [("a.mp4", "a.mp4"); ("b.mp4", "b.mp4")]
                [("a.mp4", new_elo_player); ("b.mp4", new_elo_player)]
                [] ms' idx' cr' 3),
           view), g')
    /\ 1 <= cr'
    /\ (3 < cr' \/ idx' < len ms').
Proof.
  destruct (rating_display_settles unit shuffle_id sort_insertion lower_plain
              shuffle_id_perm [("a.mp4", "a.mp4"); ("b.mp4", "b.mp4")]
              [("a.mp4", new_elo_player); ("b.mp4", new_elo_player)]
              [] [("a.mp4", "b.mp4")] 0 1 3 tt rating_of_two_pending_ok)
    as [ms' [idx' [cr' [view [g' [Hrun [_ [Hcr [Hsettled _]]]]]]]]].
  exists ms', idx', cr', view, g'.
  split; [exact Hrun |]. split; [exact Hcr | exact Hsettled].
Defined.



Lemma rating_never_rematches_witness :
  exists names ps h ms idx cr tr,
    rating_of_two_pending = rating_state names ps h ms idx cr tr
    /\ NoDup (dict_keys ps)
    /\ (tr < cr \/ 0 <= idx < len ms)
    /\ forall p1 p2,
         nth_error ms (Z.to_nat idx) = Some (p1, p2) ->
         p1 <> p2
         /\ In p1 (dict_keys ps) /\ In p2 (dict_keys ps)
         /\ has_played p1 p2 rating_of_two_pending = Ok false.
Proof.
  exact (rating_never_rematches unit shuffle_id sort_insertion lower_plain
           name_plain shuffle_id_perm rating_of_two_pending
           rating_of_two_pending_reachable).
Defined.

(** ** Rating mode: what is shown *)

Lemma map_result_In (X Y : Type) (f : X -> Result Y) (l : list X)
  (ys : list Y) :
  map_result f l = Ok ys ->
  List.length ys = List.length l
  /\ (forall x, In x l -> exists y, f x = Ok y /\ In y ys)
  /\ (forall y, In y ys -> exists x, In x l /\ f x = Ok y).
Proof.
  revert ys. induction l as [| x l IH]; intros ys H; cbn [map_result] in H.
  - injection H as <-. split; [reflexivity |]. split; intros z [].
  - destruct (f x) as [y |] eqn:Ey; [| discriminate]. cbn [rbind] in H.
    destruct (map_result f l) as [ys0 |]; [| discriminate].
    cbn [rbind] in H. injection H as <-.
    destruct (IH ys0 eq_refl) as [Hlen [Hall Hback]].
    split; [cbn [List.length]; congruence |]. split.
    + intros z [<- | Hz].
      * exists y. split; [exact Ey | left; reflexivity].
      * destruct (Hall z Hz) as [y' [Hy' Hin]].
        exists y'. split; [exact Hy' | right; exact Hin].
    + intros z [<- | Hz].
      * exists x. split; [left; reflexivity | exact Ey].
      * destruct (Hback z Hz) as [x' [Hx' Hfx]].
        exists x'. split; [right; exact Hx' | exact Hfx].
Qed.

Section RatingViews.

Variable rng : Type.
Variable shuffle : rng -> list Item -> list Item * rng.
Variable sort_values : forall Row : Type, (Row -> Z) -> list Row -> list Row.
Variable str_lower : string -> string.
Variable path_name : string -> string.

(** X16: in rating mode with rounds left and the cursor on a match,
    [display_match] leaves the state and the random generator alone and
    shows that match: its two items as option A and option B, all three
    vote buttons visible, the tie button among them, the leaderboard
    visible, the champion slots hidden, and the video controls visible
    exactly when one of the two items is a video file. *)
Theorem rating_pending_view (names : Dict string) (ps : Dict PlayerData)
  (h ms : list (Item * Item)) (idx cr tr : Z) (g : rng) :
  rating_ok ps h ms idx ->
  cr <= tr ->
  idx < len ms ->
  exists p1 p2 rows view,
    nth_error ms (Z.to_nat idx) = Some (p1, p2)
    /\ display_match shuffle sort_values str_lower
         (PyDict (rating_state names ps h ms idx cr tr)) g
       = Ok ((PyDict (rating_state names ps h ms idx cr tr), view), g)
    /\ info_text view = gr_value (elo_info_text cr tr idx (len ms))
    /\ left_media_display view = mkUpdate (Some p1) (Some "選項 A") (Some true)
    /\ right_media_display view
       = mkUpdate (Some p2) (Some "選項 B") (Some true)
    /\ left_btn view = gr_visible true
    /\ tie_btn view = gr_visible true
    /\ right_btn view = gr_visible true
    /\ elo_ranking sort_values (rating_state names ps h ms idx cr tr)
       = Ok rows
    /\ ranking_table view = mkUpdate (Some (EloTable rows)) None (Some true)
    /\ final_winner_video view = gr_visible false
    /\ final_winner_image view = gr_visible false
    /\ custom_video_controls view
       = gr_visible (is_video_file str_lower p1 || is_video_file str_lower p2).
Proof.
  intros Hok Hcr Hlt.
  pose proof (rk_idx Hok) as Hidx.
  destruct (py_index_ok _ ms idx (conj (proj1 Hidx) Hlt))
    as [[p1 p2] [Hnth Hpy]].
  destruct (elo_ranking_ready sort_values
              (rating_state names ps h ms idx cr tr)
              (rating_ranking_ready names ps h ms h ms idx cr tr idx Hok))
    as [rows Hrows].
  exists p1, p2, rows. eexists. split; [exact Hnth |]. split.
  - rewrite (display_match_of_elo rng shuffle sort_values str_lower
               (rating_state names ps h ms idx cr tr) g eq_refl).
    unfold display_match_elo, bind, lift.
    cbn [current_round total_rounds current_match_index matchups_this_round
         rating_state field].
    destruct (Z.gtb_spec cr tr) as [Hgt | _]; [lia |].
    destruct (Z.geb_spec idx (len ms)) as [Hge | _]; [lia |].
    fold (rating_state names ps h ms idx cr tr).
    unfold display_elo_tail. rewrite Hrows.
    cbn [current_round total_rounds current_match_index matchups_this_round
         rating_state field rbind].
    destruct (Z.leb_spec cr tr) as [_ | Hgt]; [| lia].
    destruct ms as [| m ms0]; [unfold len in Hlt; cbn in Hlt; lia |].
    rewrite Hpy. cbn [rbind]. reflexivity.
  - repeat split. exact Hrows.
Qed.

Section Sorted.

Hypothesis sort_perm :
  forall (Row : Type) (key : Row -> Z) (l : list Row),
    Permutation (sort_values Row key l) l.
Hypothesis sort_sorted :
  forall (Row : Type) (key : Row -> Z) (l : list Row),
    StronglySorted (fun a b => key b <= key a) (sort_values Row key l).

(** X17: with a sort that permutes and sorts, the leaderboard of a
    well-formed rating state has exactly one row per player, is in
    descending order of rating, holds for every player a row with their
    display name, rating, score and match count, and holds no other row. *)
Theorem leaderboard_lists_everyone (names : Dict string)
  (ps : Dict PlayerData) (h ms : list (Item * Item)) (idx cr tr : Z) :
  rating_ok ps h ms idx ->
  exists rows,
    elo_ranking sort_values (rating_state names ps h ms idx cr tr) = Ok rows
    /\ List.length rows = List.length ps
    /\ StronglySorted (fun a b => row_elo b <= row_elo a) rows
    /\ (forall p d e s m,
          dict_get p ps = Some d ->
          elo d = Some e -> score d = Some s -> matches d = Some m ->
          In (mkEloRow (dict_get_default p "N/A" names) e s m) rows)
    /\ (forall row,
          In row rows ->
          exists p d,
            dict_get p ps = Some d
            /\ row_name row = dict_get_default p "N/A" names
            /\ elo d = Some (row_elo row)
            /\ score d = Some (row_score row)
            /\ matches d = Some (row_matches row)).
Proof.
  intros Hok.
  destruct (elo_ranking_ready sort_values
              (rating_state names ps h ms idx cr tr)
              (rating_ranking_ready names ps h ms h ms idx cr tr idx Hok))
    as [rows Hrows].
  exists rows. split; [exact Hrows |].
  unfold elo_ranking in Hrows. cbn [players rating_state field rbind] in Hrows.
  fold (rating_state names ps h ms idx cr tr) in Hrows.
  destruct (map_result (elo_row (rating_state names ps h ms idx cr tr)) ps)
    as [rows0 |] eqn:Erows; [| discriminate].
  cbn [rbind] in Hrows.
  assert (Hsort : rows = sort_values EloRow row_elo rows0).
  { destruct rows0; [discriminate | congruence]. }
  destruct (map_result_In _ _ _ ps rows0 Erows) as [Hlen [Hall Hback]].
  pose proof (sort_perm EloRow row_elo rows0) as Hperm.
  rewrite <- Hsort in Hperm.
  split; [rewrite (Permutation_length Hperm); exact Hlen |].
  split; [rewrite Hsort; apply sort_sorted |].
  split.
  - intros p d e s m Hd He Hs Hm.
    destruct (Hall (p, d) (dict_get_In _ p ps d Hd)) as [row [Hrow Hin]].
    unfold elo_row in Hrow.
    cbn [original_filenames rating_state field rbind fst snd] in Hrow.
    rewrite He, Hs, Hm in Hrow. cbn [field rbind] in Hrow.
    injection Hrow as <-.
    eapply Permutation_in; [symmetry; exact Hperm | exact Hin].
  - intros row Hin.
    apply (Permutation_in _ Hperm) in Hin.
    destruct (Hback row Hin) as [[p d] [Hpd Hrow]].
    exists p, d.
    split; [apply dict_In_get; [exact (rk_keys Hok) | exact Hpd] |].
    unfold elo_row in Hrow.
    cbn [original_filenames rating_state field rbind fst snd] in Hrow.
    destruct (elo d) as [e |]; [| discriminate].
    destruct (score d) as [s |]; [| discriminate].
    destruct (matches d) as [m |]; [| discriminate].
    cbn [field rbind] in Hrow. injection Hrow as <-.
    repeat split.
Qed.

End Sorted.

(** X18: [start_tournament] called with a label that is neither of the
    two modes, on at least two media files, raises nothing and draws
    nothing from the random generator: it returns a state with the display
    names of the media files, no players and no matchups, with every
    component but the info text hidden; and every vote on that state
    returns it unchanged, so that such a tournament never gets going. *)
Theorem unknown_mode_starts_nothing (m : string) (files_list : list string)
  (total : Z) (g : rng) :
  m <> mode_elo ->
  m <> mode_elimination ->
  2 <= len (filter (is_media_file str_lower) files_list) ->
  start_tournament shuffle sort_values str_lower path_name files_list
    m total g
  = Ok ((PyDict
           (mkState (Some m)
              (Some (dict_comprehension path_name
                       (filter (is_media_file str_lower) files_list)))
              (Some []) (Some []) None None None None None None),
         hidden_updates), g)
  /\ forall o g2,
       vote shuffle sort_values str_lower o
         (PyDict
            (mkState (Some m)
               (Some (dict_comprehension path_name
                        (filter (is_media_file str_lower) files_list)))
               (Some []) (Some []) None None None None None None)) g2
       = Ok ((PyDict
                (mkState (Some m)
                   (Some (dict_comprehension path_name
                            (filter (is_media_file str_lower) files_list)))
                   (Some []) (Some []) None None None None None None),
              hidden_updates), g2).
Proof.
  intros Helo Helim Hmany.
  assert (Hshow : forall st g0,
             mode st = Some m ->
             display_match shuffle sort_values str_lower (PyDict st) g0
             = Ok ((PyDict st, hidden_updates), g0)).
  { intros st g0 Hmode. unfold display_match.
    unfold display_match_body at 1. unfold bind, lift, ret.
    rewrite Hmode. cbn [field].
    destruct (String.eqb_spec m mode_elo) as [E | _]; [congruence |].
    destruct (String.eqb_spec m mode_elimination) as [E | _]; [congruence |].
    reflexivity. }
  split.
  - unfold start_tournament.
    destruct files_list as [| f fl] eqn:Efl;
      [unfold len in Hmany; cbn in Hmany; lia |].
    rewrite <- Efl in *. clear Efl f fl.
    destruct (Z.ltb_spec (len (filter (is_media_file str_lower) files_list)) 2)
      as [Hfew | _]; [lia |].
    destruct (String.eqb_spec m mode_elimination) as [E | _]; [congruence |].
    destruct (String.eqb_spec m mode_elo) as [E | _]; [congruence |].
    apply Hshow. reflexivity.
  - intros o g2. unfold vote, bind, lift, ret. cbn [mode field].
    destruct (String.eqb_spec m mode_elo) as [E | _]; [congruence |].
    destruct (String.eqb_spec m mode_elimination) as [E | _]; [congruence |].
    cbn [andb]. apply Hshow. reflexivity.
Qed.

End RatingViews.

Lemma rating_pending_view_witness :
  exists p1 p2 rows view,
    nth_error [("a.mp4", "b.mp4")] 0 = Some (p1, p2)
    /\ display_match shuffle_id sort_insertion lower_plain
         (PyDict rating_of_two_pending) tt
       = Ok ((PyDict rating_of_two_pending, view), tt)
    /\ tie_btn view = gr_visible true
    /\ ranking_table view = mkUpdate (Some (EloTable rows)) None (Some true).
Proof.
  destruct (rating_pending_view unit shuffle_id sort_insertion lower_plain
              [("a.mp4", "a.mp4"); ("b.mp4", "b.mp4")]
              [("a.mp4", new_elo_player); ("b.mp4", new_elo_player)]
              [] [("a.mp4", "b.mp4")] 0 1 3 tt rating_of_two_pending_ok)
    as [p1 [p2 [rows [view [Hnth [Hrun [_ [_ [_ [_ [Htie [_ [_ [Htable _]]]]]]]]]]]]]].
  - lia.
  - unfold len. cbn. lia.
  - exists p1, p2, rows, view. repeat split; assumption.
Defined.

Lemma leaderboard_lists_everyone_witness :
  exists rows,
    elo_ranking sort_insertion rating_of_two_pending = Ok rows
    /\ List.length rows = 2%nat
    /\ In (mkEloRow "a.mp4" 1500 0 0) rows.
Proof.
  destruct (leaderboard_lists_everyone sort_insertion sort_insertion_perm
              sort_insertion_sorted
              [("a.mp4", "a.mp4"); ("b.mp4", "b.mp4")]
              [("a.mp4", new_elo_player); ("b.mp4", new_elo_player)]
              [] [("a.mp4", "b.mp4")] 0 1 3 rating_of_two_pending_ok)
    as [rows [Hrun [Hlen [_ [Hall _]]]]].
  exists rows. split; [exact Hrun |]. split; [exact Hlen |].
  apply (Hall "a.mp4" new_elo_player 1500 0 0); reflexivity.
Defined.

Lemma unknown_mode_starts_nothing_witness :
  start_tournament shuffle_id sort_insertion lower_plain name_plain
    ["a.mp4"; "b.mp4"] "league" 3 tt
  = Ok ((PyDict
           (mkState (Some "league")
              (Some [("a.mp4", "a.mp4"); ("b.mp4", "b.mp4")])
              (Some []) (Some []) None None None None None None),
         hidden_updates), tt).
Proof.
  destruct (unknown_mode_starts_nothing unit shuffle_id sort_insertion
              lower_plain name_plain "league" ["a.mp4"; "b.mp4"] 3 tt)
    as [Hstart _].
  - discriminate.
  - discriminate.
  - unfold len. cbn. lia.
  - exact Hstart.
Defined.
